(** * CVD monitor (get_cvd_optimized_v3.py): a shallow embedding

    The monitor keeps, per instrument, a running cumulative volume delta
    and a few counters, mirrors them into a shared dictionary, and
    periodically appends them to CSV files from which the delta is reloaded
    at the next start.

    Conventions of the embedding:
    - a Python [float] is a binary64 value of [PrimFloat]; a Python [int]
      is a [Z];
    - a Python [str] is a [string] holding its UTF-8 encoding, the content
      of a file is a [list ascii] of bytes;
    - the shared [data_store] dictionary is a [gmap] from the instrument key
      to the entry of that key; the [monitors] dictionary keeps its
      insertion order and is an association list;
    - library calls whose algorithm is not part of the program
      ([float] on a string, [repr] of a float, the UTF-8 decoder, the CSV
      reader, the JSON parser) are the fields of [PyBuiltins];
    - an exception caught by the program is a branch of the function that
      catches it; an exception that leaves a function is a [Raised] outcome
      carrying the state reached when it was raised. *)

From Stdlib Require Import Floats ZArith Ascii String List DecimalString.
From stdpp Require Import gmap strings list.

Set Warnings "-register-all".

Local Open Scope string_scope.
Local Open Scope Z_scope.
Local Open Scope list_scope.

(** ** JSON documents and library calls *)

(** What [cysimdjson] hands back: scalars as Python values, containers as
    wrappers. *)
Inductive json_value :=
| JNull
| JBool (b : bool)
| JInt (z : Z)
| JFloat (f : float)
| JStr (s : string)
| JArr (items : list json_value)
| JObj (fields : list (string * json_value)).

Class PyBuiltins := {
  (** [float(s)] on a [str]; [None] when it raises [ValueError] *)
  float_of_str : string → option float;
  (** [str(x)] of a float, which is how [csv.writer] prints it *)
  float_repr : float → string;
  (** [bytes.decode('utf-8', errors='ignore')] *)
  utf8_ignore : list ascii → list ascii;
  (** number of rows [csv.reader] yields on a file opened as UTF-8 text;
      [None] when reading raises *)
  csv_row_count : list ascii → option nat;
  (** [cysimdjson.JSONParser.parse]; [None] when it raises *)
  json_parse : list ascii → option json_value
}.

(** [float(n)] of an [int]: the nearest binary64 value. *)
Definition float_of_int (z : Z) : float :=
  SF2Prim (binary_normalize prec emax z 0 false).

(** First binding of a key in an object. *)
Fixpoint obj_get (k : string) (fields : list (string * json_value)) : option json_value :=
  match fields with
  | [] => None
  | (k', v) :: rest => if String.eqb k k' then Some v else obj_get k rest
  end.

(** [at_pointer] along a path of reference tokens. Every token the program
    uses is a name, never an array index, so an array on the way raises, as
    does a scalar or a missing key. *)
Fixpoint at_pointer (path : list string) (j : json_value) : option json_value :=
  match path with
  | [] => Some j
  | k :: path' =>
      match j with
      | JObj fields =>
          match obj_get k fields with
          | Some v => at_pointer path' v
          | None => None
          end
      | _ => None
      end
  end.

(** [float(v)]; [None] when it raises [ValueError] or [TypeError]. *)
Definition py_float `{PyBuiltins} (v : json_value) : option float :=
  match v with
  | JStr s => float_of_str s
  | JFloat f => Some f
  | JInt z => Some (float_of_int z)
  | JBool b => Some (if b then 1%float else 0%float)
  | JNull | JArr _ | JObj _ => None
  end.

(** Truth value of [v], as [not v] tests it. *)
Definition py_truthy (v : json_value) : bool :=
  match v with
  | JNull => false
  | JBool b => b
  | JInt z => negb (z =? 0)%Z
  | JFloat f => negb (PrimFloat.eqb f 0%float)
  | JStr s => negb (String.eqb s "")
  | JArr items => match items with [] => false | _ => true end
  | JObj fields => match fields with [] => false | _ => true end
  end.

(** [v == s] for a string literal [s]. *)
Definition py_eq_str (v : json_value) (s : string) : bool :=
  match v with
  | JStr s' => String.eqb s' s
  | _ => false
  end.

(** ** Outcomes of calls that may raise *)

Inductive outcome (A : Type) :=
| Ok (a : A)
| Raised (a : A).
Arguments Ok {A} a.
Arguments Raised {A} a.

Definition state_of {A} (o : outcome A) : A :=
  match o with Ok a | Raised a => a end.

Definition raised {A} (o : outcome A) : bool :=
  match o with Ok _ => false | Raised _ => true end.

(** ** Files *)

Record file := {
  (** local date and time of the last modification, in microseconds *)
  f_mtime : Z;
  f_bytes : list ascii
}.

Definition bytes_of (s : string) : list ascii := list_ascii_of_string s.
Definition str_of (b : list ascii) : string := string_of_list_ascii b.

Definition microseconds_per_day : Z := 86400 * 1000000.

(** [(now - file_mtime_dt).days] *)
Definition age_days (now mtime : Z) : Z := (now - mtime) / microseconds_per_day.

(** ** The shared store and the monitor object *)

(** One entry of [data_store]: the dictionary with the keys ['cvd'],
    ['last_price'], ['period_volume'] and ['trade_count'], all four set when
    the entry is created and never removed. *)
Record entry := {
  e_cvd : float;
  e_last_price : option float;
  e_period_volume : float;
  e_trade_count : Z
}.

Record SymbolCvdMonitor := {
  symbol_raw : string;
  type : string;
  stream_name : string;
  shared_key : string;
  websocket_url : string;
  cvd : float;
  period_volume : float;
  last_price : option float;
  running : bool;
  (** the open connection, by an identifier of the transport *)
  ws : option nat;
  reconnect_attempts : Z;
  max_reconnect_attempts : Z;
  max_reconnect_delay : Z;
  initial_reconnect_delay : Z;
  trade_count : Z;
  last_log_time : float
}.

(** Assignments to the attributes the program writes after construction. *)
Definition set_trade (c v : float) (p : option float) (m : SymbolCvdMonitor) : SymbolCvdMonitor :=
  {| symbol_raw := symbol_raw m; type := type m; stream_name := stream_name m;
     shared_key := shared_key m; websocket_url := websocket_url m;
     cvd := c; period_volume := v; last_price := p;
     running := running m; ws := ws m;
     reconnect_attempts := reconnect_attempts m;
     max_reconnect_attempts := max_reconnect_attempts m;
     max_reconnect_delay := max_reconnect_delay m;
     initial_reconnect_delay := initial_reconnect_delay m;
     trade_count := trade_count m; last_log_time := last_log_time m |}.

Definition set_period_volume (v : float) (m : SymbolCvdMonitor) : SymbolCvdMonitor :=
  set_trade (cvd m) v (last_price m) m.

Definition set_stats (n : Z) (t : float) (m : SymbolCvdMonitor) : SymbolCvdMonitor :=
  {| symbol_raw := symbol_raw m; type := type m; stream_name := stream_name m;
     shared_key := shared_key m; websocket_url := websocket_url m;
     cvd := cvd m; period_volume := period_volume m; last_price := last_price m;
     running := running m; ws := ws m;
     reconnect_attempts := reconnect_attempts m;
     max_reconnect_attempts := max_reconnect_attempts m;
     max_reconnect_delay := max_reconnect_delay m;
     initial_reconnect_delay := initial_reconnect_delay m;
     trade_count := n; last_log_time := t |}.

Definition set_conn (r : bool) (w : option nat) (a : Z) (m : SymbolCvdMonitor) : SymbolCvdMonitor :=
  {| symbol_raw := symbol_raw m; type := type m; stream_name := stream_name m;
     shared_key := shared_key m; websocket_url := websocket_url m;
     cvd := cvd m; period_volume := period_volume m; last_price := last_price m;
     running := r; ws := w;
     reconnect_attempts := a;
     max_reconnect_attempts := max_reconnect_attempts m;
     max_reconnect_delay := max_reconnect_delay m;
     initial_reconnect_delay := initial_reconnect_delay m;
     trade_count := trade_count m; last_log_time := last_log_time m |}.

(** A monitor together with the store it writes to. *)
Definition mstate : Type := SymbolCvdMonitor * gmap string entry.

(** ** calculate_cvd *)

(** The three reads at the head of [calculate_cvd]; [None] when one of them
    raises. *)
Definition read_trade `{PyBuiltins} (trade_data : json_value) : option (float * json_value * float) :=
  quantity ← at_pointer ["q"] trade_data ≫= py_float;
  is_buyer_maker ← at_pointer ["m"] trade_data;
  price ← at_pointer ["p"] trade_data ≫= py_float;
  Some (quantity, is_buyer_maker, price).

Definition calculate_cvd `{PyBuiltins} (current_time : float) (trade_data : json_value)
    (st : mstate) : mstate :=
  let '(self, data_store) := st in
  match read_trade trade_data with
  | None => st
  | Some (quantity, is_buyer_maker, price) =>
      let delta := if negb (py_truthy is_buyer_maker) then quantity else (- quantity)%float in
      let self := set_trade (cvd self + delta)%float (period_volume self + quantity)%float
                            (Some price) self in
      match data_store !! shared_key self with
      | None => (self, data_store)
      | Some _ =>
          let data_store :=
            <[shared_key self :=
                {| e_cvd := cvd self; e_last_price := last_price self;
                   e_period_volume := period_volume self;
                   e_trade_count := trade_count self |}]> data_store in
          let self := set_stats (trade_count self + 1) (last_log_time self) self in
          let self :=
            if (60 <=? current_time - last_log_time self)%float
            then set_stats (trade_count self) current_time self
            else self in
          (self, data_store)
      end
  end.

(** ** process_message *)

Definition process_message `{PyBuiltins} (current_time : float) (message_bytes : list ascii)
    (st : mstate) : mstate :=
  match json_parse message_bytes with
  | None => st
  | Some data =>
      let raw :=
        match at_pointer ["e"] data with
        | Some event_type => py_eq_str event_type "aggTrade"
        | None => false
        end in
      if raw then calculate_cvd current_time data st
      else
        match at_pointer ["stream"] data, at_pointer ["data"; "e"] data with
        | Some stream, Some event_type =>
            if py_eq_str stream (stream_name (fst st)) && py_eq_str event_type "aggTrade"
            then match at_pointer ["data"] data with
                 | Some inner => calculate_cvd current_time inner st
                 | None => st
                 end
            else st
        | _, _ => st
        end
  end.

(** ** stop and reset_period_volume *)

Definition stop (self : SymbolCvdMonitor) : SymbolCvdMonitor :=
  set_conn false (ws self) (reconnect_attempts self) self.

(** The entry after [entry['period_volume'] = 0.0]. *)
Definition clear_volume (e : entry) : entry :=
  {| e_cvd := e_cvd e; e_last_price := e_last_price e;
     e_period_volume := 0%float; e_trade_count := e_trade_count e |}.

(** The assignment to the store raises [KeyError] when the key has no
    entry; the attribute is already cleared by then. *)
Definition reset_period_volume (st : mstate) : outcome mstate :=
  let '(self, data_store) := st in
  let self := set_period_volume 0%float self in
  match data_store !! shared_key self with
  | None => Raised (self, data_store)
  | Some e => Ok (self, <[shared_key self := clear_volume e]> data_store)
  end.

(** ** Text: splitlines and split *)

Definition chr (n : nat) : ascii := ascii_of_nat n.

Definition LF : ascii := chr 10.
Definition CR : ascii := chr 13.

(** The one-byte line boundaries of [str.splitlines] other than CR:
    LF, VT, FF, FS, GS and RS. *)
Definition is_line_break (c : ascii) : bool :=
  let n := nat_of_ascii c in
  (n =? 10)%nat || (n =? 11)%nat || (n =? 12)%nat
  || (n =? 28)%nat || (n =? 29)%nat || (n =? 30)%nat.

(** [str.splitlines()] on UTF-8 text. Besides the one-byte boundaries, CR LF
    is one boundary, and so are NEL (C2 85) and the line and paragraph
    separators (E2 80 A8, E2 80 A9). The boundaries are dropped and no empty
    line is reported after the last one. *)
Fixpoint splitlines (s : list ascii) : list (list ascii) :=
  let keep c rest :=
    match splitlines rest with
    | [] => [[c]]
    | l :: ls => (c :: l) :: ls
    end in
  match s with
  | [] => []
  | c :: rest =>
      if Ascii.eqb c CR then
        match rest with
        | c2 :: rest2 =>
            if Ascii.eqb c2 LF then [] :: splitlines rest2 else [] :: splitlines rest
        | [] => [] :: splitlines rest
        end
      else if is_line_break c then [] :: splitlines rest
      else if Ascii.eqb c (chr 194) then
        match rest with
        | c2 :: rest2 =>
            if Ascii.eqb c2 (chr 133) then [] :: splitlines rest2 else keep c rest
        | [] => keep c rest
        end
      else if Ascii.eqb c (chr 226) then
        match rest with
        | c2 :: c3 :: rest3 =>
            if Ascii.eqb c2 (chr 128) && (Ascii.eqb c3 (chr 168) || Ascii.eqb c3 (chr 169))
            then [] :: splitlines rest3
            else keep c rest
        | _ => keep c rest
        end
      else keep c rest
  end.

(** [s.split(sep)] for a one-byte separator. *)
Fixpoint split (sep : ascii) (s : list ascii) : list (list ascii) :=
  match s with
  | [] => [[]]
  | c :: rest =>
      if Ascii.eqb c sep then [] :: split sep rest
      else match split sep rest with
           | [] => [[c]]
           | l :: ls => (c :: l) :: ls
           end
  end.

Definition comma : ascii := ",".

(** ** load_last_cvd_from_separate_csv

    A file that exists can be read: the calls that ask for its size and
    date and that open it do not raise. *)

(** The tail of the function, from the read of the last chunk on. *)
Definition last_line_of `{PyBuiltins} (bytes : list ascii) : list ascii :=
  let file_size := length bytes in
  let chunk_size := Nat.min file_size 4096 in
  let last_chunk := utf8_ignore (skipn (file_size - chunk_size) bytes) in
  let lines := splitlines last_chunk in
  List.last lines [].

Definition parse_last_line `{PyBuiltins} (last_line : list ascii) : option float :=
  match last_line with
  | [] => None
  | _ =>
      let parts := split comma last_line in
      if (3 <=? length parts)%nat then float_of_str (str_of (List.nth 2 parts [])) else None
  end.

Definition load_last_cvd_from_separate_csv `{PyBuiltins} (fs : gmap string file) (now : Z)
    (csv_file_path : string) (max_age_days : Z) : float :=
  match fs !! csv_file_path with
  | None => 0%float
  | Some f =>
      let file_size := length (f_bytes f) in
      if (max_age_days <? age_days now (f_mtime f))%Z then 0%float
      else if (file_size =? 0)%nat then 0%float
      else
        let header_only :=
          if (file_size <? 100)%nat then
            match csv_row_count (f_bytes f) with
            | Some row_count => Some (row_count <=? 1)%nat
            | None => None
            end
          else Some false in
        match header_only with
        | None => 0%float
        | Some true => 0%float
        | Some false =>
            match parse_last_line (last_line_of (f_bytes f)) with
            | Some last_cvd => last_cvd
            | None => 0%float
            end
        end
  end.

(** ** Construction of a monitor *)

(** [os.path.join(a, b)] *)
Definition path_join (a b : string) : string :=
  match b with
  | String "/" _ => b
  | _ =>
      match rev (bytes_of a) with
      | [] => b
      | c :: _ => if Ascii.eqb c "/" then a +:+ b else a +:+ "/" +:+ b
      end
  end.

(** [str.lower()] on ASCII letters. *)
Definition lower_char (c : ascii) : ascii :=
  let n := nat_of_ascii c in
  if (65 <=? n)%nat && (n <=? 90)%nat then ascii_of_nat (n + 32) else c.

Definition lower (s : string) : string := str_of (map lower_char (bytes_of s)).

Definition get_websocket_url (ty stream : string) : option string :=
  if String.eqb ty "spot" then Some ("wss://stream.binance.com:9443/ws/" +:+ stream)
  else if String.eqb ty "usdt-m" then Some ("wss://fstream.binance.com/ws/" +:+ stream)
  else if String.eqb ty "coin-m" then Some ("wss://dstream.binance.com/ws/" +:+ stream)
  else None.

Definition key_of (symbol ty : string) : string := symbol +:+ "_" +:+ ty.

Definition csv_path_of (data_dir key : string) : string := path_join data_dir (key +:+ ".csv").

(** [SymbolCvdMonitor.__init__]; [None] when the market type is not
    supported and the constructor raises before it touches the store. *)
Definition init `{PyBuiltins} (fs : gmap string file) (now : Z) (current_time : float)
    (cvd_max_age_days : Z) (data_dir : string) (symbol_config : string * string)
    (data_store : gmap string entry) : option mstate :=
  let '(symbol, ty) := symbol_config in
  let stream := lower symbol +:+ "@aggTrade" in
  let key := key_of symbol ty in
  let initial_cvd :=
    load_last_cvd_from_separate_csv fs now (csv_path_of data_dir key) cvd_max_age_days in
  match get_websocket_url ty stream with
  | None => None
  | Some url =>
      let self :=
        {| symbol_raw := symbol; type := ty; stream_name := stream; shared_key := key;
           websocket_url := url;
           cvd := initial_cvd; period_volume := 0%float; last_price := None;
           running := true; ws := None;
           reconnect_attempts := 0; max_reconnect_attempts := 20;
           max_reconnect_delay := 60; initial_reconnect_delay := 5;
           trade_count := 0; last_log_time := current_time |} in
      Some (self,
            <[key := {| e_cvd := cvd self; e_last_price := last_price self;
                        e_period_volume := period_volume self;
                        e_trade_count := trade_count self |}]> data_store)
  end.

(** ** CSV rows as csv.writer prints them *)

Inductive cell :=
| CStr (s : string)
| CFloat (f : float)
| CInt (z : Z).

(** [str(n)] of an [int] *)
Definition str_of_int (z : Z) : string := NilZero.string_of_int (Z.to_int z).

Definition cell_str `{PyBuiltins} (c : cell) : string :=
  match c with
  | CStr s => s
  | CFloat f => float_repr f
  | CInt z => str_of_int z
  end.

Definition quote_char : ascii := chr 34.

(** A field is quoted when it holds the delimiter, the quote character or a
    character of the line terminator (the default dialect, QUOTE_MINIMAL). *)
Definition is_special (c : ascii) : bool :=
  Ascii.eqb c comma || Ascii.eqb c quote_char || Ascii.eqb c CR || Ascii.eqb c LF.

Fixpoint double_quotes (s : list ascii) : list ascii :=
  match s with
  | [] => []
  | c :: rest =>
      if Ascii.eqb c quote_char then c :: c :: double_quotes rest
      else c :: double_quotes rest
  end.

Definition csv_field (s : list ascii) : list ascii :=
  if existsb is_special s then quote_char :: double_quotes s ++ [quote_char] else s.

Fixpoint join_fields (fields : list (list ascii)) : list ascii :=
  match fields with
  | [] => []
  | [f] => f
  | f :: rest => f ++ comma :: join_fields rest
  end.

(** [writer.writerow(row)] for a row of two cells or more. *)
Definition csv_line `{PyBuiltins} (row : list cell) : list ascii :=
  join_fields (map (λ c, csv_field (bytes_of (cell_str c))) row) ++ [CR; LF].

Definition unified_header : list cell :=
  [CStr "timestamp"; CStr "symbol"; CStr "price"; CStr "cvd"; CStr "period_volume";
   CStr "trade_count"].

Definition separate_header : list cell :=
  [CStr "timestamp"; CStr "price"; CStr "cvd"; CStr "period_volume"; CStr "trade_count"].

(** ** Dictionaries that keep their insertion order *)

Fixpoint dict_get {V} (k : string) (d : list (string * V)) : option V :=
  match d with
  | [] => None
  | (k', v) :: rest => if String.eqb k k' then Some v else dict_get k rest
  end.

Fixpoint dict_set {V} (k : string) (v : V) (d : list (string * V)) : list (string * V) :=
  match d with
  | [] => [(k, v)]
  | (k', v') :: rest =>
      if String.eqb k k' then (k, v) :: rest else (k', v') :: dict_set k v rest
  end.

(** ** save_cvd_data_both_modes *)

(** What the file system does to the calls of one cycle: whether
    [os.makedirs] raises, and for which paths [open] raises. *)
Record io := {
  makedirs_fails : bool;
  open_fails : string → bool
}.

Record world := {
  w_fs : gmap string file;
  w_store : gmap string entry;
  w_monitors : list (string * SymbolCvdMonitor)
}.

(** The values of one instrument, read once from its entry: price, cvd,
    period volume and trade count; [None] when the instrument is skipped. *)
Definition read_entry (data_store : gmap string entry) (key : string) : option (list cell) :=
  match data_store !! key with
  | None => None
  | Some data =>
      let cvd := e_cvd data in
      let last_price := e_last_price data in
      let period_volume := e_period_volume data in
      let trade_count := e_trade_count data in
      let no_price :=
        match last_price with
        | None => true
        | Some p => (p =? 0)%float
        end in
      if no_price && (cvd =? 0)%float then None
      else
        let last_price := match last_price with None => 0%float | Some p => p end in
        Some [CFloat last_price; CFloat cvd; CFloat period_volume; CInt trade_count]
  end.

(** The first loop: one pass over [monitors] that fills [unified_rows] and
    [separate_files]. *)
Definition collect_step (timestamp data_dir : string) (data_store : gmap string entry)
    (acc : list (list cell) * list (string * list cell)) (item : string * SymbolCvdMonitor)
    : list (list cell) * list (string * list cell) :=
  let '(unified_rows, separate_files) := acc in
  let key := fst item in
  match read_entry data_store key with
  | None => acc
  | Some values =>
      (unified_rows ++ [CStr timestamp :: CStr key :: values],
       dict_set (csv_path_of data_dir key) (CStr timestamp :: values) separate_files)
  end.

Definition collect (timestamp data_dir : string) (data_store : gmap string entry)
    (monitors : list (string * SymbolCvdMonitor))
    : list (list cell) * list (string * list cell) :=
  fold_left (collect_step timestamp data_dir data_store) monitors ([], []).

(** What a file holds; nothing when it does not exist. *)
Definition bytes_at (fs : gmap string file) (path : string) : list ascii :=
  match fs !! path with Some f => f_bytes f | None => [] end.

(** [open(path, 'a')] followed by the writes of [data]. *)
Definition append_file (now : Z) (path : string) (data : list ascii)
    (fs : gmap string file) : gmap string file :=
  <[path := {| f_mtime := now; f_bytes := bytes_at fs path ++ data |}]> fs.

(** The header goes first when the file did not exist. *)
Definition header_if_new `{PyBuiltins} (fs : gmap string file) (path : string)
    (header : list cell) : list ascii :=
  match fs !! path with Some _ => [] | None => csv_line header end.

Definition write_rows `{PyBuiltins} (now : Z) (path : string) (header : list cell)
    (rows : list (list cell)) (fs : gmap string file) : gmap string file :=
  append_file now path (header_if_new fs path header ++ concat (map csv_line rows)) fs.

(** The second loop; a file whose [open] raises is logged and left as it is. *)
Definition write_separate `{PyBuiltins} (env : io) (now : Z)
    (fs : gmap string file) (item : string * list cell) : gmap string file :=
  let '(csv_file, row_data) := item in
  if open_fails env csv_file then fs
  else write_rows now csv_file separate_header [row_data] fs.

(** The last loop; the first [KeyError] leaves the loop. *)
Fixpoint reset_all (monitors : list (string * SymbolCvdMonitor))
    (data_store : gmap string entry)
    : outcome (list (string * SymbolCvdMonitor) * gmap string entry) :=
  match monitors with
  | [] => Ok ([], data_store)
  | (key, monitor) :: rest =>
      match reset_period_volume (monitor, data_store) with
      | Raised (monitor, data_store) => Raised ((key, monitor) :: rest, data_store)
      | Ok (monitor, data_store) =>
          match reset_all rest data_store with
          | Ok (rest, data_store) => Ok ((key, monitor) :: rest, data_store)
          | Raised (rest, data_store) => Raised ((key, monitor) :: rest, data_store)
          end
      end
  end.

Definition unified_csv_of (data_dir : string) : string := path_join data_dir "cvd_data_all.csv".

Definition save_cvd_data_both_modes `{PyBuiltins} (env : io) (timestamp : string) (now : Z)
    (data_dir : string) (w : world) : outcome world :=
  if makedirs_fails env then Raised w
  else
    let unified_csv := unified_csv_of data_dir in
    let '(unified_rows, separate_files) :=
      collect timestamp data_dir (w_store w) (w_monitors w) in
    let unified_written :=
      match unified_rows with
      | [] => Some (w_fs w)
      | _ =>
          if open_fails env unified_csv then None
          else Some (write_rows now unified_csv unified_header unified_rows (w_fs w))
      end in
    match unified_written with
    | None => Raised w
    | Some fs =>
        let fs := fold_left (write_separate env now) separate_files fs in
        match reset_all (w_monitors w) (w_store w) with
        | Ok (monitors, data_store) =>
            Ok {| w_fs := fs; w_store := data_store; w_monitors := monitors |}
        | Raised (monitors, data_store) =>
            Raised {| w_fs := fs; w_store := data_store; w_monitors := monitors |}
        end
    end.

(** One turn of [data_saver_task], and the last save of [main]: the call
    sits in a [try] whose handler logs the exception, so the cycle ends in
    the state the call left behind. *)
Definition persistence_cycle `{PyBuiltins} (env : io) (timestamp : string) (now : Z)
    (data_dir : string) (w : world) : world :=
  state_of (save_cvd_data_both_modes env timestamp now data_dir w).

(** The loop of [main] that builds the monitors: a constructor that raises
    is logged and its instrument left out. *)
Definition create_monitors `{PyBuiltins} (fs : gmap string file) (now : Z)
    (current_time : float) (cvd_max_age_days : Z) (data_dir : string)
    (symbols_to_monitor : list (string * string)) : world :=
  fold_left
    (λ w config,
       match init fs now current_time cvd_max_age_days data_dir config (w_store w) with
       | None => w
       | Some (monitor, data_store) =>
           {| w_fs := w_fs w; w_store := data_store;
              w_monitors := dict_set (key_of (fst config) (snd config)) monitor (w_monitors w) |}
       end)
    symbols_to_monitor
    {| w_fs := fs; w_store := ∅; w_monitors := [] |}.

(** ** connect_and_monitor

    The coroutine gives control away at three places only: the sleep before
    a reconnection, the call that opens the connection, and the wait for the
    next message. Its state between two runs is the place where it is
    suspended; what it does when it is resumed is one atomic step. Other
    tasks, and [stop] with them, run only while it is suspended. *)

Inductive suspended :=
| NotStarted
| Sleeping (delay : Z)
| Connecting
| Reading
| Finished.

(** What the event loop resumes the coroutine with. *)
Inductive wake :=
| Resume
| ConnectOk (w : nat)
| ConnectFailed
| MsgText (current_time : float) (data : string)
| MsgBinary (current_time : float) (data : list ascii)
| MsgError
| MsgClosed
| MsgOther
| EndOfStream
| ReadFailed
| Cancelled.

(** From the [while] test to the first suspension. *)
Definition after_sleep (self : SymbolCvdMonitor) : suspended :=
  if negb (running self) then Finished else Connecting.

Definition loop_head (self : SymbolCvdMonitor) : suspended :=
  if negb (running self) then Finished
  else if max_reconnect_attempts self <=? reconnect_attempts self then Finished
  else if 0 <? reconnect_attempts self then
    Sleeping (Z.min (initial_reconnect_delay self * 2 ^ reconnect_attempts self)
                    (max_reconnect_delay self))
  else after_sleep self.

(** The [finally] clause. *)
Definition finally (self : SymbolCvdMonitor) : SymbolCvdMonitor :=
  set_conn (running self) None
           (if running self then reconnect_attempts self + 1 else reconnect_attempts self)
           self.

Definition task : Type := suspended * mstate.

(** The connection is over: [finally], then the [while] test again. *)
Definition reconnect (st : mstate) : task :=
  let self := finally (fst st) in (loop_head self, (self, snd st)).

Definition step `{PyBuiltins} (ev : wake) (t : task) : task :=
  let '(at_, st) := t in
  match at_, ev with
  | NotStarted, Resume => (loop_head (fst st), st)
  | NotStarted, Cancelled => (Finished, st)
  | Sleeping _, Resume => (after_sleep (fst st), st)
  | Sleeping _, Cancelled => (Finished, st)
  | Connecting, ConnectOk w =>
      (Reading, (set_conn (running (fst st)) (Some w) 0 (fst st), snd st))
  | Connecting, ConnectFailed => reconnect st
  | Connecting, Cancelled => (Finished, (finally (fst st), snd st))
  | Reading, MsgText current_time data =>
      (Reading, process_message current_time (bytes_of data) st)
  | Reading, MsgBinary current_time data =>
      (Reading, process_message current_time data st)
  | Reading, MsgOther => (Reading, st)
  | Reading, (MsgError | MsgClosed | EndOfStream | ReadFailed) => reconnect st
  | Reading, Cancelled => (Finished, (finally (fst st), snd st))
  | _, _ => t
  end.

(** What happens to a task: the event loop resumes it, or another task
    calls [stop] on its monitor while it is suspended. *)
Inductive action :=
| Wake (ev : wake)
| Stop.

Definition deliver `{PyBuiltins} (t : task) (a : action) : task :=
  match a with
  | Wake ev => step ev t
  | Stop => (fst t, (stop (fst (snd t)), snd (snd t)))
  end.

Definition run `{PyBuiltins} (actions : list action) (t : task) : task :=
  fold_left deliver actions t.

(** The task of a monitor from its creation on. *)
Definition connect_and_monitor `{PyBuiltins} (actions : list action) (st : mstate) : task :=
  run actions (NotStarted, st).

(** The task is resumed and its connection attempt fails, [n] times over. *)
Fixpoint failed_attempts (n : nat) : list action :=
  match n with
  | O => []
  | S k => failed_attempts k ++ [Wake Resume; Wake ConnectFailed]
  end.

(** The transport is open exactly while the coroutine waits for a message. *)
Definition transport_open (t : task) : bool :=
  match fst t with Reading => true | _ => false end.

(** ** An instance of the library calls

    Enough of the library to run the program on concrete inputs: decimal
    numerals [sign digits . digits] whose digits make an integer below
    2^53, the floats such numerals denote (of magnitude between 1e-4 and
    1e16, which [repr] prints in positional notation), ASCII text, CSV text
    without quoted fields, and the JSON documents listed in a table. On
    these inputs the functions below agree with the Python library. *)

Definition digit_of (c : ascii) : option Z :=
  let n := nat_of_ascii c in
  if (48 <=? n)%nat && (n <=? 57)%nat then Some (Z.of_nat (n - 48)) else None.

(** Reads a run of digits: the number read so far, how many digits were
    read, and what follows them. *)
Fixpoint read_digits (acc : Z) (count : nat) (s : list ascii) : Z * nat * list ascii :=
  match s with
  | [] => (acc, count, [])
  | c :: rest =>
      match digit_of c with
      | Some d => read_digits (10 * acc + d) (S count) rest
      | None => (acc, count, s)
      end
  end.

(** [float] on a numeral [sign digits . digits]: with fewer than 2^53 as the
    digits read as one integer and a power of ten that is a float, one
    division rounds the exact quotient, which is the value [float] returns. *)
Definition decimal_of_str (s : string) : option float :=
  let b := bytes_of s in
  let '(negative, b) :=
    match b with
    | "-"%char :: r => (true, r)
    | "+"%char :: r => (false, r)
    | _ => (false, b)
    end in
  let '(i, int_digits, b) := read_digits 0 0 b in
  let '(n, frac_digits, b) :=
    match b with
    | "."%char :: r => read_digits i 0 r
    | _ => (i, 0%nat, b)
    end in
  match b with
  | [] =>
      if (int_digits + frac_digits =? 0)%nat then None
      else if (n <? 2 ^ 53) && (frac_digits <=? 22)%nat then
        let x := (float_of_int n / float_of_int (10 ^ Z.of_nat frac_digits))%float in
        Some (if negative then (- x)%float else x)
      else None
  | _ => None
  end.

(** The integer nearest to a non-negative finite float. *)
Definition nearest_int (x : float) : Z :=
  match Prim2SF x with
  | S754_finite _ m e =>
      if 0 <=? e then Z.pos m * 2 ^ e else (Z.pos m + 2 ^ (- e - 1)) / 2 ^ (- e)
  | _ => 0
  end.

(** The least number of decimals [d] for which [n / 10^d] reads back as [a]. *)
Fixpoint find_digits (fuel d : nat) (a : float) : Z * nat :=
  let p := float_of_int (10 ^ Z.of_nat d) in
  let n := nearest_int (a * p)%float in
  match fuel with
  | O => (n, d)
  | S fuel' => if (float_of_int n / p =? a)%float then (n, d) else find_digits fuel' (S d) a
  end.

Fixpoint zeros (k : nat) : string :=
  match k with O => "" | S k' => "0" +:+ zeros k' end.

Definition positional (a : float) : string :=
  let '(n, d) := find_digits 17 0 a in
  let p := 10 ^ Z.of_nat d in
  let frac := str_of_int (n mod p) in
  str_of_int (n / p) +:+ "." +:+
    match d with
    | O => "0"
    | _ => zeros (d - String.length frac) +:+ frac
    end.

Definition repr_of_float (x : float) : string :=
  match classify x with
  | NaN => "nan"
  | PInf => "inf"
  | NInf => "-inf"
  | PZero => "0.0"
  | NZero => "-0.0"
  | PNormal | PSubn => positional x
  | NNormal | NSubn => "-" +:+ positional (abs x)
  end.

Definition is_ascii7 (c : ascii) : bool := (nat_of_ascii c <? 128)%nat.

(** Text of a JSON document whose strings need no escape. *)
Fixpoint json_text (j : json_value) : string :=
  let q := String quote_char "" in
  let fix members (l : list (string * json_value)) : string :=
    match l with
    | [] => ""
    | [(k, v)] => q +:+ k +:+ q +:+ ":" +:+ json_text v
    | (k, v) :: rest => q +:+ k +:+ q +:+ ":" +:+ json_text v +:+ "," +:+ members rest
    end in
  let fix elements (l : list json_value) : string :=
    match l with
    | [] => ""
    | [v] => json_text v
    | v :: rest => json_text v +:+ "," +:+ elements rest
    end in
  match j with
  | JNull => "null"
  | JBool true => "true"
  | JBool false => "false"
  | JInt z => str_of_int z
  | JFloat f => repr_of_float f
  | JStr s => q +:+ s +:+ q
  | JArr items => "[" +:+ elements items +:+ "]"
  | JObj fields => "{" +:+ members fields +:+ "}"
  end.

(** The documents of the examples. *)
Definition trade_buy_1 : json_value :=
  JObj [("e", JStr "aggTrade"); ("q", JStr "1"); ("p", JStr "100"); ("m", JBool false)].

Definition trade_sell_half : json_value :=
  JObj [("e", JStr "aggTrade"); ("q", JStr "0.5"); ("p", JStr "101"); ("m", JBool true)].

Definition trade_without_price : json_value :=
  JObj [("e", JStr "aggTrade"); ("q", JStr "1"); ("m", JBool false)].

Definition trade_bad_quantity : json_value :=
  JObj [("e", JStr "aggTrade"); ("q", JStr "abc"); ("p", JStr "100"); ("m", JBool false)].

Definition framed (stream : string) (inner : json_value) : json_value :=
  JObj [("stream", JStr stream); ("data", inner)].

Definition known_documents : list json_value :=
  [trade_buy_1; trade_sell_half; trade_without_price; trade_bad_quantity;
   framed "btcusdt@aggTrade" trade_buy_1].

Definition parse_known (message_bytes : list ascii) : option json_value :=
  find (λ doc, String.eqb (json_text doc) (str_of message_bytes)) known_documents.

Definition sample_builtins : PyBuiltins :=
  {| float_of_str := decimal_of_str;
     float_repr := repr_of_float;
     utf8_ignore := filter is_ascii7;
     csv_row_count := λ b, Some (length (splitlines b));
     json_parse := parse_known |}.

(** ** Replays and the notions the properties are stated with *)

(** A sequence of calls of [calculate_cvd], each with the clock it reads. *)
Definition replay `{PyBuiltins} (events : list (float * json_value)) (st : mstate) : mstate :=
  fold_left (λ st ev, calculate_cvd (fst ev) (snd ev) st) events st.

(** The quantity of a trade as it is read, with the sign of the aggressor:
    positive when the buyer is not the maker. *)
Definition signed_quantity (t : float * json_value * float) : float :=
  let '(quantity, is_buyer_maker, _) := t in
  if py_truthy is_buyer_maker then (- quantity)%float else quantity.

Definition quantity_of (t : float * json_value * float) : float := fst (fst t).

(** Sums in the order of arrival, starting from zero. *)
Definition signed_sum (trades : list (float * json_value * float)) : float :=
  fold_left (λ acc t, (acc + signed_quantity t)%float) trades 0%float.

Definition unsigned_sum (trades : list (float * json_value * float)) : float :=
  fold_left (λ acc t, (acc + quantity_of t)%float) trades 0%float.

(** A trade event with a required field missing or a quantity or price that
    [float] rejects. *)
Definition malformed `{PyBuiltins} (trade_data : json_value) : Prop :=
  at_pointer ["q"] trade_data = None
  ∨ at_pointer ["m"] trade_data = None
  ∨ at_pointer ["p"] trade_data = None
  ∨ (∃ v, at_pointer ["q"] trade_data = Some v ∧ py_float v = None)
  ∨ (∃ v, at_pointer ["p"] trade_data = Some v ∧ py_float v = None).

(** The event a decoded message hands to [calculate_cvd], if it hands one:
    the message itself when it is tagged as a trade, else what it wraps. *)
Definition carries (data trade_data : json_value) : Prop :=
  (at_pointer ["e"] data = Some (JStr "aggTrade") ∧ trade_data = data)
  ∨ (at_pointer ["e"] data ≠ Some (JStr "aggTrade")
     ∧ at_pointer ["data"] data = Some trade_data).

(** The entry of the monitor's key repeats the monitor's own three values. *)
Definition mirrors (st : mstate) : Prop :=
  ∃ e, snd st !! shared_key (fst st) = Some e
       ∧ e_cvd e = cvd (fst st)
       ∧ e_period_volume e = period_volume (fst st)
       ∧ e_last_price e = last_price (fst st).

(** What may happen to a monitor and the store between two observations:
    a trade, a reset by the saver, or a write of another monitor to the
    entry of its own key. *)
Inductive op :=
| OpTrade (current_time : float) (trade_data : json_value)
| OpReset
| OpForeign (key : string) (e : entry).

Definition apply_op `{PyBuiltins} (st : mstate) (o : op) : mstate :=
  match o with
  | OpTrade current_time trade_data => calculate_cvd current_time trade_data st
  | OpReset => state_of (reset_period_volume st)
  | OpForeign key e => (fst st, <[key := e]> (snd st))
  end.

Definition foreign_to (key : string) (o : op) : Prop :=
  match o with
  | OpForeign key' _ => key' ≠ key
  | _ => True
  end.

(** The delay of the specification for the attempt number [n], with the
    initial delay of 5 and the largest delay of 60. *)
Definition backoff_delay (n : Z) : Z := Z.min (5 * 2 ^ n) 60.

(** The reconnection settings as the constructor leaves them. *)
Definition configured (self : SymbolCvdMonitor) : Prop :=
  max_reconnect_attempts self = 20
  ∧ max_reconnect_delay self = 60
  ∧ initial_reconnect_delay self = 5.

(** What holds of a task wherever it is suspended. *)
Definition loop_inv (t : task) : Prop :=
  let self := fst (snd t) in
  configured self
  ∧ match fst t with
    | NotStarted => reconnect_attempts self = 0
    | Sleeping delay =>
        1 ≤ reconnect_attempts self < 20 ∧ delay = backoff_delay (reconnect_attempts self)
    | Connecting => 0 ≤ reconnect_attempts self < 20
    | Reading => reconnect_attempts self = 0
    | Finished => True
    end.

(** The monitors of [main]: each is filed under its own key, once, and has
    its entry in the store. *)
Definition wf_world (w : world) : Prop :=
  NoDup (map fst (w_monitors w))
  ∧ Forall (λ item, shared_key (snd item) = fst item ∧ is_Some (w_store w !! fst item))
           (w_monitors w).

(** A key that [os.path.join] places under the data directory, in a file
    other than the combined log. The keys of the configuration are such:
    they hold no slash and end with the market type. *)
Definition is_relative (k : string) : bool :=
  match k with
  | String c _ => negb (Ascii.eqb c "/")
  | EmptyString => true
  end.

Definition instrument_key (k : string) : Prop :=
  is_relative k = true ∧ k ≠ "cvd_data_all".

(** What [os.path.join] puts before a relative name. *)
Definition join_prefix (a : string) : string :=
  match rev (bytes_of a) with
  | [] => ""
  | c :: _ => if Ascii.eqb c "/" then a else a +:+ "/"
  end.

(** Printable ASCII other than the quote character: what the lines of the
    logs are made of. A plain character is, moreover, not a comma: what
    their fields are made of. *)
Definition is_text (c : ascii) : bool :=
  let n := nat_of_ascii c in
  (32 <=? n)%nat && (n <? 127)%nat && negb (n =? 34)%nat.

Definition is_plain (c : ascii) : bool := is_text c && negb (Ascii.eqb c comma).

Definition text (s : list ascii) : Prop := Forall (λ c, is_text c = true) s.
Definition plain (s : list ascii) : Prop := Forall (λ c, is_plain c = true) s.

(** Lines, each closed by CR LF. *)
Definition crlf_text (lines : list (list ascii)) : list ascii :=
  concat (map (λ l, l ++ [CR; LF]) lines).

(** The file of a log before a cycle: absent, or made of complete lines of
    text, one at least (the header, in a file the program made). *)
Definition log_before (fs : gmap string file) (path : string)
    (lines : list (list ascii)) : Prop :=
  Forall text lines
  ∧ match fs !! path with
    | None => lines = []
    | Some f => f_bytes f = crlf_text lines ∧ lines ≠ []
    end.

(** The cold start as the specification words it: the file is absent, or
    empty, or older than the limit, or has at most one row, or its last row
    does not parse. *)
Definition cold_start `{PyBuiltins} (fs : gmap string file) (now : Z) (path : string)
    (max_age_days : Z) : Prop :=
  match fs !! path with
  | None => True
  | Some f =>
      f_bytes f = []
      ∨ max_age_days < age_days now (f_mtime f)
      ∨ (∃ n, csv_row_count (f_bytes f) = Some n ∧ (n ≤ 1)%nat)
      ∨ parse_last_line (last_line_of (f_bytes f)) = None
  end.

(** The values a cycle writes for an entry that is not skipped. *)
Definition values_of (e : entry) : list cell :=
  [CFloat (match e_last_price e with None => 0%float | Some p => p end);
   CFloat (e_cvd e); CFloat (e_period_volume e); CInt (e_trade_count e)].

(** The line of the row a cycle writes for an entry, when its fields need
    no quotes. *)
Definition row_line `{PyBuiltins} (timestamp : string) (e : entry) : list ascii :=
  bytes_of timestamp ++ comma ::
  bytes_of (float_repr (match e_last_price e with None => 0%float | Some p => p end))
  ++ comma :: bytes_of (float_repr (e_cvd e)) ++ comma ::
  bytes_of (float_repr (e_period_volume e)) ++ comma ::
  bytes_of (str_of_int (e_trade_count e)).

(** ** The instrument of the examples *)

Definition btc_key : string := "BTCUSDT_spot".

(** The monitor of BTCUSDT on the spot market as the constructor leaves it
    when there is no file to load from, and the store with its entry. *)
Definition btc_monitor : SymbolCvdMonitor :=
  {| symbol_raw := "BTCUSDT"; type := "spot"; stream_name := "btcusdt@aggTrade";
     shared_key := btc_key;
     websocket_url := "wss://stream.binance.com:9443/ws/btcusdt@aggTrade";
     cvd := 0%float; period_volume := 0%float; last_price := None;
     running := true; ws := None;
     reconnect_attempts := 0; max_reconnect_attempts := 20;
     max_reconnect_delay := 60; initial_reconnect_delay := 5;
     trade_count := 0; last_log_time := 0%float |}.

Definition btc0 : mstate :=
  (btc_monitor,
   {[ btc_key := {| e_cvd := 0%float; e_last_price := None;
                    e_period_volume := 0%float; e_trade_count := 0 |} ]}).

(** A buy of 1 at 100, then a sell of 0.5 at 101. *)
Definition two_trades : list (float * json_value) :=
  [(1%float, trade_buy_1); (2%float, trade_sell_half)].

Definition two_trades_read : list (float * json_value * float) :=
  [(1%float, JBool false, 100%float); (0.5%float, JBool true, 101%float)].

Definition btc2 : mstate := @replay sample_builtins two_trades btc0.

(** The entry of the instrument after the two trades. *)
Definition btc_entry2 : entry :=
  {| e_cvd := 0.5%float; e_last_price := Some 101%float;
     e_period_volume := 1.5%float; e_trade_count := 1 |}.

(** The world of [main] with this one instrument, after the two trades and
    before the first cycle. *)
Definition btc_world : world :=
  {| w_fs := ∅; w_store := snd btc2; w_monitors := [(btc_key, fst btc2)] |}.

Definition io_ok : io := {| makedirs_fails := false; open_fails := λ _, false |}.

(** The combined log cannot be opened. *)
Definition io_combined_fails : io :=
  {| makedirs_fails := false; open_fails := String.eqb "/data/cvd_data_all.csv" |}.

(** The log of the instrument cannot be opened. *)
Definition io_separate_fails : io :=
  {| makedirs_fails := false; open_fails := String.eqb "/data/BTCUSDT_spot.csv" |}.

Definition noon : string := "2024-01-01 12:00:00".

(** A log whose last row holds a [cvd] of zero next to a price. *)
Definition zero_cvd_fs : gmap string file :=
  {[ "/data/BTCUSDT_spot.csv" :=
       {| f_mtime := 0;
          f_bytes := crlf_text [bytes_of "timestamp,price,cvd,period_volume,trade_count";
                                bytes_of "2024-01-01 12:00:00,100.0,0.0,1.0,5"] |} ]}.

(** A log whose last row holds a [cvd] of 2.5. *)
Definition some_cvd_fs : gmap string file :=
  {[ "/data/BTCUSDT_spot.csv" :=
       {| f_mtime := 0;
          f_bytes := crlf_text [bytes_of "timestamp,price,cvd,period_volume,trade_count";
                                bytes_of "2024-01-01 12:00:00,100.0,2.5,1.0,5"] |} ]}.

(** The task of the instrument while it reads from its connection. *)
Definition btc_reading : task :=
  (Reading, (set_conn true (Some 1%nat) 0 btc_monitor, snd btc0)).

(** ** parse_new_symbol_format

    The value [yaml.safe_load] returns has the shapes of [json_value]: a
    dictionary is a [JObj], a list a [JArr]. [str.upper] follows the Unicode
    tables of the library and is an argument. *)

(** [c in s] *)
Definition contains (c : ascii) (s : string) : bool := existsb (Ascii.eqb c) (bytes_of s).

(** [s.replace(c, '')] *)
Definition remove_char (c : ascii) (s : string) : string :=
  str_of (List.filter (λ x, negb (Ascii.eqb x c)) (bytes_of s)).

(** [s.split(c)[0]] *)
Fixpoint before_char (c : ascii) (s : string) : string :=
  match s with
  | EmptyString => EmptyString
  | String x rest => if Ascii.eqb x c then EmptyString else String x (before_char c rest)
  end.

(** [d.get(k, [])] *)
Definition get_or_empty (k : string) (fields : list (string * json_value)) : json_value :=
  match obj_get k fields with
  | Some v => v
  | None => JArr []
  end.

(** One of the three loops: the strings of the list that hold a slash, each
    normalized and paired with the market type; anything else is skipped
    with a warning, and a value that is not a list gives nothing. *)
Definition parse_symbols (normalize : string → string) (ty : string)
    (symbols : json_value) : list (string * string) :=
  match symbols with
  | JArr items =>
      omap (λ item,
              match item with
              | JStr symbol_str =>
                  if contains "/" symbol_str then Some (normalize symbol_str, ty) else None
              | _ => None
              end) items
  | _ => []
  end.

Definition parse_new_symbol_format (upper : string → string) (symbols_data : json_value)
    : list (string * string) :=
  match symbols_data with
  | JObj fields =>
      parse_symbols (λ s, upper (remove_char "/" s)) "spot" (get_or_empty "spot" fields)
      ++ parse_symbols (λ s, upper (remove_char "/" (before_char ":" s))) "usdt-m"
           (get_or_empty "futures" fields)
      ++ parse_symbols (λ s, upper (remove_char "/" (before_char ":" s))) "coin-m"
           (get_or_empty "coin-futures" fields)
  | _ => []
  end.

(** The market types [_get_websocket_url] knows. *)
Definition supported (ty : string) : bool :=
  String.eqb ty "spot" || String.eqb ty "usdt-m" || String.eqb ty "coin-m".

Definition no_slash (s : string) : Prop := contains "/" s = false.

(** [str.upper()] on ASCII letters. *)
Definition upper_char (c : ascii) : ascii :=
  let n := nat_of_ascii c in
  if (97 <=? n)%nat && (n <=? 122)%nat then ascii_of_nat (n - 32) else c.

Definition upper_ascii (s : string) : string := str_of (map upper_char (bytes_of s)).

(** ** The end of main

    The [finally] clause of [main] calls [stop] on every monitor of
    [monitors], cancels every task and waits for them: the task of such a
    monitor is resumed with the cancellation where it is suspended, its flag
    already cleared. *)
Definition shut_down `{PyBuiltins} (t : task) : task := step Cancelled (deliver t Stop).

(** ** More notions for the properties *)

(** The events of a replay that [calculate_cvd] reads without an exception,
    as they are read. *)
Definition accepted `{PyBuiltins} (events : list (float * json_value))
    : list (float * json_value * float) :=
  omap (λ ev, read_trade (snd ev)) events.

(** An action that hands a message to [process_message]. *)
Definition is_message (a : action) : bool :=
  match a with
  | Wake (MsgText _ _) | Wake (MsgBinary _ _) => true
  | _ => false
  end.

(** What a monitor leaves alone when it goes from one state to another: its
    key, the entries of the other keys, and which keys have an entry. *)
Definition frames (st st' : mstate) : Prop :=
  shared_key (fst st') = shared_key (fst st)
  ∧ (∀ k, k ≠ shared_key (fst st) → snd st' !! k = snd st !! k)
  ∧ (∀ k, is_Some (snd st' !! k) ↔ is_Some (snd st !! k)).

(** What a task holds of the trades: the four values of the monitor and the
    store. *)
Definition trade_data_of (t : task)
    : float * float * option float * Z * gmap string entry :=
  let self := fst (snd t) in
  (cvd self, period_volume self, last_price self, trade_count self, snd (snd t)).

(** What holds of the connection of a task wherever it is suspended, besides
    [loop_inv]: the counter is within its bounds and the monitor holds a
    connection exactly while the task reads from it. *)
Definition conn_inv (t : task) : Prop :=
  let self := fst (snd t) in
  loop_inv t
  ∧ 0 ≤ reconnect_attempts self ≤ 20
  ∧ (is_Some (ws self) ↔ fst t = Reading).

(** What a reset of the period volume has no business with, in a monitor
    and in an entry: the delta, the last price and the count of trades. *)
Definition totals_of (self : SymbolCvdMonitor) : float * option float * Z :=
  (cvd self, last_price self, trade_count self).

Definition entry_totals (e : entry) : float * option float * Z :=
  (e_cvd e, e_last_price e, e_trade_count e).

(** The files of [fs'] are those of [fs] with bytes added at their end, and
    new files. *)
Definition extends (fs fs' : gmap string file) : Prop :=
  ∀ path, (is_Some (fs !! path) → is_Some (fs' !! path))
          ∧ ∃ more, bytes_at fs' path = bytes_at fs path ++ more.

(** A monitor as the constructor leaves it. *)
Definition fresh_monitor (self : SymbolCvdMonitor) : Prop :=
  period_volume self = 0%float
  ∧ last_price self = None
  ∧ trade_count self = 0
  ∧ running self = true
  ∧ ws self = None
  ∧ reconnect_attempts self = 0
  ∧ configured self.

(** ** More examples *)

(** The two trades with an event that has no price between them. *)
Definition three_events : list (float * json_value) :=
  [(1%float, trade_buy_1); (2%float, trade_without_price); (3%float, trade_sell_half)].

(** A configuration with one spot pair, one contract and two entries that
    are skipped. *)
Definition sample_symbols : json_value :=
  JObj [("spot", JArr [JStr "btc/usdt"; JStr "ETHUSDT"; JInt 7]);
        ("futures", JArr [JStr "eth/usdt:usdt"])].

(** The world of [main] for this configuration when there is no file to
    load from. *)
Definition sample_world : world :=
  @create_monitors sample_builtins ∅ 0 0%float 6 "/data"
    (parse_new_symbol_format upper_ascii sample_symbols).

(** The monitor of ETHUSDT on the spot market and the store with its entry,
    as the constructor leaves them when there is no file to load from. *)
Definition eth0 : mstate :=
  ({| symbol_raw := "ETHUSDT"; type := "spot"; stream_name := "ethusdt@aggTrade";
      shared_key := "ETHUSDT_spot";
      websocket_url := "wss://stream.binance.com:9443/ws/ethusdt@aggTrade";
      cvd := 0%float; period_volume := 0%float; last_price := None;
      running := true; ws := None;
      reconnect_attempts := 0; max_reconnect_attempts := 20;
      max_reconnect_delay := 60; initial_reconnect_delay := 5;
      trade_count := 0; last_log_time := 0%float |},
   {[ "ETHUSDT_spot" := {| e_cvd := 0%float; e_last_price := None;
                           e_period_volume := 0%float; e_trade_count := 0 |} ]}).

(** A log of 5000 bytes and another of 6000 bytes with the same last line. *)
Definition long_log (n : nat) : list ascii :=
  repeat "x"%char n ++ [LF] ++ bytes_of "2024-01-01 12:00:00,100.0,2.5,1.0,5" ++ [CR; LF].

Definition long_log_fs : gmap string file :=
  {[ "/data/BTCUSDT_spot.csv" := {| f_mtime := 0; f_bytes := long_log 5000 |} ]}.

(** The world of [main] with the instrument of the examples before its
    first trade. *)
Definition idle_world : world :=
  {| w_fs := ∅; w_store := snd btc0; w_monitors := [(btc_key, fst btc0)] |}.

Definition one_past_noon : string := "2024-01-01 12:01:00".

(** * Properties *)

Section Aggregator.
Context `{B : PyBuiltins}.

Lemma read_trade_malformed (trade_data : json_value) :
  malformed trade_data → read_trade trade_data = None.
Proof.
  unfold malformed, read_trade.
  intros [Hq | [Hm | [Hp | [(v & Hq & Hv) | (v & Hp & Hv)]]]].
  - by rewrite Hq.
  - destruct (at_pointer ["q"] trade_data ≫= py_float); [|done]. by rewrite Hm.
  - destruct (at_pointer ["q"] trade_data ≫= py_float); [|done].
    destruct (at_pointer ["m"] trade_data); [|done]. by rewrite Hp.
  - rewrite Hq. simpl. by rewrite Hv.
  - destruct (at_pointer ["q"] trade_data ≫= py_float); [|done].
    destruct (at_pointer ["m"] trade_data); [|done]. rewrite Hp. simpl. by rewrite Hv.
Qed.

Lemma calculate_cvd_unreadable (current_time : float) (trade_data : json_value) (st : mstate) :
  read_trade trade_data = None → calculate_cvd current_time trade_data st = st.
Proof. intros H. unfold calculate_cvd. destruct st. by rewrite H. Qed.

(** What one accepted trade does to the monitor's own attributes. *)
Lemma calculate_cvd_accepted (current_time : float) (trade_data : json_value) (st : mstate)
    (t : float * json_value * float) :
  read_trade trade_data = Some t →
  let st' := calculate_cvd current_time trade_data st in
  cvd (fst st') = (cvd (fst st) + signed_quantity t)%float
  ∧ period_volume (fst st') = (period_volume (fst st) + quantity_of t)%float
  ∧ last_price (fst st') = Some (snd t)
  ∧ shared_key (fst st') = shared_key (fst st).
Proof.
  intros H. destruct st as [self data_store], t as [[quantity is_buyer_maker] price].
  unfold calculate_cvd. rewrite H. cbn [fst snd shared_key set_trade].
  assert (Hd : (if negb (py_truthy is_buyer_maker) then quantity else (- quantity)%float)
               = signed_quantity (quantity, is_buyer_maker, price)).
  { unfold signed_quantity. by destruct (py_truthy is_buyer_maker). }
  rewrite Hd.
  destruct (data_store !! shared_key self); [|done].
  cbn [set_stats trade_count last_log_time cvd period_volume last_price].
  by destruct (60 <=? _)%float.
Qed.

Lemma replay_sums_from (events : list (float * json_value))
    (trades : list (float * json_value * float)) (st : mstate) :
  Forall2 (λ ev t, read_trade (snd ev) = Some t) events trades →
  cvd (fst (replay events st))
    = fold_left (λ acc t, (acc + signed_quantity t)%float) trades (cvd (fst st))
  ∧ period_volume (fst (replay events st))
    = fold_left (λ acc t, (acc + quantity_of t)%float) trades (period_volume (fst st)).
Proof.
  intros H. revert st. induction H as [|ev t events trades Hev _ IH]; intros st; [done|].
  cbn [replay fold_left]. fold (replay events (calculate_cvd (fst ev) (snd ev) st)).
  destruct (calculate_cvd_accepted (fst ev) (snd ev) st t Hev) as (Hc & Hv & _).
  destruct (IH (calculate_cvd (fst ev) (snd ev) st)) as [IHc IHv].
  rewrite IHc, IHv, Hc, Hv. done.
Qed.

Lemma init_fresh fs now current_time max_age data_dir config data_store (st : mstate) :
  init fs now current_time max_age data_dir config data_store = Some st →
  period_volume (fst st) = 0%float
  ∧ last_price (fst st) = None
  ∧ trade_count (fst st) = 0
  ∧ shared_key (fst st) = key_of (fst config) (snd config)
  ∧ snd st = <[shared_key (fst st) :=
                 {| e_cvd := cvd (fst st); e_last_price := None;
                    e_period_volume := 0%float; e_trade_count := 0 |}]> data_store.
Proof.
  unfold init. destruct config as [symbol ty].
  destruct (get_websocket_url _ _); [|done]. intros [= <-]. done.
Qed.

(** C1. Trades replayed into one monitor whose delta starts at zero leave
    its [cvd] at the sum of the quantities signed by the aggressor side
    (positive when the buyer is not the maker) and its [period_volume] at the
    sum of the quantities, both summed in the order of arrival. *)
Theorem replay_sums fs now current_time max_age data_dir config data_store (st0 : mstate)
    (events : list (float * json_value)) (trades : list (float * json_value * float)) :
  init fs now current_time max_age data_dir config data_store = Some st0 →
  cvd (fst st0) = 0%float →
  Forall2 (λ ev t, read_trade (snd ev) = Some t) events trades →
  cvd (fst (replay events st0)) = signed_sum trades
  ∧ period_volume (fst (replay events st0)) = unsigned_sum trades.
Proof.
  intros Hinit Hseed Hread.
  destruct (init_fresh _ _ _ _ _ _ _ _ Hinit) as (Hv & _).
  destruct (replay_sums_from events trades st0 Hread) as [Hc Hp].
  rewrite Hc, Hp, Hseed, Hv. done.
Qed.

(** What one accepted trade does to the entry and to the counter, when the
    entry exists: the entry receives the counter as it was before the
    trade. *)
Lemma calculate_cvd_counts (current_time : float) (trade_data : json_value) (st : mstate)
    (t : float * json_value * float) :
  read_trade trade_data = Some t →
  is_Some (snd st !! shared_key (fst st)) →
  let st' := calculate_cvd current_time trade_data st in
  trade_count (fst st') = trade_count (fst st) + 1
  ∧ snd st' !! shared_key (fst st)
    = Some {| e_cvd := cvd (fst st'); e_last_price := last_price (fst st');
              e_period_volume := period_volume (fst st');
              e_trade_count := trade_count (fst st) |}
  ∧ ∀ k, k ≠ shared_key (fst st) → snd st' !! k = snd st !! k.
Proof.
  intros H [e He]. destruct st as [self data_store], t as [[quantity is_buyer_maker] price].
  cbn [fst snd] in *. unfold calculate_cvd. rewrite H.
  cbn [shared_key set_trade]. rewrite He.
  cbn [set_stats trade_count last_log_time cvd period_volume last_price].
  destruct (60 <=? _)%float; cbn [fst snd set_stats trade_count cvd period_volume last_price];
    (split; [done|]); (split; [by rewrite lookup_insert_eq|]);
    intros k Hk; by rewrite lookup_insert_ne.
Qed.

Lemma replay_counts (events : list (float * json_value))
    (trades : list (float * json_value * float)) (st : mstate) :
  Forall2 (λ ev t, read_trade (snd ev) = Some t) events trades →
  is_Some (snd st !! shared_key (fst st)) →
  let st' := replay events st in
  shared_key (fst st') = shared_key (fst st)
  ∧ is_Some (snd st' !! shared_key (fst st))
  ∧ trade_count (fst st') = trade_count (fst st) + Z.of_nat (length events)
  ∧ (events ≠ [] →
     e_trade_count <$> snd st' !! shared_key (fst st)
       = Some (trade_count (fst st) + Z.of_nat (length events) - 1)).
Proof.
  intros H. revert st. induction H as [|ev t events trades Hev Hrest IH]; intros st Hst.
  { cbn. repeat split; [done | lia | done]. }
  cbn [replay fold_left]. fold (replay events (calculate_cvd (fst ev) (snd ev) st)).
  destruct (calculate_cvd_accepted (fst ev) (snd ev) st t Hev) as (_ & _ & _ & Hkey).
  destruct (calculate_cvd_counts (fst ev) (snd ev) st t Hev Hst) as (Hn & Hentry & _).
  set (st1 := calculate_cvd (fst ev) (snd ev) st) in *.
  assert (Hst1 : is_Some (snd st1 !! shared_key (fst st1))) by (rewrite Hkey, Hentry; eauto).
  destruct (IH st1 Hst1) as (IHkey & IHsome & IHn & IHe). rewrite Hkey in IHkey, IHsome, IHe.
  repeat split.
  - congruence.
  - done.
  - rewrite IHn, Hn. cbn [length]. lia.
  - intros _. destruct events as [|ev' events'].
    + cbn. rewrite Hentry. cbn. f_equal. lia.
    + rewrite IHe by done. f_equal. rewrite Hn. cbn [length]. lia.
Qed.

(** After [n] accepted trades, [n] at least one, the monitor has counted [n]
    and the entry of the store says [n - 1]. *)
Lemma stored_trade_count_lags fs now current_time max_age data_dir config data_store
    (st0 : mstate) (events : list (float * json_value))
    (trades : list (float * json_value * float)) :
  init fs now current_time max_age data_dir config data_store = Some st0 →
  Forall2 (λ ev t, read_trade (snd ev) = Some t) events trades →
  events ≠ [] →
  trade_count (fst (replay events st0)) = Z.of_nat (length events)
  ∧ e_trade_count <$> snd (replay events st0) !! shared_key (fst st0)
    = Some (Z.of_nat (length events) - 1).
Proof.
  intros Hinit Hread Hne.
  destruct (init_fresh _ _ _ _ _ _ _ _ Hinit) as (_ & _ & Hn & _ & Hstore).
  assert (Hst0 : is_Some (snd st0 !! shared_key (fst st0))).
  { rewrite Hstore, lookup_insert_eq. eauto. }
  destruct (replay_counts events trades st0 Hread Hst0) as (_ & _ & Hc & He).
  rewrite Hc, (He Hne), Hn. split; [lia | f_equal; lia].
Qed.

(** C7. A trade event with a required field missing or with a quantity or a
    price that is not a number is dropped: the monitor and the store stay
    as they were, and a connection that delivers it, bare or wrapped, stays
    in the reading state with the same monitor and store. *)
Theorem malformed_trade_dropped (current_time : float) (trade_data : json_value)
    (st : mstate) :
  malformed trade_data →
  calculate_cvd current_time trade_data st = st
  ∧ ∀ (message_bytes : list ascii) (data : json_value),
      json_parse message_bytes = Some data →
      carries data trade_data →
      step (MsgBinary current_time message_bytes) (Reading, st) = (Reading, st)
      ∧ ∀ text, bytes_of text = message_bytes →
          step (MsgText current_time text) (Reading, st) = (Reading, st).
Proof.
  intros Hbad.
  assert (Hdrop : calculate_cvd current_time trade_data st = st).
  { apply calculate_cvd_unreadable, read_trade_malformed, Hbad. }
  split; [done|]. intros message_bytes data Hparse Hcarries.
  assert (Hmsg : process_message current_time message_bytes st = st).
  { unfold process_message. rewrite Hparse.
    destruct Hcarries as [[He ->] | [He Hinner]].
    - rewrite He. cbn. done.
    - assert (Hraw : match at_pointer ["e"] data with
                     | Some event_type => py_eq_str event_type "aggTrade"
                     | None => false
                     end = false).
      { destruct (at_pointer ["e"] data) as [v|]; [|done].
        destruct v; try done. cbn. destruct (String.eqb_spec s "aggTrade"); [|done].
        subst. done. }
      rewrite Hraw. rewrite Hinner.
      destruct (at_pointer ["stream"] data); [|done].
      destruct (at_pointer ["data"; "e"] data); [|done].
      by destruct (_ && _). }
  split.
  - cbn. by rewrite Hmsg.
  - intros text <-. cbn. by rewrite Hmsg.
Qed.

(** A message that does not decode is dropped in the same way. *)
Lemma undecodable_message_dropped (current_time : float) (message_bytes : list ascii)
    (st : mstate) :
  json_parse message_bytes = None →
  step (MsgBinary current_time message_bytes) (Reading, st) = (Reading, st).
Proof. intros H. cbn. unfold process_message. by rewrite H. Qed.

(** The mirror relation is kept by each operation. *)
Lemma calculate_cvd_mirrors (current_time : float) (trade_data : json_value) (st : mstate) :
  mirrors st →
  mirrors (calculate_cvd current_time trade_data st)
  ∧ shared_key (fst (calculate_cvd current_time trade_data st)) = shared_key (fst st).
Proof.
  intros (e & He & Hm).
  destruct (read_trade trade_data) as [t|] eqn:Hread.
  - destruct (calculate_cvd_accepted current_time trade_data st t Hread) as (_ & _ & _ & Hkey).
    destruct (calculate_cvd_counts current_time trade_data st t Hread) as (_ & Hentry & _);
      [eauto|].
    split; [|done]. eexists. rewrite Hkey. split; [exact Hentry|]. done.
  - rewrite calculate_cvd_unreadable by done. split; [|done]. by exists e.
Qed.

Lemma reset_period_volume_mirrors (st : mstate) :
  mirrors st →
  raised (reset_period_volume st) = false
  ∧ mirrors (state_of (reset_period_volume st))
  ∧ shared_key (fst (state_of (reset_period_volume st))) = shared_key (fst st).
Proof.
  intros (e & He & Hc & Hv & Hp). destruct st as [self data_store]. cbn [fst snd] in *.
  unfold reset_period_volume. cbn [shared_key set_period_volume set_trade]. rewrite He.
  cbn [raised state_of fst snd shared_key]. split; [done|]. split; [|done].
  eexists. cbn [fst snd shared_key]. rewrite lookup_insert_eq. done.
Qed.

Lemma apply_op_mirrors (st : mstate) (o : op) :
  mirrors st → foreign_to (shared_key (fst st)) o →
  mirrors (apply_op st o) ∧ shared_key (fst (apply_op st o)) = shared_key (fst st).
Proof.
  intros Hm Hf. destruct o as [current_time trade_data| |key e]; cbn [apply_op].
  - by apply calculate_cvd_mirrors.
  - by destruct (reset_period_volume_mirrors st Hm) as (_ & ? & ?).
  - cbn in Hf. destruct Hm as (e' & He' & Hrest). split; [|done].
    exists e'. cbn [fst snd]. by rewrite lookup_insert_ne.
Qed.

(** C9. From the construction of a monitor on, whatever the trade events
    it receives, the resets of its period volume and the writes of other
    monitors to the entries of their own keys, the entry of its key holds
    the monitor's [cvd], [period_volume] and [last_price]. *)
Theorem store_mirrors_monitor fs now current_time max_age data_dir config data_store
    (st0 : mstate) (ops : list op) :
  init fs now current_time max_age data_dir config data_store = Some st0 →
  Forall (foreign_to (shared_key (fst st0))) ops →
  mirrors (fold_left apply_op ops st0).
Proof.
  intros Hinit Hops.
  assert (H0 : mirrors st0).
  { destruct (init_fresh _ _ _ _ _ _ _ _ Hinit) as (Hv & Hp & _ & _ & Hstore).
    eexists. rewrite Hstore, lookup_insert_eq. split; [done|]. cbn. by rewrite Hv, Hp. }
  assert (Hgen : ∀ st, mirrors st → shared_key (fst st) = shared_key (fst st0) →
                       mirrors (fold_left apply_op ops st)).
  { induction Hops as [|o ops Ho _ IH]; intros st Hm Hk; [done|].
    cbn [fold_left]. rewrite <- Hk in Ho.
    destruct (apply_op_mirrors st o Hm Ho) as [Hm' Hk']. apply IH; [done | congruence]. }
  by apply Hgen.
Qed.

End Aggregator.

Section Connection.
Context `{B : PyBuiltins}.

(** Messages leave the attributes of the connection alone. *)
Lemma calculate_cvd_conn (current_time : float) (trade_data : json_value) (st : mstate) :
  let self' := fst (calculate_cvd current_time trade_data st) in
  running self' = running (fst st)
  ∧ ws self' = ws (fst st)
  ∧ reconnect_attempts self' = reconnect_attempts (fst st)
  ∧ max_reconnect_attempts self' = max_reconnect_attempts (fst st)
  ∧ max_reconnect_delay self' = max_reconnect_delay (fst st)
  ∧ initial_reconnect_delay self' = initial_reconnect_delay (fst st).
Proof.
  destruct st as [self data_store]. unfold calculate_cvd.
  destruct (read_trade trade_data) as [[[quantity is_buyer_maker] price]|]; [|done].
  cbn [shared_key set_trade]. destruct (data_store !! shared_key self); [|done].
  cbn [set_stats trade_count last_log_time]. by destruct (60 <=? _)%float.
Qed.

Lemma process_message_conn (current_time : float) (message_bytes : list ascii) (st : mstate) :
  let self' := fst (process_message current_time message_bytes st) in
  running self' = running (fst st)
  ∧ ws self' = ws (fst st)
  ∧ reconnect_attempts self' = reconnect_attempts (fst st)
  ∧ max_reconnect_attempts self' = max_reconnect_attempts (fst st)
  ∧ max_reconnect_delay self' = max_reconnect_delay (fst st)
  ∧ initial_reconnect_delay self' = initial_reconnect_delay (fst st).
Proof.
  unfold process_message.
  destruct (json_parse message_bytes) as [data|]; [|done].
  destruct (match at_pointer ["e"] data with Some _ => _ | None => _ end).
  { apply calculate_cvd_conn. }
  destruct (at_pointer ["stream"] data); [|done].
  destruct (at_pointer ["data"; "e"] data); [|done].
  destruct (_ && _); [|done].
  destruct (at_pointer ["data"] data); [|done].
  apply calculate_cvd_conn.
Qed.

Lemma init_configured fs now current_time max_age data_dir config data_store (st : mstate) :
  init fs now current_time max_age data_dir config data_store = Some st →
  loop_inv (NotStarted, st).
Proof.
  unfold init. destruct config as [symbol ty].
  destruct (get_websocket_url _ _); [|done]. intros [= <-]. by repeat split.
Qed.

(** The end of a connection, failed or closed, from a state with fewer than
    twenty attempts. *)
Lemma reconnect_inv (st : mstate) :
  configured (fst st) → 0 ≤ reconnect_attempts (fst st) < 20 →
  loop_inv (reconnect st).
Proof.
  intros (Hmax & Hdelay & Hinit) Hn. destruct st as [self data_store]. cbn [fst] in *.
  unfold reconnect, loop_inv, loop_head, after_sleep, finally.
  cbn [fst snd set_conn running reconnect_attempts max_reconnect_attempts
       max_reconnect_delay initial_reconnect_delay].
  rewrite Hmax, Hdelay, Hinit. split; [done|].
  destruct (running self); cbn [negb]; [|done].
  destruct (Z.leb_spec 20 (reconnect_attempts self + 1)); [done|].
  destruct (Z.ltb_spec 0 (reconnect_attempts self + 1)); cbn [fst snd]; [|lia].
  unfold backoff_delay. split; [lia | done].
Qed.

Lemma step_inv (ev : wake) (t : task) : loop_inv t → loop_inv (step ev t).
Proof.
  destruct t as [at_ [self data_store]]. intros [Hc Hat]. cbn [fst snd] in *.
  pose proof Hc as (Hmax & Hdelay & Hinit).
  destruct at_ as [|delay| | |]; destruct ev; cbn [step fst snd]; try (by split);
    try (apply reconnect_inv; cbn [fst]; [done | lia]).
  - (* the first run *)
    unfold loop_inv, loop_head, after_sleep. cbn [fst snd]. split; [done|].
    rewrite Hmax, Hat. cbn. destruct (running self); cbn; [lia | done].
  - (* the sleep is over *)
    unfold loop_inv, after_sleep. cbn [fst snd]. split; [done|].
    destruct (running self); cbn; [lia | done].
  - (* a message, as text *)
    destruct (process_message_conn current_time (bytes_of data) (self, data_store))
      as (_ & _ & Hn & H1 & H2 & H3).
    destruct (process_message _ _ _) as [self' data_store']. cbn [fst snd] in *.
    unfold loop_inv, configured. cbn [fst snd]. rewrite Hn, H1, H2, H3. by split.
  - (* a message, as bytes *)
    destruct (process_message_conn current_time data (self, data_store))
      as (_ & _ & Hn & H1 & H2 & H3).
    destruct (process_message _ _ _) as [self' data_store']. cbn [fst snd] in *.
    unfold loop_inv, configured. cbn [fst snd]. rewrite Hn, H1, H2, H3. by split.
Qed.

Lemma deliver_inv (t : task) (a : action) : loop_inv t → loop_inv (deliver t a).
Proof.
  destruct a as [ev|]; [apply step_inv|].
  destruct t as [at_ [self data_store]]. intros [Hc Hat]. by split.
Qed.

Lemma run_inv (actions : list action) (t : task) : loop_inv t → loop_inv (run actions t).
Proof.
  revert t. induction actions as [|a actions IH]; intros t Ht; [done|].
  apply IH, deliver_inv, Ht.
Qed.

Lemma step_finished (ev : wake) (st : mstate) : step ev (Finished, st) = (Finished, st).
Proof. by destruct ev. Qed.

Lemma run_finished (actions : list action) (st : mstate) :
  fst (run actions (Finished, st)) = Finished.
Proof.
  revert st. induction actions as [|a actions IH]; intros st; [done|].
  cbn [run fold_left]. destruct a as [ev|]; cbn [deliver].
  - rewrite step_finished. apply IH.
  - apply IH.
Qed.

Lemma run_app (actions more : list action) (t : task) :
  run (actions ++ more) t = run more (run actions t).
Proof. unfold run. apply fold_left_app. Qed.

(** After [n] failed attempts in a row, [n] at most 20, the counter is at
    [n]; the task then sleeps for the delay of [n], or has finished if [n]
    is 20. *)
Lemma failed_attempts_reach fs now current_time max_age data_dir config data_store
    (st0 : mstate) (n : nat) :
  init fs now current_time max_age data_dir config data_store = Some st0 →
  (n ≤ 20)%nat →
  let t := connect_and_monitor (failed_attempts n) st0 in
  running (fst (snd t)) = true
  ∧ reconnect_attempts (fst (snd t)) = Z.of_nat n
  ∧ configured (fst (snd t))
  ∧ fst t = match n with
            | O => NotStarted
            | _ => if (n <? 20)%nat then Sleeping (backoff_delay (Z.of_nat n)) else Finished
            end.
Proof.
  intros Hinit. induction n as [|n IH]; intros Hn.
  { unfold init in Hinit. destruct config as [symbol ty].
    destruct (get_websocket_url _ _); [|done]. injection Hinit as <-. by repeat split. }
  cbn zeta in *. unfold connect_and_monitor in *. cbn [failed_attempts]. rewrite run_app.
  destruct (run (failed_attempts n) (NotStarted, st0)) as [at_ [self store]].
  cbn [fst snd] in IH. destruct IH as (Hr & Ha & (Hmax & Hdelay & Hini) & Hat); [lia|].
  unfold run. cbn [fold_left deliver]. set (resumed := step Resume _).
  assert (Hresume : resumed = (Connecting, (self, store))).
  { subst resumed at_. destruct n as [|n].
    - cbn [step fst]. unfold loop_head, after_sleep. rewrite Hr, Hmax, Ha. done.
    - destruct (Nat.ltb_spec (S n) 20); [|lia].
      cbn [step fst]. unfold after_sleep. by rewrite Hr. }
  clearbody resumed. subst resumed. cbn [step].
  unfold reconnect, loop_head, finally. cbn [set_conn running reconnect_attempts max_reconnect_attempts
    max_reconnect_delay initial_reconnect_delay fst snd]. rewrite Hr, Hmax, Hdelay, Hini, Ha.
  cbn [negb]. repeat split; [lia | done | done | done |].
  destruct (Nat.ltb_spec (S n) 20) as [Hlt|Hge].
  - destruct (Z.leb_spec 20 (Z.of_nat n + 1)); [lia|].
    destruct (Z.ltb_spec 0 (Z.of_nat n + 1)); [|lia].
    unfold backoff_delay. do 3 f_equal. lia.
  - destruct (Z.leb_spec 20 (Z.of_nat n + 1)); [done | lia].
Qed.

(** C4. In every state a task reaches from a constructed monitor: a sleep
    before a reconnection lasts [min (5 * 2^n) 60] for the attempt counter
    [n], which is then at least 1, and the test at the head of the loop
    starts that sleep for every counter from 1 to 19; a connection that
    opens sets the counter to 0, where it stays while messages are read;
    and with the counter at 20 the task has finished and stays finished
    whatever happens next. These states are reached: [n] failed attempts in
    a row, [n] from 1 to 19, end in the sleep of [n], and 20 of them end
    the task. *)
Theorem backoff_schedule fs now current_time max_age data_dir config data_store
    (st0 : mstate) (actions : list action) (at_ : suspended) (self : SymbolCvdMonitor)
    (store : gmap string entry) :
  init fs now current_time max_age data_dir config data_store = Some st0 →
  connect_and_monitor actions st0 = (at_, (self, store)) →
  (∀ delay, at_ = Sleeping delay →
     1 ≤ reconnect_attempts self
     ∧ delay = Z.min (5 * 2 ^ reconnect_attempts self) 60)
  ∧ (∀ n, running self = true → reconnect_attempts self = n → 1 ≤ n < 20 →
       loop_head self = Sleeping (Z.min (5 * 2 ^ n) 60))
  ∧ (∀ w, at_ = Connecting →
       fst (step (ConnectOk w) (at_, (self, store))) = Reading
       ∧ reconnect_attempts (fst (snd (step (ConnectOk w) (at_, (self, store))))) = 0)
  ∧ (at_ = Reading → reconnect_attempts self = 0)
  ∧ (20 ≤ reconnect_attempts self →
       loop_head self = Finished
       ∧ at_ = Finished
       ∧ ∀ more, fst (run more (at_, (self, store))) = Finished)
  ∧ (∀ n, (1 ≤ n < 20)%nat →
       fst (connect_and_monitor (failed_attempts n) st0)
       = Sleeping (Z.min (5 * 2 ^ Z.of_nat n) 60))
  ∧ fst (connect_and_monitor (failed_attempts 20) st0) = Finished.
Proof.
  intros Hinit Hrun.
  pose proof (run_inv actions _ (init_configured _ _ _ _ _ _ _ _ Hinit)) as Hinv.
  unfold connect_and_monitor in Hrun.
  rewrite Hrun in Hinv. destruct Hinv as [(Hmax & Hdelay & Hini) Hat]. cbn [fst snd] in *.
  split; [|split; [|split; [|split; [|split; [|split]]]]].
  - intros delay ->. destruct Hat as [? ->]. split; [lia | done].
  - intros n Hr Hn Hrange. unfold loop_head. rewrite Hr, Hmax, Hdelay, Hini, Hn. cbn [negb].
    destruct (Z.leb_spec 20 n); [lia|]. destruct (Z.ltb_spec 0 n); [done | lia].
  - by intros w ->.
  - by intros ->.
  - intros Hn. assert (at_ = Finished) as -> by (destruct at_; try done; lia).
    split; [|split; [done | intros more; apply run_finished]].
    unfold loop_head. rewrite Hmax. destruct (negb (running self)); [done|].
    by destruct (Z.leb_spec 20 (reconnect_attempts self)); [|lia].
  - intros n Hn.
    destruct (failed_attempts_reach _ _ _ _ _ _ _ _ n Hinit) as (_ & _ & _ & ->); [lia|].
    destruct n; [lia|]. by destruct (Nat.ltb_spec (S n) 20); [|lia].
  - by destruct (failed_attempts_reach _ _ _ _ _ _ _ _ 20%nat Hinit) as (_ & _ & _ & ->).
Qed.

(** After [stop] the flag stays down. *)
Lemma step_stopped (ev : wake) (t : task) :
  running (fst (snd t)) = false → running (fst (snd (step ev t))) = false.
Proof.
  destruct t as [at_ [self data_store]]. cbn [fst snd]. intros Hr.
  destruct at_, ev; cbn [step fst snd reconnect finally set_conn running]; try done;
    try (by rewrite Hr).
  - by destruct (process_message_conn current_time (bytes_of data) (self, data_store))
      as (-> & _).
  - by destruct (process_message_conn current_time data (self, data_store)) as (-> & _).
Qed.

Lemma run_stopped (actions : list action) (t : task) :
  running (fst (snd t)) = false → running (fst (snd (run actions t))) = false.
Proof.
  revert t. induction actions as [|a actions IH]; intros t Ht; [done|].
  cbn [run fold_left]. apply IH. destruct a as [ev|]; [by apply step_stopped | done].
Qed.

(** A stopped task opens no connection: a step takes it to [Connecting]
    only if it was there already. *)
Lemma step_stopped_no_connect (ev : wake) (t : task) :
  running (fst (snd t)) = false → fst (step ev t) = Connecting → fst t = Connecting.
Proof.
  destruct t as [at_ [self data_store]]. cbn [fst snd]. intros Hr.
  destruct at_, ev;
    cbn [step fst snd]; unfold reconnect, loop_head, after_sleep, finally;
    cbn [fst snd set_conn running]; rewrite ?Hr; cbn [negb fst]; done.
Qed.

(** C8, as the program has it. [stop] clears the [running] flag and nothing
    else: the connection attribute and the place where the task is suspended
    are as before, so an open transport stays open. From then on the flag
    stays down, no step starts a connection attempt, a task that has not
    started or that sleeps finishes when it is resumed, and a task whose
    connection attempt fails or whose connection ends finishes instead of
    reconnecting. *)
Theorem stop_clears_running_only (t : task) :
  let t' := deliver t Stop in
  running (fst (snd t')) = false
  ∧ ws (fst (snd t')) = ws (fst (snd t))
  ∧ fst t' = fst t
  ∧ transport_open t' = transport_open t
  ∧ (∀ more, running (fst (snd (run more t'))) = false)
  ∧ (∀ more a, fst (deliver (run more t') a) = Connecting →
       fst (run more t') = Connecting)
  ∧ (fst t = NotStarted ∨ (∃ delay, fst t = Sleeping delay) →
       fst (step Resume t') = Finished)
  ∧ (∀ ev, fst t = Connecting ∧ ev = ConnectFailed
           ∨ fst t = Reading ∧ ev ∈ [MsgError; MsgClosed; EndOfStream; ReadFailed] →
       fst (step ev t') = Finished).
Proof.
  destruct t as [at_ [self data_store]]. cbn [deliver fst snd stop set_conn running ws].
  repeat split.
  - intros more. by apply run_stopped.
  - intros more a Ha. destruct a as [ev|]; [|done].
    eapply step_stopped_no_connect; [|exact Ha]. by apply run_stopped.
  - intros [-> | [delay ->]]; done.
  - intros ev [[-> ->] | [-> Hev]]; [done|].
    repeat (apply elem_of_cons in Hev as [-> | Hev]; [done|]). by apply elem_of_nil in Hev.
Qed.

End Connection.

Section Persistence.
Context `{B : PyBuiltins}.

Lemma clear_volume_idemp (e : entry) : clear_volume (clear_volume e) = clear_volume e.
Proof. done. Qed.

(** The last loop of a cycle, when every monitor has its entry: no
    [KeyError], every monitor and every entry of a monitor cleared, nothing
    else touched. *)
Lemma reset_all_clears (monitors : list (string * SymbolCvdMonitor))
    (data_store : gmap string entry) :
  Forall (λ item, shared_key (snd item) = fst item ∧ is_Some (data_store !! fst item))
         monitors →
  ∃ data_store',
    reset_all monitors data_store
      = Ok (map (λ item, (fst item, set_period_volume 0%float (snd item))) monitors,
            data_store')
    ∧ ∀ k, data_store' !! k
           = if decide (k ∈ map fst monitors)
             then clear_volume <$> data_store !! k
             else data_store !! k.
Proof.
  revert data_store. induction monitors as [|[key monitor] rest IH]; intros data_store Hwf.
  { exists data_store. split; [done|]. intros k. rewrite decide_False; [done|].
    apply not_elem_of_nil. }
  apply Forall_cons in Hwf as [[Hkey [e He]] Hrest]. cbn [fst snd] in *.
  cbn [reset_all]. unfold reset_period_volume.
  cbn [shared_key set_period_volume set_trade]. rewrite Hkey, He.
  destruct (IH (<[key := clear_volume e]> data_store)) as (data_store' & Hreset & Hlookup).
  { eapply Forall_impl; [exact Hrest|]. intros [k m] [Hk Hs]. cbn [fst snd] in *.
    split; [done|]. destruct (decide (key = k)) as [->|Hne].
    - rewrite lookup_insert_eq. eauto.
    - by rewrite lookup_insert_ne. }
  exists data_store'. rewrite Hreset. split.
  { cbn [map fst snd]. unfold set_period_volume. done. }
  intros k. rewrite Hlookup. cbn [map fst].
  destruct (decide (key = k)) as [->|Hne].
  - rewrite lookup_insert_eq, He.
    rewrite (decide_True (P := k ∈ k :: _)) by (apply elem_of_cons; by left).
    by destruct (decide (k ∈ map fst rest)).
  - rewrite lookup_insert_ne by done.
    destruct (decide (k ∈ map fst rest)) as [Hin|Hnin].
    + rewrite decide_True; [done|]. apply elem_of_cons. by right.
    + rewrite decide_False; [done|]. by intros [?|?]%elem_of_cons.
Qed.

(** A cycle in which [os.makedirs] and the [open] of the combined log do
    not raise ends with every period volume at zero, in the monitors and in
    their entries, whichever per-instrument files could not be opened; the
    other values are as before. *)
Lemma cycle_resets_period_volume (env : io) (timestamp : string) (now : Z)
    (data_dir : string) (w : world) :
  wf_world w →
  makedirs_fails env = false →
  open_fails env (unified_csv_of data_dir) = false →
  let w' := persistence_cycle env timestamp now data_dir w in
  raised (save_cvd_data_both_modes env timestamp now data_dir w) = false
  ∧ w_monitors w'
    = map (λ item, (fst item, set_period_volume 0%float (snd item))) (w_monitors w)
  ∧ ∀ k, w_store w' !! k
         = if decide (k ∈ map fst (w_monitors w))
           then clear_volume <$> w_store w !! k
           else w_store w !! k.
Proof.
  intros [_ Hwf] Hmk Hopen.
  destruct (reset_all_clears _ _ Hwf) as (data_store' & Hreset & Hlookup).
  unfold persistence_cycle, save_cvd_data_both_modes. rewrite Hmk, Hopen, Hreset.
  destruct (collect _ _ _ _) as [unified_rows separate_files].
  by destruct unified_rows.
Qed.

(** *** Dictionaries *)

Lemma dict_get_set_eq {V} (k : string) (v : V) (d : list (string * V)) :
  dict_get k (dict_set k v d) = Some v.
Proof.
  induction d as [|[k' v'] d IH]; cbn.
  - by rewrite String.eqb_refl.
  - destruct (String.eqb_spec k k') as [->|Hne]; cbn.
    + by rewrite String.eqb_refl.
    + destruct (String.eqb_spec k k'); [done | exact IH].
Qed.

Lemma dict_get_set_ne {V} (k k' : string) (v : V) (d : list (string * V)) :
  k ≠ k' → dict_get k' (dict_set k v d) = dict_get k' d.
Proof.
  intros Hne. induction d as [|[k0 v0] d IH]; cbn.
  - destruct (String.eqb_spec k' k); [congruence | done].
  - destruct (String.eqb_spec k k0) as [->|Hne0]; cbn.
    + destruct (String.eqb_spec k' k0); [congruence | done].
    + destruct (String.eqb_spec k' k0); [done | exact IH].
Qed.

Lemma dict_set_keys {V} (k : string) (v : V) (d : list (string * V)) (k' : string) :
  k' ∈ map fst (dict_set k v d) ↔ k' = k ∨ k' ∈ map fst d.
Proof.
  induction d as [|[k0 v0] d IH]; cbn.
  - rewrite list_elem_of_singleton. split; [by left | intros [?|?%elem_of_nil]; done].
  - destruct (String.eqb_spec k k0) as [->|Hne]; cbn; rewrite !elem_of_cons.
    + tauto.
    + rewrite IH. tauto.
Qed.

Lemma dict_set_NoDup {V} (k : string) (v : V) (d : list (string * V)) :
  NoDup (map fst d) → NoDup (map fst (dict_set k v d)).
Proof.
  induction d as [|[k0 v0] d IH]; cbn; intros Hd.
  - apply NoDup_singleton.
  - apply NoDup_cons in Hd as [Hk0 Hd].
    destruct (String.eqb_spec k k0) as [->|Hne]; cbn.
    + by apply NoDup_cons.
    + apply NoDup_cons. split; [|by apply IH].
      rewrite dict_set_keys. intros [?|?]; congruence.
Qed.

Lemma dict_set_Forall {V} (P : string * V → Prop) (k : string) (v : V)
    (d : list (string * V)) :
  Forall P d → P (k, v) → Forall P (dict_set k v d).
Proof.
  intros Hd Hkv. induction Hd as [|[k0 v0] d H0 Hd IH]; cbn.
  - by constructor.
  - destruct (String.eqb k k0); by constructor.
Qed.

(** The monitors [main] builds are filed under their own keys, once each,
    and all have their entry. *)
Lemma create_monitors_wf fs now current_time max_age data_dir
    (symbols_to_monitor : list (string * string)) :
  wf_world (create_monitors fs now current_time max_age data_dir symbols_to_monitor).
Proof.
  unfold create_monitors.
  assert (Hgen : ∀ w, wf_world w →
            wf_world (fold_left
              (λ w config,
                 match init fs now current_time max_age data_dir config (w_store w) with
                 | None => w
                 | Some (monitor, data_store) =>
                     {| w_fs := w_fs w; w_store := data_store;
                        w_monitors := dict_set (key_of (fst config) (snd config)) monitor
                                               (w_monitors w) |}
                 end) symbols_to_monitor w)).
  { induction symbols_to_monitor as [|config rest IH]; intros w Hw; [done|].
    cbn [fold_left]. apply IH.
    destruct (init _ _ _ _ _ _ _) as [[monitor data_store']|] eqn:Hinit; [|done].
    destruct (init_fresh _ _ _ _ _ _ _ _ Hinit) as (_ & _ & _ & Hkey & Hstore).
    cbn [fst snd] in Hkey, Hstore. destruct Hw as [Hnd Hall].
    split; cbn [w_monitors w_store].
    - by apply dict_set_NoDup.
    - apply dict_set_Forall.
      + eapply Forall_impl; [exact Hall|]. intros [k m] [Hk Hs]. cbn [fst snd] in *.
        split; [done|]. rewrite Hstore.
        destruct (decide (shared_key monitor = k)) as [->|Hne].
        * rewrite lookup_insert_eq. eauto.
        * by rewrite lookup_insert_ne.
      + cbn [fst snd]. split; [done|]. rewrite Hstore, <- Hkey, lookup_insert_eq. eauto. }
  apply Hgen. split; [apply NoDup_nil_2 | constructor].
Qed.

(** The values of a row are those of the entry. *)
Lemma read_entry_values (data_store : gmap string entry) (key : string)
    (values : list cell) :
  read_entry data_store key = Some values →
  ∃ e, data_store !! key = Some e ∧ values = values_of e.
Proof.
  unfold read_entry. destruct (data_store !! key) as [e|]; [|done].
  destruct (_ && _); [done|]. intros [= <-]. by exists e.
Qed.

(** *** Paths *)

Lemma append_inj_l (a b c : string) : a +:+ b = a +:+ c → b = c.
Proof. induction a as [|x a IH]; cbn; [done|]. intros [= H]. by apply IH. Qed.

Lemma append_csv_inj (k k' : string) : k +:+ ".csv" = k' +:+ ".csv" → k = k'.
Proof.
  revert k'. induction k as [|x k IH]; intros [|y k']; cbn; try done.
  - intros [= -> H]. destruct k' as [|? [|? [|? [|? ?]]]]; cbn in H; try done.
  - intros [= -> H]. destruct k as [|? [|? [|? [|? ?]]]]; cbn in H; try done.
  - intros [= -> H]. f_equal. by apply IH.
Qed.

Lemma append_assoc (a b c : string) : (a +:+ b) +:+ c = a +:+ (b +:+ c).
Proof.
  induction a as [|x a IH]; [done|].
  change (String x ((a +:+ b) +:+ c) = String x (a +:+ b +:+ c)). by f_equal.
Qed.

Lemma path_join_relative (a b : string) :
  is_relative b = true → path_join a b = join_prefix a +:+ b.
Proof.
  unfold path_join, join_prefix, is_relative. intros Hb.
  assert (Hgen : (match rev (bytes_of a) with
                  | [] => b
                  | c :: _ => if Ascii.eqb c "/" then a +:+ b else a +:+ "/" +:+ b
                  end)
                 = (match rev (bytes_of a) with
                    | [] => ""
                    | c :: _ => if Ascii.eqb c "/" then a else a +:+ "/"
                    end) +:+ b).
  { destruct (rev (bytes_of a)) as [|c ?]; [done|].
    destruct (Ascii.eqb c "/"); [done|]. by rewrite append_assoc. }
  destruct b as [|c b]; [exact Hgen|].
  destruct (Ascii.eqb_spec c "/") as [->|Hc]; [done|].
  destruct c as [[] [] [] [] [] [] [] []]; try exact Hgen. done.
Qed.

Lemma is_relative_csv (k : string) : is_relative k = true → is_relative (k +:+ ".csv") = true.
Proof. by destruct k. Qed.

Lemma csv_path_inj (data_dir k k' : string) :
  is_relative k = true → is_relative k' = true →
  csv_path_of data_dir k = csv_path_of data_dir k' → k = k'.
Proof.
  intros Hk Hk'. unfold csv_path_of.
  rewrite !path_join_relative by by apply is_relative_csv.
  intros H%append_inj_l. by apply append_csv_inj.
Qed.

Lemma csv_path_not_unified (data_dir k : string) :
  instrument_key k → csv_path_of data_dir k ≠ unified_csv_of data_dir.
Proof.
  intros [Hk Hne]. unfold csv_path_of, unified_csv_of.
  rewrite !path_join_relative by (done || by apply is_relative_csv).
  intros H%append_inj_l. apply Hne. by apply append_csv_inj.
Qed.

(** *** The first loop *)

Section Collect.
Variables (timestamp data_dir : string) (data_store : gmap string entry).

Let collected (monitors : list (string * SymbolCvdMonitor)) :=
  collect timestamp data_dir data_store monitors.

Lemma collect_snoc monitors item :
  collected (monitors ++ [item])
  = collect_step timestamp data_dir data_store (collected monitors) item.
Proof. unfold collected, collect. by rewrite fold_left_app. Qed.

(** Every row comes from one read of the entry of a monitored key. *)
Lemma collect_sound monitors :
  (∀ row, row ∈ fst (collected monitors) →
     ∃ key values, key ∈ map fst monitors
                   ∧ read_entry data_store key = Some values
                   ∧ row = CStr timestamp :: CStr key :: values)
  ∧ (∀ path row, dict_get path (snd (collected monitors)) = Some row →
       ∃ key values, key ∈ map fst monitors
                     ∧ path = csv_path_of data_dir key
                     ∧ read_entry data_store key = Some values
                     ∧ row = CStr timestamp :: values)
  ∧ NoDup (map fst (snd (collected monitors))).
Proof.
  induction monitors as [|[key monitor] monitors IH] using rev_ind.
  { repeat split; [by intros row ?%elem_of_nil | done | apply NoDup_nil_2]. }
  destruct IH as (IHu & IHs & IHn). rewrite collect_snoc.
  assert (Hsub : ∀ k, k ∈ map fst monitors → k ∈ map fst (monitors ++ [(key, monitor)])).
  { intros k Hk. rewrite map_app. apply elem_of_app. by left. }
  assert (Hlast : key ∈ map fst (monitors ++ [(key, monitor)])).
  { rewrite map_app. apply elem_of_app. right. by apply list_elem_of_singleton. }
  unfold collect_step. destruct (collected monitors) as [unified_rows separate_files].
  cbn [fst snd] in *.
  destruct (read_entry data_store key) as [values|] eqn:Hread.
  - cbn [fst snd]. repeat split.
    + intros row [Hrow | ->%list_elem_of_singleton]%elem_of_app.
      * destruct (IHu row Hrow) as (k & vs & ? & ? & ?). exists k, vs. auto.
      * exists key, values. auto.
    + intros path row Hget. destruct (decide (csv_path_of data_dir key = path)) as [<-|Hne].
      * rewrite dict_get_set_eq in Hget. injection Hget as <-. exists key, values. auto.
      * rewrite dict_get_set_ne in Hget by done.
        destruct (IHs path row Hget) as (k & vs & ? & ? & ? & ?). exists k, vs. auto.
    + by apply dict_set_NoDup.
  - cbn [fst snd]. repeat split.
    + intros row Hrow. destruct (IHu row Hrow) as (k & vs & ? & ? & ?). exists k, vs. auto.
    + intros path row Hget.
      destruct (IHs path row Hget) as (k & vs & ? & ? & ? & ?). exists k, vs. auto.
    + done.
Qed.

(** Every monitored key that is not skipped has its row in both layouts. *)
Lemma collect_complete monitors key values :
  Forall (λ item, is_relative (fst item) = true) monitors →
  key ∈ map fst monitors →
  read_entry data_store key = Some values →
  (CStr timestamp :: CStr key :: values) ∈ fst (collected monitors)
  ∧ dict_get (csv_path_of data_dir key) (snd (collected monitors))
    = Some (CStr timestamp :: values).
Proof.
  intros Hrel Hkey Hread.
  induction monitors as [|[k monitor] monitors IH] using rev_ind.
  { by apply elem_of_nil in Hkey. }
  apply Forall_app in Hrel as [Hrel Hk]. apply Forall_inv in Hk. cbn [fst] in Hk.
  rewrite collect_snoc. unfold collect_step. cbn [fst].
  rewrite map_app in Hkey. apply elem_of_app in Hkey as [Hkey | Hkey%list_elem_of_singleton].
  - destruct (IH Hrel Hkey) as [IHu IHs].
    destruct (collected monitors) as [unified_rows separate_files]. cbn [fst snd] in *.
    destruct (read_entry data_store k) as [vs|] eqn:Hk_read; [|done].
    cbn [fst snd]. split; [apply elem_of_app; by left|].
    destruct (decide (k = key)) as [->|Hne].
    + rewrite dict_get_set_eq. congruence.
    + rewrite dict_get_set_ne; [done|]. intros Hpath. apply Hne.
      apply (csv_path_inj data_dir); [done| |done].
      rewrite Forall_forall in Hrel. apply list_elem_of_In, in_map_iff in Hkey.
      destruct Hkey as (item & <- & Hitem). by apply Hrel, list_elem_of_In.
  - cbn [map fst] in Hkey. subst k.
    destruct (collected monitors) as [unified_rows separate_files]. rewrite Hread.
    cbn [fst snd]. split; [|apply dict_get_set_eq].
    apply elem_of_app. right. by apply list_elem_of_singleton.
Qed.

End Collect.

(** *** The writes *)

Lemma write_rows_lookup now path header rows (fs : gmap string file) path' :
  write_rows now path header rows fs !! path'
  = if decide (path = path')
    then Some {| f_mtime := now;
                 f_bytes := bytes_at fs path ++ header_if_new fs path header
                            ++ concat (map csv_line rows) |}
    else fs !! path'.
Proof.
  unfold write_rows, append_file. destruct (decide (path = path')) as [->|Hne].
  - by rewrite lookup_insert_eq.
  - by rewrite lookup_insert_ne.
Qed.

(** The second loop writes each file of the dictionary once. *)
Lemma write_separate_lookup env now (separate_files : list (string * list cell))
    (fs : gmap string file) path :
  NoDup (map fst separate_files) →
  fold_left (write_separate env now) separate_files fs !! path
  = match dict_get path separate_files with
    | Some row_data =>
        if open_fails env path then fs !! path
        else Some {| f_mtime := now;
                     f_bytes := bytes_at fs path ++ header_if_new fs path separate_header
                                ++ csv_line row_data |}
    | None => fs !! path
    end.
Proof.
  revert fs. induction separate_files as [|[csv_file row_data] rest IH]; intros fs Hnd; [done|].
  cbn [map fst] in Hnd. apply NoDup_cons in Hnd as [Hfresh Hnd].
  cbn [fold_left dict_get]. rewrite IH by done.
  destruct (String.eqb_spec path csv_file) as [->|Hne].
  - assert (Hnone : dict_get csv_file rest = None).
    { clear -Hfresh. induction rest as [|[k v] rest IH]; [done|]. cbn in *.
      apply not_elem_of_cons in Hfresh as [Hk Hrest].
      destruct (String.eqb_spec csv_file k); [done | by apply IH]. }
    rewrite Hnone. unfold write_separate. destruct (open_fails env csv_file); [done|].
    rewrite write_rows_lookup, decide_True by done. cbn [map concat]. by rewrite app_nil_r.
  - assert (Hsame : write_separate env now fs (csv_file, row_data) !! path = fs !! path).
    { unfold write_separate. destruct (open_fails env csv_file); [done|].
      rewrite write_rows_lookup, decide_False; done. }
    unfold bytes_at, header_if_new. rewrite Hsame. done.
Qed.

(** The files of a cycle in which [os.makedirs] and the [open] of the
    combined log do not raise. *)
Lemma files_after_cycle (env : io) (timestamp : string) (now : Z) (data_dir : string)
    (w : world) :
  makedirs_fails env = false →
  open_fails env (unified_csv_of data_dir) = false →
  w_fs (persistence_cycle env timestamp now data_dir w)
  = let rows := collect timestamp data_dir (w_store w) (w_monitors w) in
    fold_left (write_separate env now) (snd rows)
      (match fst rows with
       | [] => w_fs w
       | _ => write_rows now (unified_csv_of data_dir) unified_header (fst rows) (w_fs w)
       end).
Proof.
  intros Hmk Hopen. unfold persistence_cycle, save_cvd_data_both_modes. rewrite Hmk, Hopen.
  destruct (collect _ _ _ _) as [unified_rows separate_files]. cbn [fst snd].
  destruct unified_rows; by destruct (reset_all _ _) as [[]|[]].
Qed.

Lemma separate_not_unified timestamp data_dir data_store
    (monitors : list (string * SymbolCvdMonitor)) :
  Forall (λ item, instrument_key (fst item)) monitors →
  dict_get (unified_csv_of data_dir) (snd (collect timestamp data_dir data_store monitors))
  = None.
Proof.
  intros Hkeys.
  destruct (dict_get _ _) as [row|] eqn:Hget; [|done].
  destruct (collect_sound timestamp data_dir data_store monitors) as (_ & Hs & _).
  destruct (Hs _ _ Hget) as (k & vs & Hk & Hpath & _).
  rewrite Forall_forall in Hkeys. apply list_elem_of_In, in_map_iff in Hk.
  destruct Hk as (item & <- & Hitem%list_elem_of_In).
  by destruct (csv_path_not_unified data_dir (fst item) (Hkeys _ Hitem)).
Qed.

(** The per-instrument file of a key that is not skipped, after a cycle in
    which the directory, the combined log and this file could be opened:
    what it held, the header if it is new, and the row of the key. *)
Lemma separate_file_after_cycle (env : io) (timestamp : string) (now : Z)
    (data_dir : string) (w : world) (key : string) (values : list cell) :
  Forall (λ item, instrument_key (fst item)) (w_monitors w) →
  key ∈ map fst (w_monitors w) →
  read_entry (w_store w) key = Some values →
  makedirs_fails env = false →
  open_fails env (unified_csv_of data_dir) = false →
  open_fails env (csv_path_of data_dir key) = false →
  w_fs (persistence_cycle env timestamp now data_dir w) !! csv_path_of data_dir key
  = Some {| f_mtime := now;
            f_bytes := bytes_at (w_fs w) (csv_path_of data_dir key)
                       ++ header_if_new (w_fs w) (csv_path_of data_dir key) separate_header
                       ++ csv_line (CStr timestamp :: values) |}.
Proof.
  intros Hkeys Hkey Hread Hmk Hopen Hopen_key.
  assert (Hrel : Forall (λ item, is_relative (fst item) = true) (w_monitors w)).
  { eapply Forall_impl; [exact Hkeys|]. by intros item [? _]. }
  destruct (collect_complete timestamp data_dir (w_store w) _ key values Hrel Hkey Hread)
    as [Hu Hs].
  destruct (collect_sound timestamp data_dir (w_store w) (w_monitors w)) as (_ & _ & Hnd).
  rewrite files_after_cycle by done. cbn zeta.
  rewrite write_separate_lookup by done. rewrite Hs, Hopen_key.
  assert (Hne : unified_csv_of data_dir ≠ csv_path_of data_dir key).
  { intros Heq. rewrite Forall_forall in Hkeys. apply list_elem_of_In, in_map_iff in Hkey.
    destruct Hkey as (item & <- & Hitem%list_elem_of_In).
    by destruct (csv_path_not_unified data_dir (fst item) (Hkeys _ Hitem)). }
  destruct (fst (collect _ _ _ _)); [done|].
  unfold bytes_at, header_if_new. by rewrite write_rows_lookup, decide_False.
Qed.

(** C10. In one cycle, for each monitored key that is not skipped, the
    row for the combined log is the row for the key's own log with the key
    inserted after the timestamp, both built from the same read of the
    entry: the timestamp, then the price, the cvd, the period volume and
    the trade count of the entry. No other row of the combined log bears
    that key. When the directory and the two files can be opened, what the
    cycle appends to the combined log is the rows collected (after the
    header if the file is new) and what it appends to the key's log is the
    key's row (after the header if the file is new). *)
Theorem layouts_agree (env : io) (timestamp : string) (now : Z) (data_dir : string)
    (w : world) (key : string) (values : list cell) :
  Forall (λ item, instrument_key (fst item)) (w_monitors w) →
  key ∈ map fst (w_monitors w) →
  read_entry (w_store w) key = Some values →
  makedirs_fails env = false →
  open_fails env (unified_csv_of data_dir) = false →
  open_fails env (csv_path_of data_dir key) = false →
  let rows := collect timestamp data_dir (w_store w) (w_monitors w) in
  let fs' := w_fs (persistence_cycle env timestamp now data_dir w) in
  (∃ e, w_store w !! key = Some e ∧ values = values_of e)
  ∧ (CStr timestamp :: CStr key :: values) ∈ fst rows
  ∧ dict_get (csv_path_of data_dir key) (snd rows) = Some (CStr timestamp :: values)
  ∧ (∀ row, row ∈ fst rows → row !! 1%nat = Some (CStr key) →
       row = CStr timestamp :: CStr key :: values)
  ∧ bytes_at fs' (unified_csv_of data_dir)
    = bytes_at (w_fs w) (unified_csv_of data_dir)
      ++ header_if_new (w_fs w) (unified_csv_of data_dir) unified_header
      ++ concat (map csv_line (fst rows))
  ∧ bytes_at fs' (csv_path_of data_dir key)
    = bytes_at (w_fs w) (csv_path_of data_dir key)
      ++ header_if_new (w_fs w) (csv_path_of data_dir key) separate_header
      ++ csv_line (CStr timestamp :: values).
Proof.
  intros Hkeys Hkey Hread Hmk Hopen Hopen_key rows fs'.
  assert (Hrel : Forall (λ item, is_relative (fst item) = true) (w_monitors w)).
  { eapply Forall_impl; [exact Hkeys|]. by intros item [? _]. }
  destruct (collect_complete timestamp data_dir (w_store w) _ key values Hrel Hkey Hread)
    as [Hu Hs].
  destruct (collect_sound timestamp data_dir (w_store w) (w_monitors w)) as (Hsound & _ & Hnd).
  fold rows in Hu, Hs, Hsound, Hnd.
  split; [by apply read_entry_values|].
  split; [done|]. split; [done|]. split; [|split].
  - intros row Hrow Hcell. destruct (Hsound row Hrow) as (k & vs & _ & Hk & ->).
    cbn in Hcell. injection Hcell as ->. congruence.
  - unfold bytes_at at 1. subst fs'. rewrite files_after_cycle by done. cbn zeta. fold rows.
    rewrite write_separate_lookup by done.
    unfold rows at 1. rewrite separate_not_unified by done.
    destruct (fst rows) eqn:Hrows; [by apply elem_of_nil in Hu|].
    by rewrite write_rows_lookup, decide_True.
  - unfold bytes_at at 1. subst fs'.
    by rewrite (separate_file_after_cycle env timestamp now data_dir w key values).
Qed.

End Persistence.

Section Text.

Lemma splitlines_cons (c : ascii) (rest : list ascii) :
  splitlines (c :: rest)
  = let keep :=
      match splitlines rest with
      | [] => [[c]]
      | l :: ls => (c :: l) :: ls
      end in
    if Ascii.eqb c CR then
      match rest with
      | c2 :: rest2 =>
          if Ascii.eqb c2 LF then [] :: splitlines rest2 else [] :: splitlines rest
      | [] => [] :: splitlines rest
      end
    else if is_line_break c then [] :: splitlines rest
    else if Ascii.eqb c (chr 194) then
      match rest with
      | c2 :: rest2 => if Ascii.eqb c2 (chr 133) then [] :: splitlines rest2 else keep
      | [] => keep
      end
    else if Ascii.eqb c (chr 226) then
      match rest with
      | c2 :: c3 :: rest3 =>
          if Ascii.eqb c2 (chr 128) && (Ascii.eqb c3 (chr 168) || Ascii.eqb c3 (chr 169))
          then [] :: splitlines rest3
          else keep
      | _ => keep
      end
    else keep.
Proof. done. Qed.

Lemma is_text_range (c : ascii) :
  is_text c = true → (32 ≤ nat_of_ascii c < 127)%nat ∧ nat_of_ascii c ≠ 34%nat.
Proof.
  unfold is_text. intros [[H1 H2]%andb_true_iff H3]%andb_true_iff.
  apply Nat.leb_le in H1. apply Nat.ltb_lt in H2.
  apply negb_true_iff, Nat.eqb_neq in H3. done.
Qed.

Lemma is_text_ascii7 (c : ascii) : is_text c = true → is_ascii7 c = true.
Proof. intros [H _]%is_text_range. unfold is_ascii7. apply Nat.ltb_lt. lia. Qed.

Lemma is_plain_text (c : ascii) : is_plain c = true → is_text c = true.
Proof. unfold is_plain. by intros [? _]%andb_true_iff. Qed.

Lemma plain_text (s : list ascii) : plain s → text s.
Proof. intros Hs. eapply Forall_impl; [exact Hs | apply is_plain_text]. Qed.

Lemma text_neq (c : ascii) (n : nat) :
  is_text c = true → (n < 32 ∨ 127 ≤ n < 256)%nat → Ascii.eqb c (chr n) = false.
Proof.
  intros [Hc _]%is_text_range Hn. destruct (Ascii.eqb_spec c (chr n)) as [->|]; [|done].
  unfold chr in Hc. rewrite nat_ascii_embedding in Hc by lia. lia.
Qed.

(** A character of text starts no line boundary. *)
Lemma splitlines_text_cons (c : ascii) (rest : list ascii) :
  is_text c = true →
  splitlines (c :: rest)
  = match splitlines rest with
    | [] => [[c]]
    | l :: ls => (c :: l) :: ls
    end.
Proof.
  intros Hc. rewrite splitlines_cons. cbn zeta.
  unfold CR. rewrite !(text_neq c) by (done || lia).
  assert (is_line_break c = false) as ->; [|done].
  apply is_text_range in Hc as [Hc _]. unfold is_line_break.
  repeat (apply orb_false_iff; split); apply Nat.eqb_neq; lia.
Qed.

Lemma splitlines_text_line (line rest : list ascii) :
  text line → splitlines (line ++ CR :: LF :: rest) = line :: splitlines rest.
Proof.
  induction 1 as [|c line Hc _ IH]; [done|].
  cbn [app]. by rewrite splitlines_text_cons, IH.
Qed.

Lemma splitlines_crlf_text (lines : list (list ascii)) :
  Forall text lines → splitlines (crlf_text lines) = lines.
Proof.
  induction 1 as [|line lines Hline _ IH]; [done|].
  unfold crlf_text in *. cbn [map concat]. rewrite <- app_assoc. cbn [app].
  by rewrite splitlines_text_line, IH.
Qed.

(** Whatever comes before it, a line feed closes the line: the lines of
    what follows are reported as they are. *)
Lemma splitlines_after_LF (p rest : list ascii) :
  ∃ l0 ls, splitlines (p ++ LF :: rest) = (l0 :: ls) ++ splitlines rest.
Proof.
  remember (length p) as n eqn:Hn. revert p Hn.
  induction n as [n IH] using lt_wf_ind. intros p ->.
  assert (Hkeep : ∀ c q, (length q < length p)%nat →
            ∃ l0 ls, match splitlines (q ++ LF :: rest) with
                     | [] => [[c]]
                     | l :: ls => (c :: l) :: ls
                     end = (l0 :: ls) ++ splitlines rest).
  { intros c q Hq. destruct (IH _ Hq q eq_refl) as (l0 & ls & ->). by exists (c :: l0), ls. }
  assert (Hcut : ∀ q, (length q < length p)%nat →
            ∃ l0 ls, [] :: splitlines (q ++ LF :: rest) = (l0 :: ls) ++ splitlines rest).
  { intros q Hq. destruct (IH _ Hq q eq_refl) as (l0 & ls & ->). by exists [], (l0 :: ls). }
  destruct p as [|c p].
  { by exists [], []. }
  cbn [app]. rewrite splitlines_cons. cbn zeta.
  destruct (Ascii.eqb c CR).
  { destruct p as [|c2 p]; [by exists [], []|]. cbn [app].
    destruct (Ascii.eqb c2 LF).
    - apply Hcut. cbn. lia.
    - apply (Hcut (c2 :: p)). cbn. lia. }
  destruct (is_line_break c); [apply Hcut; cbn; lia|].
  destruct (Ascii.eqb c (chr 194)).
  { destruct p as [|c2 p]; [apply (Hkeep c []); cbn; lia|]. cbn [app].
    destruct (Ascii.eqb c2 (chr 133)).
    - apply Hcut. cbn. lia.
    - apply (Hkeep c (c2 :: p)). cbn. lia. }
  destruct (Ascii.eqb c (chr 226)); [|apply Hkeep; cbn; lia].
  destruct p as [|c2 [|c3 p]]; cbn [app].
  - destruct rest; apply (Hkeep c []); cbn; lia.
  - replace (Ascii.eqb LF (chr 168) || Ascii.eqb LF (chr 169)) with false by done.
    rewrite andb_false_r. apply (Hkeep c [c2]). cbn. lia.
  - destruct (_ && _).
    + apply Hcut. cbn. lia.
    + apply (Hkeep c (c2 :: c3 :: p)). cbn. lia.
Qed.

(** The last line of a chunk that ends with a complete line of text and
    starts at any place of what comes before, provided that is empty or
    ends with a line feed. *)
Lemma last_line_of_chunk (before line : list ascii) (k : nat) :
  before = [] ∨ (∃ b, before = b ++ [LF]) →
  text line →
  (k ≤ length before)%nat →
  List.last (splitlines (skipn k (before ++ line ++ [CR; LF]))) [] = line.
Proof.
  intros Hbefore Hline Hk.
  rewrite skipn_app. replace (k - length before)%nat with 0%nat by lia. rewrite drop_0.
  assert (Hend : splitlines (line ++ [CR; LF]) = [line]).
  { by rewrite splitlines_text_line. }
  assert (Hcut : skipn k before = [] ∨ ∃ q, skipn k before = q ++ [LF]).
  { destruct Hbefore as [->|[b ->]]; [left; by destruct k|].
    rewrite length_app in Hk. cbn [length] in Hk.
    destruct (decide (k ≤ length b)%nat).
    - right. exists (skipn k b). rewrite skipn_app.
      replace (k - length b)%nat with 0%nat by lia. by rewrite drop_0.
    - left. apply skipn_all2. rewrite length_app. cbn [length]. lia. }
  destruct Hcut as [->|[q ->]]; [cbn [app]; by rewrite Hend|].
  rewrite <- app_assoc. cbn [app].
  destruct (splitlines_after_LF q (line ++ [CR; LF])) as (l0 & ls & ->).
  rewrite Hend. apply List.last_last.
Qed.

(** The fields of a line up to the first comma. *)
Lemma split_plain_field (field rest : list ascii) :
  plain field → split comma (field ++ comma :: rest) = field :: split comma rest.
Proof.
  induction 1 as [|c field Hc _ IH]; [done|].
  cbn [app split]. rewrite IH.
  unfold is_plain in Hc. apply andb_true_iff in Hc as [_ Hc]. apply negb_true_iff in Hc.
  by rewrite Hc.
Qed.

Lemma csv_field_plain (s : list ascii) : plain s → csv_field s = s.
Proof.
  intros Hs. unfold csv_field.
  assert (existsb is_special s = false) as ->; [|done].
  induction Hs as [|c s Hc _ IH]; [done|]. cbn [existsb]. rewrite IH, orb_false_r.
  unfold is_plain in Hc. apply andb_true_iff in Hc as [Ht Hc]. apply negb_true_iff in Hc.
  unfold is_special. rewrite Hc. unfold CR, LF. rewrite !(text_neq c) by (done || lia).
  rewrite !orb_false_r, orb_false_l.
  destruct (Ascii.eqb_spec c quote_char) as [->|]; [|done].
  by apply is_text_range in Ht as [_ Ht].
Qed.

End Text.

Section Loader.
Context `{B : PyBuiltins}.

Lemma parse_last_line_spec (last_line : list ascii) (c : float) :
  parse_last_line last_line = Some c
  ↔ last_line ≠ []
    ∧ (3 ≤ length (split comma last_line))%nat
    ∧ float_of_str (str_of (List.nth 2 (split comma last_line) [])) = Some c.
Proof.
  unfold parse_last_line. destruct last_line as [|x l]; [by split; [|intros [? _]]|].
  destruct (Nat.leb_spec 3 (length (split comma (x :: l)))) as [Hlen|Hlen].
  - split; [by intros ? | by intros (_ & _ & ?)].
  - split; [done | intros (_ & ? & _); lia].
Qed.

(** C5, as the program has it. The value loaded is 0.0 when the file is
    absent, empty, or older in whole days than the limit; when it is
    shorter than 100 bytes and the CSV reader finds at most one row in it
    or fails; and when the last line of its last 4096 bytes is empty, has
    fewer than three fields between commas, or has a third field that is
    not a number. In every other case it is the third field of that last
    line, read as a number (which may itself be zero). *)
Theorem load_last_cvd_cases (fs : gmap string file) (now : Z) (path : string)
    (max_age_days : Z) :
  let seed := load_last_cvd_from_separate_csv fs now path max_age_days in
  (fs !! path = None → seed = 0%float)
  ∧ ∀ f, fs !! path = Some f →
      let short :=
        (length (f_bytes f) < 100)%nat
        ∧ (csv_row_count (f_bytes f) = None
           ∨ ∃ n, csv_row_count (f_bytes f) = Some n ∧ (n ≤ 1)%nat) in
      let last_line := last_line_of (f_bytes f) in
      (f_bytes f = [] → seed = 0%float)
      ∧ (max_age_days < age_days now (f_mtime f) → seed = 0%float)
      ∧ (short → seed = 0%float)
      ∧ (last_line = []
         ∨ (length (split comma last_line) < 3)%nat
         ∨ float_of_str (str_of (List.nth 2 (split comma last_line) [])) = None →
         seed = 0%float)
      ∧ (f_bytes f ≠ [] → age_days now (f_mtime f) ≤ max_age_days → ¬ short →
         ∀ c, last_line ≠ [] → (3 ≤ length (split comma last_line))%nat →
              float_of_str (str_of (List.nth 2 (split comma last_line) [])) = Some c →
              seed = c).
Proof.
  unfold load_last_cvd_from_separate_csv. split; [by intros ->|].
  intros f ->. cbn zeta.
  destruct (Z.ltb_spec max_age_days (age_days now (f_mtime f))) as [Hold|Hfresh].
  { repeat split; try done. intros _ ?. lia. }
  destruct (Nat.eqb_spec (length (f_bytes f)) 0) as [Hempty|Hsome].
  { repeat split; try done. intros Hne. by destruct (f_bytes f). }
  assert (Hparse : ∀ c, parse_last_line (last_line_of (f_bytes f)) = Some c ↔ _)
    by (intros c; apply parse_last_line_spec).
  assert (Hfail : last_line_of (f_bytes f) = []
                  ∨ (length (split comma (last_line_of (f_bytes f))) < 3)%nat
                  ∨ float_of_str (str_of (List.nth 2 (split comma (last_line_of (f_bytes f)))
                                                  [])) = None →
                  parse_last_line (last_line_of (f_bytes f)) = None).
  { intros Hbad. destruct (parse_last_line _) as [c|] eqn:Hc; [|done].
    apply parse_last_line_spec in Hc as (H1 & H2 & H3). destruct Hbad as [?|[?|?]]; [done | lia | congruence]. }
  destruct (Nat.ltb_spec (length (f_bytes f)) 100) as [Hsmall|Hlarge].
  - destruct (csv_row_count (f_bytes f)) as [row_count|] eqn:Hrows.
    + destruct (Nat.leb_spec row_count 1) as [Hone|Hmore].
      * repeat split; try done. intros _ _ Hshort. destruct Hshort. eauto.
      * repeat split.
        -- intros Hnil. by rewrite Hnil in Hsome.
        -- lia.
        -- intros [_ [?|(n & [= <-] & ?)]]; [done | lia].
        -- intros Hbad. by rewrite (Hfail Hbad).
        -- intros _ _ _ c H1 H2 H3.
           assert (parse_last_line (last_line_of (f_bytes f)) = Some c) as ->; [|done].
           by apply Hparse.
    + repeat split; try done. intros _ _ Hshort. destruct Hshort. eauto.
  - repeat split.
    + intros Hnil. by rewrite Hnil in Hsome.
    + lia.
    + intros [? _]. lia.
    + intros Hbad. by rewrite (Hfail Hbad).
    + intros _ _ _ c H1 H2 H3.
      assert (parse_last_line (last_line_of (f_bytes f)) = Some c) as ->; [|done].
      by apply Hparse.
Qed.

End Loader.

Section RoundTrip.
Context `{B : PyBuiltins}.

(** What the round trip needs of the library: the decoder leaves ASCII
    bytes as they are, and the CSV reader finds one row in each complete
    line of text. *)
Hypothesis decode_ascii :
  ∀ b, Forall (λ c, is_ascii7 c = true) b → utf8_ignore b = b.
Hypothesis csv_rows_of_text :
  ∀ lines, Forall text lines → csv_row_count (crlf_text lines) = Some (length lines).

Lemma digits_plain (d : Decimal.uint) : plain (bytes_of (NilEmpty.string_of_uint d)).
Proof. induction d; cbn; by constructor. Qed.

Lemma str_of_int_plain (z : Z) : plain (bytes_of (str_of_int z)).
Proof.
  unfold str_of_int, NilZero.string_of_int, NilZero.string_of_uint.
  destruct (Z.to_int z) as [d|d].
  - destruct d; try apply digits_plain. by repeat constructor.
  - cbn. constructor; [done|]. destruct d; try apply digits_plain. by repeat constructor.
Qed.

Lemma crlf_text_snoc (lines : list (list ascii)) (line : list ascii) :
  crlf_text (lines ++ [line]) = crlf_text lines ++ line ++ [CR; LF].
Proof. unfold crlf_text. rewrite map_app, concat_app. cbn. by rewrite app_nil_r. Qed.

Lemma crlf_text_ends (lines : list (list ascii)) :
  lines = [] ∧ crlf_text lines = [] ∨ ∃ b, crlf_text lines = b ++ [LF].
Proof.
  destruct lines as [|l lines _] using rev_ind; [by left|]. right.
  rewrite crlf_text_snoc. exists (crlf_text lines ++ l ++ [CR]).
  by rewrite <- !app_assoc.
Qed.

Lemma crlf_text_ascii7 (lines : list (list ascii)) :
  Forall text lines → Forall (λ c, is_ascii7 c = true) (crlf_text lines).
Proof.
  induction 1 as [|l lines Hl _ IH]; [done|].
  unfold crlf_text in *. cbn [map concat]. apply Forall_app. split; [|done].
  apply Forall_app. split; [|by repeat constructor].
  eapply Forall_impl; [exact Hl | apply is_text_ascii7].
Qed.

(** The line of a row whose cells print as plain fields. *)
Lemma csv_line_plain (timestamp : string) (p c v : float) (n : Z) :
  plain (bytes_of timestamp) → plain (bytes_of (float_repr p)) →
  plain (bytes_of (float_repr c)) → plain (bytes_of (float_repr v)) →
  csv_line [CStr timestamp; CFloat p; CFloat c; CFloat v; CInt n]
  = (bytes_of timestamp ++ comma :: bytes_of (float_repr p) ++ comma ::
     bytes_of (float_repr c) ++ comma :: bytes_of (float_repr v) ++ comma ::
     bytes_of (str_of_int n)) ++ [CR; LF].
Proof.
  intros Ht Hp Hc Hv. unfold csv_line. cbn [map cell_str join_fields].
  rewrite !csv_field_plain by (done || apply str_of_int_plain).
  by rewrite <- !app_assoc.
Qed.

Lemma separate_header_line :
  csv_line separate_header
  = bytes_of "timestamp,price,cvd,period_volume,trade_count" ++ [CR; LF].
Proof. done. Qed.

Lemma comma_line_text (a b : list ascii) : text a → text b → text (a ++ comma :: b).
Proof. intros Ha Hb. apply Forall_app. split; [done|]. by constructor. Qed.

(** The log of a key that is not skipped stays made of complete lines of
    text through a cycle, and the row of the cycle is its last line. *)
Lemma log_after_cycle (env : io) (timestamp : string) (now : Z)
    (data_dir : string) (w : world) (key : string) (e : entry)
    (lines : list (list ascii)) :
  Forall (λ item, instrument_key (fst item)) (w_monitors w) →
  key ∈ map fst (w_monitors w) →
  w_store w !! key = Some e →
  is_Some (read_entry (w_store w) key) →
  makedirs_fails env = false →
  open_fails env (unified_csv_of data_dir) = false →
  open_fails env (csv_path_of data_dir key) = false →
  log_before (w_fs w) (csv_path_of data_dir key) lines →
  Forall (λ c, plain (bytes_of (cell_str c))) (CStr timestamp :: values_of e) →
  csv_line (CStr timestamp :: values_of e) = row_line timestamp e ++ [CR; LF]
  ∧ text (row_line timestamp e)
  ∧ ∃ before,
      w_fs (persistence_cycle env timestamp now data_dir w) !! csv_path_of data_dir key
      = Some {| f_mtime := now; f_bytes := crlf_text (before ++ [row_line timestamp e]) |}
      ∧ before ≠ []
      ∧ log_before (w_fs (persistence_cycle env timestamp now data_dir w))
                   (csv_path_of data_dir key) (before ++ [row_line timestamp e]).
Proof.
  intros Hkeys Hkey He [values Hread] Hmk Hopen Hopen_key [Hlines Hbefore] Hplain.
  destruct (read_entry_values _ _ _ Hread) as (e' & He' & ->).
  assert (e' = e) as -> by congruence. clear He'.
  set (path := csv_path_of data_dir key) in *.
  apply Forall_cons in Hplain as [Ht Hplain]. unfold values_of in Hplain.
  apply Forall_cons in Hplain as [Hp Hplain]. apply Forall_cons in Hplain as [Hc Hplain].
  apply Forall_cons in Hplain as [Hv _]. cbn [cell_str] in Ht, Hp, Hc, Hv.
  pose proof (csv_line_plain timestamp _ _ _ (e_trade_count e) Ht Hp Hc Hv) as Hline.
  fold (values_of e) in Hline. fold (row_line timestamp e) in Hline.
  assert (Hrow : text (row_line timestamp e)).
  { unfold row_line.
    repeat (apply comma_line_text; [by apply plain_text|]).
    apply plain_text, str_of_int_plain. }
  split; [done|]. split; [done|].
  assert (Hfile : ∃ before,
            Forall text before ∧ before ≠ []
            ∧ w_fs (persistence_cycle env timestamp now data_dir w) !! path
              = Some {| f_mtime := now;
                        f_bytes := crlf_text (before ++ [row_line timestamp e]) |}).
  { rewrite (separate_file_after_cycle env timestamp now data_dir w key (values_of e))
      by done.
    fold path. rewrite Hline.
    unfold bytes_at, header_if_new. destruct (w_fs w !! path) as [f|].
    - destruct Hbefore as [Hf Hne]. exists lines. repeat split; [done..|].
      rewrite Hf, crlf_text_snoc. done.
    - exists [bytes_of "timestamp,price,cvd,period_volume,trade_count"].
      split; [by repeat constructor|]. split; [done|].
      rewrite separate_header_line. unfold crlf_text. cbn [map concat app].
      by rewrite app_nil_r, <- !app_assoc. }
  destruct Hfile as (before & Hbefore_text & Hbefore_ne & Hfile).
  exists before. split; [done|]. split; [done|].
  split; [apply Forall_app; split; [done | by constructor]|].
  rewrite Hfile. split; [done|]. by destruct before.
Qed.

(** C6. A cycle writes the row of a key that is not skipped to the key's
    own log, which was absent or held complete lines of text. When the
    cells of the row print as plain fields, its line fits in 4096 bytes and
    [float] reads the printed [cvd] back as the same number, loading the
    file at once, with a limit of zero days or more, returns the [cvd]
    that was written. *)
Theorem persisted_cvd_reloads (env : io) (timestamp : string) (now : Z)
    (data_dir : string) (w : world) (key : string) (e : entry)
    (lines : list (list ascii)) (max_age_days : Z) :
  Forall (λ item, instrument_key (fst item)) (w_monitors w) →
  key ∈ map fst (w_monitors w) →
  w_store w !! key = Some e →
  is_Some (read_entry (w_store w) key) →
  makedirs_fails env = false →
  open_fails env (unified_csv_of data_dir) = false →
  open_fails env (csv_path_of data_dir key) = false →
  log_before (w_fs w) (csv_path_of data_dir key) lines →
  Forall (λ c, plain (bytes_of (cell_str c))) (CStr timestamp :: values_of e) →
  (length (csv_line (CStr timestamp :: values_of e)) ≤ 4096)%nat →
  float_of_str (float_repr (e_cvd e)) = Some (e_cvd e) →
  0 ≤ max_age_days →
  load_last_cvd_from_separate_csv
    (w_fs (persistence_cycle env timestamp now data_dir w)) now
    (csv_path_of data_dir key) max_age_days
  = e_cvd e.
Proof.
  intros Hkeys Hkey He Hread Hmk Hopen Hopen_key Hlog Hplain Hlen Hround Hage.
  destruct (log_after_cycle env timestamp now data_dir w key e lines)
    as (Hline & Hrow & before & Hfile & Hbefore_ne & Hall & _); [done..|].
  set (row := row_line timestamp e) in *.
  unfold load_last_cvd_from_separate_csv. rewrite Hfile. cbn [f_mtime f_bytes].
  assert (age_days now now = 0) as ->.
  { unfold age_days. by rewrite Z.sub_diag. }
  destruct (Z.ltb_spec max_age_days 0); [lia|].
  assert (Hsize : length (crlf_text (before ++ [row]))
                  = (length (crlf_text before) + length (row ++ [CR; LF]))%nat).
  { by rewrite crlf_text_snoc, length_app. }
  assert (Hrow_len : (length (row ++ [CR; LF]) ≤ 4096)%nat) by by rewrite <- Hline.
  rewrite length_app in Hrow_len. cbn [length] in Hrow_len.
  destruct (Nat.eqb_spec (length (crlf_text (before ++ [row]))) 0) as [Hz|_].
  { rewrite Hsize, length_app in Hz. cbn [length] in Hz. lia. }
  assert (Hcount : (if (length (crlf_text (before ++ [row])) <? 100)%nat
                    then match csv_row_count (crlf_text (before ++ [row])) with
                         | Some row_count => Some (row_count <=? 1)%nat
                         | None => None
                         end
                    else Some false) = Some false).
  { destruct (_ <? 100)%nat; [|done]. rewrite csv_rows_of_text by done.
    rewrite length_app. cbn [length]. destruct before; [done|]. cbn [length].
    f_equal. apply Nat.leb_gt. lia. }
  rewrite Hcount.
  (* the last line of the last chunk is the row *)
  assert (Hlast : last_line_of (crlf_text (before ++ [row])) = row).
  { unfold last_line_of. rewrite decode_ascii.
    - rewrite crlf_text_snoc. apply last_line_of_chunk; [|done|].
      + destruct (crlf_text_ends before) as [[? _]|?]; [done | by right].
      + rewrite length_app, length_app. cbn [length]. lia.
    - apply Forall_drop, crlf_text_ascii7, Hall. }
  rewrite Hlast.
  (* its third field is the printed cvd *)
  apply Forall_cons in Hplain as [Ht Hplain]. unfold values_of in Hplain.
  apply Forall_cons in Hplain as [Hp Hplain]. apply Forall_cons in Hplain as [Hc _].
  cbn [cell_str] in Ht, Hp, Hc.
  assert (Hparse : parse_last_line row = Some (e_cvd e)).
  { apply parse_last_line_spec. unfold row, row_line.
    rewrite !split_plain_field by done. cbn [length List.nth].
    unfold str_of, bytes_of. rewrite string_of_list_ascii_of_string.
    repeat split; [|lia|done].
    by destruct (list_ascii_of_string timestamp). }
  by rewrite Hparse.
Qed.

End RoundTrip.

(** * The properties on the instrument of the examples *)

Section Scenarios.
#[local] Existing Instance sample_builtins.

Lemma btc0_constructed :
  init ∅ 0 0%float 6 "/data" ("BTCUSDT", "spot") ∅ = Some btc0.
Proof. vm_compute. reflexivity. Qed.

Lemma sample_decode_ascii (b : list ascii) :
  Forall (λ c, is_ascii7 c = true) b → utf8_ignore b = b.
Proof.
  cbn. induction 1 as [|c b Hc _ IH]; [done|].
  rewrite filter_cons_True by by apply Is_true_true. by rewrite IH.
Qed.

Lemma sample_csv_rows (lines : list (list ascii)) :
  Forall text lines → csv_row_count (crlf_text lines) = Some (length lines).
Proof. intros H. cbn. by rewrite splitlines_crlf_text. Qed.

(** C1 on the two trades: a buy of 1 and a sell of 0.5 leave a [cvd] of 0.5
    and a [period_volume] of 1.5. *)
Lemma replay_sums_two_trades :
  cvd (fst (replay two_trades btc0)) = 0.5%float
  ∧ period_volume (fst (replay two_trades btc0)) = 1.5%float.
Proof.
  destruct (replay_sums ∅ 0 0%float 6 "/data" ("BTCUSDT", "spot") ∅ btc0
              two_trades two_trades_read) as [Hc Hv].
  - exact btc0_constructed.
  - reflexivity.
  - repeat constructor.
  - rewrite Hc, Hv. split; vm_compute; reflexivity.
Defined.

(** C2 on the two trades: the monitor has counted 2 and the entry of the
    store says 1, the value the counter had before the second trade: the
    entry is written before the counter is incremented. *)
Theorem stored_trade_count_after_two_trades :
  trade_count (fst (replay two_trades btc0)) = 2
  ∧ snd (replay two_trades btc0) !! btc_key = Some btc_entry2
  ∧ e_trade_count btc_entry2 = 1.
Proof. repeat split; vm_compute; reflexivity. Qed.

(** C3 on a cycle in which the combined log cannot be opened: the call
    raises before the reset, and the period volume of 1.5 is still there in
    the monitor and in the store; when it is the log of the instrument that
    cannot be opened, the reset takes place. *)
Theorem combined_log_failure_skips_reset :
  let failed := save_cvd_data_both_modes io_combined_fails noon 0 "/data" btc_world in
  let after := persistence_cycle io_combined_fails noon 0 "/data" btc_world in
  let sibling := persistence_cycle io_separate_fails noon 0 "/data" btc_world in
  raised failed = true
  ∧ map (λ item, period_volume (snd item)) (w_monitors after) = [1.5%float]
  ∧ e_period_volume <$> w_store after !! btc_key = Some 1.5%float
  ∧ map (λ item, period_volume (snd item)) (w_monitors sibling) = [0%float]
  ∧ e_period_volume <$> w_store sibling !! btc_key = Some 0%float.
Proof. repeat split; vm_compute; reflexivity. Qed.

(** C4 on two failed connections in a row: the counter is at 2 and the
    test at the head of the loop starts a sleep of 20. *)
Lemma backoff_after_two_failures :
  let t := connect_and_monitor
             [Wake Resume; Wake ConnectFailed; Wake Resume; Wake ConnectFailed] btc0 in
  fst t = Sleeping 20 ∧ loop_head (fst (snd t)) = Sleeping 20.
Proof.
  intros t.
  destruct (backoff_schedule ∅ 0 0%float 6 "/data" ("BTCUSDT", "spot") ∅ btc0
              [Wake Resume; Wake ConnectFailed; Wake Resume; Wake ConnectFailed]
              (fst t) (fst (snd t)) (snd (snd t)))
    as (_ & Hhead & _ & _ & _ & Hreach & _).
  - exact btc0_constructed.
  - reflexivity.
  - split.
    + apply (Hreach 2%nat). lia.
    + apply (Hhead 2); [reflexivity | reflexivity | lia].
Defined.

(** C5, the claim as it is worded, on a log whose last row holds a [cvd] of
    zero: the value loaded is 0.0 although the file is there, fresh, two
    rows long and well formed. *)
Lemma zero_cvd_row_is_no_cold_start :
  load_last_cvd_from_separate_csv zero_cvd_fs 0 "/data/BTCUSDT_spot.csv" 6 = 0%float
  ∧ ¬ cold_start zero_cvd_fs 0 "/data/BTCUSDT_spot.csv" 6.
Proof.
  split; [vm_compute; reflexivity|].
  unfold cold_start.
  replace (zero_cvd_fs !! "/data/BTCUSDT_spot.csv")
    with (Some {| f_mtime := 0;
                  f_bytes := crlf_text
                    [bytes_of "timestamp,price,cvd,period_volume,trade_count";
                     bytes_of "2024-01-01 12:00:00,100.0,0.0,1.0,5"] |})
    by (vm_compute; reflexivity).
  cbn [f_bytes f_mtime]. intros [H | [H | [(n & Hn & Hle) | H]]].
  - vm_compute in H. discriminate.
  - vm_compute in H. discriminate.
  - vm_compute in Hn. injection Hn as <-. lia.
  - vm_compute in H. discriminate.
Qed.

(** C5 on a log whose last row holds a [cvd] of 2.5. *)
Lemma load_last_cvd_of_some_row :
  load_last_cvd_from_separate_csv some_cvd_fs 0 "/data/BTCUSDT_spot.csv" 6 = 2.5%float.
Proof.
  destruct (load_last_cvd_cases some_cvd_fs 0 "/data/BTCUSDT_spot.csv" 6) as [_ H].
  destruct (H {| f_mtime := 0;
                 f_bytes := crlf_text
                   [bytes_of "timestamp,price,cvd,period_volume,trade_count";
                    bytes_of "2024-01-01 12:00:00,100.0,2.5,1.0,5"] |})
    as (_ & _ & _ & _ & Hlast); [vm_compute; reflexivity|].
  apply Hlast.
  - discriminate.
  - vm_compute. discriminate.
  - intros [_ [Hnone | (n & Hn & Hle)]].
    + vm_compute in Hnone. discriminate.
    + vm_compute in Hn. injection Hn as <-. lia.
  - vm_compute. discriminate.
  - vm_compute. lia.
  - vm_compute. reflexivity.
Defined.

(** C6 on the first cycle of the instrument: the [cvd] of 0.5 it writes is
    the one loaded from the file. *)
Lemma persisted_cvd_reloads_btc :
  load_last_cvd_from_separate_csv
    (w_fs (persistence_cycle io_ok noon 0 "/data" btc_world)) 0
    "/data/BTCUSDT_spot.csv" 6
  = 0.5%float.
Proof.
  apply (persisted_cvd_reloads sample_decode_ascii sample_csv_rows io_ok noon 0 "/data"
           btc_world btc_key btc_entry2 [] 6).
  - repeat constructor. discriminate.
  - apply list_elem_of_singleton. reflexivity.
  - vm_compute. reflexivity.
  - exists (values_of btc_entry2). vm_compute. reflexivity.
  - reflexivity.
  - reflexivity.
  - reflexivity.
  - split; [constructor | vm_compute; reflexivity].
  - repeat constructor.
  - vm_compute. lia.
  - vm_compute. reflexivity.
  - lia.
Defined.

(** C7 on a trade event without its price: nothing changes and the task
    goes on reading. *)
Lemma trade_without_price_dropped :
  calculate_cvd 3%float trade_without_price btc2 = btc2
  ∧ step (MsgBinary 3%float (bytes_of (json_text trade_without_price))) (Reading, btc2)
    = (Reading, btc2).
Proof.
  destruct (malformed_trade_dropped 3%float trade_without_price btc2) as [Hdrop Hstream].
  - right. right. left. reflexivity.
  - split; [exact Hdrop|].
    destruct (Hstream (bytes_of (json_text trade_without_price)) trade_without_price)
      as [Hbinary _].
    + vm_compute. reflexivity.
    + left. split; reflexivity.
    + exact Hbinary.
Defined.

(** C8, the claim as it is worded, on a task that reads from its
    connection: after [stop] the transport is as open as before, the
    monitor still holds its connection, and the next trade is taken in. *)
Lemma stop_leaves_transport_open :
  transport_open btc_reading = true
  ∧ transport_open (deliver btc_reading Stop) = true
  ∧ ws (fst (snd (deliver btc_reading Stop))) = Some 1%nat
  ∧ cvd (fst (snd (step (MsgText 1%float (json_text trade_buy_1))
                        (deliver btc_reading Stop)))) = 1%float.
Proof. repeat split; vm_compute; reflexivity. Qed.

(** C8 on the same task: the flag is down, the connection is kept, and the
    end of the stream finishes the task. *)
Lemma stop_then_end_of_stream :
  running (fst (snd (deliver btc_reading Stop))) = false
  ∧ ws (fst (snd (deliver btc_reading Stop))) = ws (fst (snd btc_reading))
  ∧ fst (step EndOfStream (deliver btc_reading Stop)) = Finished.
Proof.
  destruct (stop_clears_running_only btc_reading) as (Hflag & Hws & _ & _ & _ & _ & _ & Hend).
  split; [exact Hflag|]. split; [exact Hws|].
  apply Hend. right. split; [reflexivity|]. apply list_elem_of_In. cbn. tauto.
Defined.

(** C9 on two trades, a write of another monitor and a reset. *)
Lemma mirror_after_trades_and_reset :
  mirrors (fold_left apply_op
             [OpTrade 1%float trade_buy_1;
              OpForeign "ETHUSDT_spot" btc_entry2;
              OpTrade 2%float trade_sell_half;
              OpReset] btc0).
Proof.
  apply (store_mirrors_monitor ∅ 0 0%float 6 "/data" ("BTCUSDT", "spot") ∅).
  - exact btc0_constructed.
  - repeat constructor. discriminate.
Defined.

(** C10 on the first cycle of the instrument: one row in each layout, with
    the values of the entry. *)
Lemma layouts_agree_btc :
  let rows := collect noon "/data" (w_store btc_world) (w_monitors btc_world) in
  (CStr noon :: CStr btc_key :: values_of btc_entry2) ∈ fst rows
  ∧ dict_get "/data/BTCUSDT_spot.csv" (snd rows) = Some (CStr noon :: values_of btc_entry2).
Proof.
  destruct (layouts_agree io_ok noon 0 "/data" btc_world btc_key (values_of btc_entry2))
    as (_ & Hcombined & Hseparate & _).
  - repeat constructor. discriminate.
  - apply list_elem_of_singleton. reflexivity.
  - vm_compute. reflexivity.
  - reflexivity.
  - reflexivity.
  - reflexivity.
  - split; [exact Hcombined | exact Hseparate].
Defined.

End Scenarios.

(** * Further properties of the code *)

(** ** calculate_cvd over any sequence of events *)

Section Replay.
Context `{B : PyBuiltins}.

Lemma replay_snoc (events : list (float * json_value)) (ev : float * json_value)
    (st : mstate) :
  replay (events ++ [ev]) st = calculate_cvd (fst ev) (snd ev) (replay events st).
Proof. unfold replay. by rewrite fold_left_app. Qed.

Lemma accepted_snoc (events : list (float * json_value)) (ev : float * json_value) :
  accepted (events ++ [ev])
  = accepted events ++ match read_trade (snd ev) with Some t => [t] | None => [] end.
Proof. unfold accepted. rewrite omap_app. cbn. by destruct (read_trade (snd ev)). Qed.

(** What any call of [calculate_cvd] leaves alone: the key of the monitor,
    the entries of the other keys, and which keys have an entry. *)
Lemma calculate_cvd_frame (current_time : float) (trade_data : json_value) (st : mstate) :
  let st' := calculate_cvd current_time trade_data st in
  shared_key (fst st') = shared_key (fst st)
  ∧ (∀ k, k ≠ shared_key (fst st) → snd st' !! k = snd st !! k)
  ∧ (∀ k, is_Some (snd st' !! k) ↔ is_Some (snd st !! k)).
Proof.
  destruct st as [self data_store]. unfold calculate_cvd.
  destruct (read_trade trade_data) as [[[quantity is_buyer_maker] price]|]; [|done].
  cbn [shared_key set_trade].
  destruct (data_store !! shared_key self) as [e|] eqn:He; [|done].
  cbn [set_stats trade_count last_log_time].
  assert (Hdom : ∀ (e' : entry) k,
            is_Some (<[shared_key self := e']> data_store !! k) ↔ is_Some (data_store !! k)).
  { intros e' k. destruct (decide (k = shared_key self)) as [->|Hk].
    - rewrite lookup_insert_eq, He. split; eauto.
    - by rewrite lookup_insert_ne. }
  destruct (60 <=? _)%float; cbn [fst snd set_stats shared_key];
    (split; [done|]); (split; [|apply Hdom]);
    intros k Hk; by rewrite lookup_insert_ne.
Qed.

Lemma replay_key_entry (events : list (float * json_value)) (st : mstate) :
  is_Some (snd st !! shared_key (fst st)) →
  shared_key (fst (replay events st)) = shared_key (fst st)
  ∧ is_Some (snd (replay events st) !! shared_key (fst (replay events st))).
Proof.
  intros Hst. induction events as [|ev events [IHk IHe]] using rev_ind; [done|].
  rewrite replay_snoc.
  destruct (calculate_cvd_frame (fst ev) (snd ev) (replay events st)) as (Hk & _ & Hdom).
  split; [congruence|]. rewrite Hk. by apply Hdom.
Qed.

(** X1. The events of a replay that cannot be read count for nothing: with
    the entry of the monitor in the store, [cvd] and [period_volume] are the
    sums over the events that are read, taken in their order from the values
    the monitor had, and [trade_count] has grown by their number. *)
Theorem replay_counts_accepted (events : list (float * json_value)) (st : mstate) :
  is_Some (snd st !! shared_key (fst st)) →
  let st' := replay events st in
  cvd (fst st')
    = fold_left (λ acc t, (acc + signed_quantity t)%float) (accepted events) (cvd (fst st))
  ∧ period_volume (fst st')
    = fold_left (λ acc t, (acc + quantity_of t)%float) (accepted events)
                (period_volume (fst st))
  ∧ trade_count (fst st') = trade_count (fst st) + Z.of_nat (length (accepted events)).
Proof.
  intros Hst. cbn zeta.
  induction events as [|ev events (IHc & IHv & IHn)] using rev_ind.
  { cbn. repeat split; lia. }
  rewrite replay_snoc, accepted_snoc.
  destruct (replay_key_entry events st Hst) as [_ Hentry].
  destruct (read_trade (snd ev)) as [t|] eqn:Hev.
  - destruct (calculate_cvd_accepted (fst ev) (snd ev) (replay events st) t Hev)
      as (Hc & Hv & _).
    destruct (calculate_cvd_counts (fst ev) (snd ev) (replay events st) t Hev Hentry)
      as (Hn & _).
    rewrite !fold_left_app, length_app. cbn [fold_left length].
    rewrite Hc, Hv, Hn, IHc, IHv, IHn. repeat split. lia.
  - rewrite calculate_cvd_unreadable by done. rewrite app_nil_r. done.
Qed.

(** X2. After a replay the [last_price] of the monitor is the price of the
    last event that could be read; it is the one the monitor had when none
    could. *)
Theorem replay_last_price (events : list (float * json_value)) (st : mstate) :
  last_price (fst (replay events st))
  = match last (accepted events) with
    | Some t => Some (snd t)
    | None => last_price (fst st)
    end.
Proof.
  induction events as [|ev events IH] using rev_ind; [done|].
  rewrite replay_snoc, accepted_snoc.
  destruct (read_trade (snd ev)) as [t|] eqn:Hev.
  - destruct (calculate_cvd_accepted (fst ev) (snd ev) (replay events st) t Hev)
      as (_ & _ & Hp & _).
    by rewrite Hp, last_snoc.
  - rewrite calculate_cvd_unreadable by done. by rewrite app_nil_r.
Qed.

Lemma calculate_cvd_count_le (current_time : float) (trade_data : json_value) (st : mstate) :
  trade_count (fst st) ≤ trade_count (fst (calculate_cvd current_time trade_data st)).
Proof.
  destruct st as [self data_store]. unfold calculate_cvd.
  destruct (read_trade trade_data) as [[[quantity is_buyer_maker] price]|]; [|done].
  cbn [shared_key set_trade]. destruct (data_store !! shared_key self); [|done].
  cbn [set_stats trade_count last_log_time].
  destruct (60 <=? _)%float; cbn [fst set_stats set_trade trade_count]; lia.
Qed.

(** X3. The counter of a monitor never goes down, whatever happens to the
    monitor and the store: trades that are read or not, resets of the
    period volume, writes of other monitors. *)
Theorem trade_count_never_decreases (ops : list op) (st : mstate) :
  trade_count (fst st) ≤ trade_count (fst (fold_left apply_op ops st)).
Proof.
  induction ops as [|o ops IH] using rev_ind; [done|].
  rewrite fold_left_app. cbn [fold_left]. etrans; [exact IH|].
  destruct o as [current_time trade_data| |key e]; cbn [apply_op].
  - apply calculate_cvd_count_le.
  - destruct (fold_left apply_op ops st) as [self data_store]. unfold reset_period_volume.
    cbn [shared_key set_period_volume set_trade].
    by destruct (data_store !! shared_key self).
  - done.
Qed.

End Replay.

(** ** process_message *)

Section Messages.
Context `{B : PyBuiltins}.

Lemma py_eq_str_true (v : json_value) (s : string) : py_eq_str v s = true ↔ v = JStr s.
Proof.
  destruct v; cbn; try (split; [done | by intros [=]]).
  rewrite String.eqb_eq. split; [by intros -> | by intros [= ->]].
Qed.

(** The path ["data"; "e"] goes through what the path ["data"] gives. *)
Lemma at_pointer_data (data inner : json_value) :
  at_pointer ["data"] data = Some inner →
  at_pointer ["data"; "e"] data = at_pointer ["e"] inner.
Proof.
  destruct data as [| | | | | |fields]; try done. cbn [at_pointer].
  destruct (obj_get "data" fields); [|done]. by intros [= ->].
Qed.

(** X4. An envelope of the combined stream that names the stream of the
    monitor and wraps an event tagged as a trade is handled as the event it
    wraps. *)
Theorem envelope_as_bare (current_time : float) (message_bytes : list ascii)
    (data inner : json_value) (st : mstate) :
  json_parse message_bytes = Some data →
  at_pointer ["e"] data ≠ Some (JStr "aggTrade") →
  at_pointer ["stream"] data = Some (JStr (stream_name (fst st))) →
  at_pointer ["data"] data = Some inner →
  at_pointer ["e"] inner = Some (JStr "aggTrade") →
  process_message current_time message_bytes st = calculate_cvd current_time inner st.
Proof.
  intros Hparse Hraw Hstream Hdata Hinner. unfold process_message. rewrite Hparse.
  assert (match at_pointer ["e"] data with
          | Some event_type => py_eq_str event_type "aggTrade"
          | None => false
          end = false) as ->.
  { destruct (at_pointer ["e"] data) as [v|]; [|done].
    destruct (py_eq_str v "aggTrade") eqn:Hv; [|done].
    apply py_eq_str_true in Hv as ->. done. }
  rewrite Hstream, (at_pointer_data data inner Hdata), Hinner, Hdata.
  cbn [py_eq_str]. by rewrite !String.eqb_refl.
Qed.

(** X5. A message that parses but is neither an event tagged as a trade nor
    an envelope that names the stream of the monitor around such an event
    changes nothing. *)
Theorem other_messages_ignored (current_time : float) (message_bytes : list ascii)
    (data : json_value) (st : mstate) :
  json_parse message_bytes = Some data →
  at_pointer ["e"] data ≠ Some (JStr "aggTrade") →
  at_pointer ["stream"] data ≠ Some (JStr (stream_name (fst st)))
  ∨ at_pointer ["data"; "e"] data ≠ Some (JStr "aggTrade") →
  process_message current_time message_bytes st = st.
Proof.
  intros Hparse Hraw Hother. unfold process_message. rewrite Hparse.
  assert (match at_pointer ["e"] data with
          | Some event_type => py_eq_str event_type "aggTrade"
          | None => false
          end = false) as ->.
  { destruct (at_pointer ["e"] data) as [v|]; [|done].
    destruct (py_eq_str v "aggTrade") eqn:Hv; [|done].
    apply py_eq_str_true in Hv as ->. done. }
  destruct (at_pointer ["stream"] data) as [stream|]; [|done].
  destruct (at_pointer ["data"; "e"] data) as [event_type|]; [|done].
  destruct (py_eq_str stream _) eqn:Hs; [|done].
  destruct (py_eq_str event_type _) eqn:He; [|done].
  apply py_eq_str_true in Hs as ->. apply py_eq_str_true in He as ->.
  by destruct Hother.
Qed.

Lemma frames_refl (st : mstate) : frames st st.
Proof. by repeat split. Qed.

Lemma frames_trans (st1 st2 st3 : mstate) : frames st1 st2 → frames st2 st3 → frames st1 st3.
Proof.
  intros (Hk & Hother & Hdom) (Hk' & Hother' & Hdom'). split; [congruence|]. split.
  - intros k Hne. rewrite Hother' by congruence. by apply Hother.
  - intros k. by rewrite Hdom'.
Qed.

Lemma process_message_frames (current_time : float) (message_bytes : list ascii)
    (st : mstate) :
  frames st (process_message current_time message_bytes st).
Proof.
  unfold process_message.
  destruct (json_parse message_bytes) as [data|]; [|apply frames_refl].
  destruct (match at_pointer ["e"] data with Some _ => _ | None => _ end).
  { apply calculate_cvd_frame. }
  destruct (at_pointer ["stream"] data); [|apply frames_refl].
  destruct (at_pointer ["data"; "e"] data); [|apply frames_refl].
  destruct (_ && _); [|apply frames_refl].
  destruct (at_pointer ["data"] data); [|apply frames_refl].
  apply calculate_cvd_frame.
Qed.

Lemma step_frames (ev : wake) (t : task) : frames (snd t) (snd (step ev t)).
Proof.
  destruct t as [at_ [self data_store]].
  destruct at_, ev; cbn [step fst snd]; try apply frames_refl;
    try apply process_message_frames; by repeat split.
Qed.

(** X6. Whatever happens to the task of a monitor, it writes to the entry
    of its own key only: the key stays what it was, the entries of the other
    keys are not touched, and no entry is added or removed. *)
Theorem task_writes_own_entry_only (actions : list action) (t : task) :
  let t' := run actions t in
  shared_key (fst (snd t')) = shared_key (fst (snd t))
  ∧ (∀ k, k ≠ shared_key (fst (snd t)) → snd (snd t') !! k = snd (snd t) !! k)
  ∧ (∀ k, is_Some (snd (snd t') !! k) ↔ is_Some (snd (snd t) !! k)).
Proof.
  cbn zeta. change (frames (snd t) (snd (run actions t))).
  induction actions as [|a actions IH] using rev_ind; [apply frames_refl|].
  rewrite run_app. cbn [run fold_left]. eapply frames_trans; [exact IH|].
  destruct a as [ev|]; cbn [deliver]; [apply step_frames|].
  by repeat split.
Qed.

(** X7. The four values of a monitor and the store change only when a
    message arrives while the task reads from its connection: nothing else
    that happens to a task touches them, not [stop], a reconnection or a
    cancellation. *)
Theorem trade_data_changes_on_messages_only (t : task) (a : action) :
  is_message a = false ∨ fst t ≠ Reading →
  trade_data_of (deliver t a) = trade_data_of t.
Proof.
  intros H. destruct t as [at_ [self data_store]].
  destruct a as [ev|]; [|done]. cbn [deliver].
  destruct at_, ev; cbn [step]; try done; by destruct H.
Qed.

End Messages.

(** ** connect_and_monitor and the end of main *)

Section Lifecycle.
Context `{B : PyBuiltins}.

Lemma loop_head_not_reading (self : SymbolCvdMonitor) : loop_head self ≠ Reading.
Proof.
  unfold loop_head, after_sleep. destruct (running self); cbn [negb]; [|done].
  destruct (_ <=? _); [done|]. by destruct (_ <? _).
Qed.

Lemma after_sleep_not_reading (self : SymbolCvdMonitor) : after_sleep self ≠ Reading.
Proof. unfold after_sleep. by destruct (negb _). Qed.

Lemma no_connection (at_ : suspended) (w : option nat) :
  w = None → at_ ≠ Reading → (is_Some w ↔ at_ = Reading).
Proof. intros -> Hat. split; [by intros [? ?] | done]. Qed.

Lemma init_conn_inv fs now current_time max_age data_dir config data_store (st : mstate) :
  init fs now current_time max_age data_dir config data_store = Some st →
  conn_inv (NotStarted, st).
Proof.
  intros Hinit. split; [by eapply init_configured|]. revert Hinit.
  unfold init. destruct config as [symbol ty].
  destruct (get_websocket_url _ _); [|done]. intros [= <-]. cbn.
  split; [lia|]. by apply no_connection.
Qed.

Lemma step_conn_inv (ev : wake) (t : task) : conn_inv t → conn_inv (step ev t).
Proof.
  intros (Hl & Hn & Hws). split; [by apply step_inv|].
  destruct t as [at_ [self data_store]]. cbn [fst snd] in *.
  destruct Hl as [_ Hat]. cbn [fst snd] in Hat.
  assert (Hnone : at_ ≠ Reading → ws self = None).
  { intros Hne. destruct (ws self) as [w|]; [|done]. destruct Hne. apply Hws. eauto. }
  assert (Hre : 0 ≤ reconnect_attempts self < 20 →
                let t' := reconnect (self, data_store) in
                0 ≤ reconnect_attempts (fst (snd t')) ≤ 20
                ∧ (is_Some (ws (fst (snd t'))) ↔ fst t' = Reading)).
  { intros Hlt. unfold reconnect, finally. cbn [fst snd set_conn reconnect_attempts ws].
    split; [destruct (running self); lia|].
    apply no_connection; [done | apply loop_head_not_reading]. }
  assert (Hmsg : ∀ current_time message_bytes,
            at_ = Reading →
            let st' := process_message current_time message_bytes (self, data_store) in
            0 ≤ reconnect_attempts (fst st') ≤ 20
            ∧ (is_Some (ws (fst st')) ↔ Reading = Reading)).
  { intros current_time message_bytes ->.
    destruct (process_message_conn current_time message_bytes (self, data_store))
      as (_ & Hw & Ha & _). cbn [fst] in Hw, Ha. cbn zeta. by rewrite Hw, Ha. }
  destruct at_ as [|delay| | |]; destruct ev; cbn [step fst snd];
    try (split; [done | done]);
    try (apply Hre; lia);
    try (by apply Hmsg);
    try (split; [done | apply no_connection;
                        [by apply Hnone
                        | apply loop_head_not_reading || apply after_sleep_not_reading
                          || done]]).
  - (* cancelled while connecting *)
    unfold finally. cbn [set_conn reconnect_attempts ws].
    split; [destruct (running self); lia | by apply no_connection].
  - (* cancelled while reading *)
    unfold finally. cbn [set_conn reconnect_attempts ws].
    split; [destruct (running self); lia | by apply no_connection].
Qed.

Lemma deliver_conn_inv (t : task) (a : action) : conn_inv t → conn_inv (deliver t a).
Proof.
  destruct a as [ev|]; [apply step_conn_inv|].
  destruct t as [at_ [self data_store]]. intros ([Hc Hat] & Hn & Hws).
  split; [by split|]. by split.
Qed.

Lemma run_conn_inv (actions : list action) (t : task) : conn_inv t → conn_inv (run actions t).
Proof.
  revert t. induction actions as [|a actions IH]; intros t Ht; [done|].
  apply IH, deliver_conn_inv, Ht.
Qed.

Lemma backoff_delay_range (n : Z) : 1 ≤ n → 10 ≤ backoff_delay n ≤ 60.
Proof.
  intros Hn. unfold backoff_delay.
  assert (2 ^ 1 ≤ 2 ^ n) by (apply Z.pow_le_mono_r; lia).
  change (2 ^ 1) with 2 in *. lia.
Qed.

(** X8. Wherever the task of a constructed monitor is suspended, after any
    resumptions, connection outcomes, messages, cancellations and calls of
    [stop]: the monitor holds a connection in [ws] exactly while the task
    reads from it, the counter of attempts is between 0 and 20, and a sleep
    before a reconnection lasts between 10 and 60 seconds. *)
Theorem connection_held_while_reading fs now current_time max_age data_dir config
    data_store (st0 : mstate) (actions : list action) :
  init fs now current_time max_age data_dir config data_store = Some st0 →
  let t := connect_and_monitor actions st0 in
  (is_Some (ws (fst (snd t))) ↔ fst t = Reading)
  ∧ 0 ≤ reconnect_attempts (fst (snd t)) ≤ 20
  ∧ ∀ delay, fst t = Sleeping delay → 10 ≤ delay ≤ 60.
Proof.
  intros Hinit t.
  destruct (run_conn_inv actions (NotStarted, st0)) as ([_ Hat] & Hn & Hws).
  { by eapply init_conn_inv. }
  fold (connect_and_monitor actions st0) in Hat, Hn, Hws. fold t in Hat, Hn, Hws.
  split; [done|]. split; [done|].
  intros delay Hsleep. rewrite Hsleep in Hat. destruct Hat as [Hge ->].
  apply backoff_delay_range. lia.
Qed.

(** X9. The end of [main] finishes the task of every monitor it stops and
    cancels, wherever the task was: the task is over and stays so, the flag
    is down, the connection is released, and neither the counter of attempts
    nor the values of the trades nor the store have changed. *)
Theorem shut_down_finishes fs now current_time max_age data_dir config data_store
    (st0 : mstate) (actions : list action) :
  init fs now current_time max_age data_dir config data_store = Some st0 →
  let t := connect_and_monitor actions st0 in
  let t' := shut_down t in
  fst t' = Finished
  ∧ (∀ more, fst (run more t') = Finished)
  ∧ running (fst (snd t')) = false
  ∧ ws (fst (snd t')) = None
  ∧ reconnect_attempts (fst (snd t')) = reconnect_attempts (fst (snd t))
  ∧ trade_data_of t' = trade_data_of t.
Proof.
  intros Hinit t.
  destruct (run_conn_inv actions (NotStarted, st0)) as (_ & _ & Hws).
  { by eapply init_conn_inv. }
  fold (connect_and_monitor actions st0) in Hws. fold t in Hws. clearbody t.
  destruct t as [at_ [self data_store']]. cbn [fst snd] in Hws.
  assert (Hnone : at_ ≠ Reading → ws self = None).
  { intros Hne. destruct (ws self) as [w|]; [|done]. destruct Hne. apply Hws. eauto. }
  assert (Hfin : ∀ st, fst (Finished, st) = Finished
                       ∧ ∀ more, fst (run more (Finished, st)) = Finished).
  { intros st. split; [done | intros more; apply run_finished]. }
  unfold shut_down, deliver, stop. cbn [fst snd].
  destruct at_ as [|delay| | |]; cbn [step finally set_conn running fst snd];
    (split; [done|]); (split; [intros more; apply run_finished|]);
    cbn [set_conn running ws reconnect_attempts]; repeat split; by apply Hnone.
Qed.

End Lifecycle.

(** ** load_last_cvd_from_separate_csv: the age and the last chunk *)

Section Chunk.
Context `{B : PyBuiltins}.

(** The age in whole days exceeds the limit from [max_age_days + 1] full
    days on. *)
Lemma too_old_iff (now mtime max_age_days : Z) :
  (max_age_days <? age_days now mtime) = true
  ↔ (max_age_days + 1) * microseconds_per_day ≤ now - mtime.
Proof.
  unfold age_days. rewrite Z.ltb_lt.
  assert (Hday : 0 < microseconds_per_day) by done.
  pose proof (Z.mul_div_le (now - mtime) microseconds_per_day Hday).
  pose proof (Z.mul_succ_div_gt (now - mtime) microseconds_per_day Hday).
  split; intros; nia.
Qed.

(** X10. The age of a log counts in whole days: a file modified
    [max_age_days + 1] full days ago or more loads 0.0 whatever it holds,
    and below that the value loaded depends on the bytes of the file
    only, not on the dates or the limit. *)
Theorem load_last_cvd_age (fs : gmap string file) (now : Z) (path : string)
    (max_age_days : Z) (f : file) :
  fs !! path = Some f →
  ((max_age_days + 1) * microseconds_per_day ≤ now - f_mtime f →
   load_last_cvd_from_separate_csv fs now path max_age_days = 0%float)
  ∧ (now - f_mtime f < (max_age_days + 1) * microseconds_per_day →
     ∀ (fs' : gmap string file) (now' : Z) (path' : string) (max_age_days' : Z) (f' : file),
       fs' !! path' = Some f' →
       f_bytes f' = f_bytes f →
       now' - f_mtime f' < (max_age_days' + 1) * microseconds_per_day →
       load_last_cvd_from_separate_csv fs' now' path' max_age_days'
       = load_last_cvd_from_separate_csv fs now path max_age_days).
Proof.
  intros Hf. unfold load_last_cvd_from_separate_csv. rewrite Hf. split.
  - intros Hold. apply too_old_iff in Hold. by rewrite Hold.
  - intros Hfresh fs' now' path' max_age_days' f' Hf' Hbytes Hfresh'. rewrite Hf', Hbytes.
    destruct (max_age_days <? _) eqn:H1; [apply too_old_iff in H1; lia|].
    destruct (max_age_days' <? _) eqn:H2; [apply too_old_iff in H2; lia|]. done.
Qed.

Lemma last_chunk_app (before bytes : list ascii) :
  (4096 ≤ length bytes)%nat →
  skipn (length (before ++ bytes) - Nat.min (length (before ++ bytes)) 4096) (before ++ bytes)
  = skipn (length bytes - Nat.min (length bytes) 4096) bytes.
Proof.
  intros Hlen. rewrite length_app.
  rewrite !Nat.min_r by lia. rewrite skipn_app.
  rewrite skipn_all2 by lia. cbn [app]. f_equal. lia.
Qed.

(** X11. Of a file of 4096 bytes or more the loader reads the last 4096
    bytes only: whatever precedes them in the file, the value loaded is the
    same. *)
Theorem load_reads_last_chunk (fs : gmap string file) (now : Z) (path : string)
    (max_age_days : Z) (f : file) (before : list ascii) :
  fs !! path = Some f →
  (4096 ≤ length (f_bytes f))%nat →
  load_last_cvd_from_separate_csv
    (<[path := {| f_mtime := f_mtime f; f_bytes := before ++ f_bytes f |}]> fs)
    now path max_age_days
  = load_last_cvd_from_separate_csv fs now path max_age_days.
Proof.
  intros Hf Hlen. unfold load_last_cvd_from_separate_csv.
  rewrite lookup_insert_eq, Hf. cbn [f_mtime f_bytes].
  destruct (max_age_days <? _); [done|].
  assert (Hlen' : (4096 ≤ length (before ++ f_bytes f))%nat) by (rewrite length_app; lia).
  destruct (Nat.eqb_spec (length (before ++ f_bytes f)) 0); [lia|].
  destruct (Nat.eqb_spec (length (f_bytes f)) 0); [lia|].
  destruct (Nat.ltb_spec (length (before ++ f_bytes f)) 100); [lia|].
  destruct (Nat.ltb_spec (length (f_bytes f)) 100); [lia|].
  unfold last_line_of. by rewrite last_chunk_app.
Qed.

End Chunk.

(** ** From a cycle to the next start *)

Section NextStart.
Context `{B : PyBuiltins}.

(** Of the library, as for the round trip: the decoder leaves ASCII bytes
    as they are, and the CSV reader finds one row in each complete line of
    text. *)
Hypothesis decode_ascii :
  ∀ b, Forall (λ c, is_ascii7 c = true) b → utf8_ignore b = b.
Hypothesis csv_rows_of_text :
  ∀ lines, Forall text lines → csv_row_count (crlf_text lines) = Some (length lines).

(** A log that is not too old and is made of two complete lines of text or
    more, the last one within the last chunk, loads what its last line
    holds. *)
Lemma load_text_log (fs : gmap string file) (now : Z) (path : string) (max_age_days : Z)
    (f : file) (before : list (list ascii)) (row : list ascii) :
  fs !! path = Some f →
  f_bytes f = crlf_text (before ++ [row]) →
  before ≠ [] →
  Forall text (before ++ [row]) →
  (length row + 2 ≤ 4096)%nat →
  age_days now (f_mtime f) ≤ max_age_days →
  load_last_cvd_from_separate_csv fs now path max_age_days
  = match parse_last_line row with Some last_cvd => last_cvd | None => 0%float end.
Proof.
  intros Hf Hbytes Hne Hall Hlen Hage.
  unfold load_last_cvd_from_separate_csv. rewrite Hf, Hbytes.
  destruct (Z.ltb_spec max_age_days (age_days now (f_mtime f))); [lia|].
  assert (Hsize : length (crlf_text (before ++ [row]))
                  = (length (crlf_text before) + (length row + 2))%nat).
  { rewrite crlf_text_snoc, !length_app. done. }
  destruct (Nat.eqb_spec (length (crlf_text (before ++ [row]))) 0) as [Hz|_]; [lia|].
  assert (Hcount : (if (length (crlf_text (before ++ [row])) <? 100)%nat
                    then match csv_row_count (crlf_text (before ++ [row])) with
                         | Some row_count => Some (row_count <=? 1)%nat
                         | None => None
                         end
                    else Some false) = Some false).
  { destruct (_ <? 100)%nat; [|done]. rewrite csv_rows_of_text by done.
    rewrite length_app. cbn [length]. destruct before; [done|]. cbn [length].
    f_equal. apply Nat.leb_gt. lia. }
  rewrite Hcount.
  assert (Hlast : last_line_of (crlf_text (before ++ [row])) = row).
  { apply Forall_app in Hall as Hparts. destruct Hparts as [_ Hrow].
    apply Forall_cons in Hrow as [Hrow _].
    unfold last_line_of. rewrite decode_ascii.
    - rewrite crlf_text_snoc. apply last_line_of_chunk; [|done|].
      + destruct (crlf_text_ends before) as [[? _]|?]; [done | by right].
      + rewrite length_app, length_app. cbn [length]. lia.
    - apply Forall_drop, crlf_text_ascii7, Hall. }
  by rewrite Hlast.
Qed.

(** The third field of the line of a row is the printed [cvd]. *)
Lemma parse_row_line (timestamp : string) (e : entry) :
  Forall (λ c, plain (bytes_of (cell_str c))) (CStr timestamp :: values_of e) →
  parse_last_line (row_line timestamp e) = float_of_str (float_repr (e_cvd e)).
Proof.
  intros Hplain.
  apply Forall_cons in Hplain as [Ht Hplain]. unfold values_of in Hplain.
  apply Forall_cons in Hplain as [Hp Hplain]. apply Forall_cons in Hplain as [Hc _].
  cbn [cell_str] in Ht, Hp, Hc.
  unfold parse_last_line. destruct (row_line timestamp e) as [|c0 row] eqn:Hrow.
  { unfold row_line in Hrow. by destruct (bytes_of timestamp). }
  rewrite <- Hrow. unfold row_line.
  rewrite !split_plain_field by done. cbn [length List.nth Nat.leb].
  unfold str_of, bytes_of. by rewrite string_of_list_ascii_of_string.
Qed.

(** X12. A monitor constructed after a cycle over the files the cycle left
    continues from the [cvd] the cycle wrote for its key and starts the
    rest anew: period volume 0.0, no last price, a trade count of 0, in the
    monitor and in its entry of the store. The row is one that is not
    skipped, its log was absent or held complete lines of text, its cells
    print as plain fields within 4096 bytes and [float] reads the printed
    [cvd] back. *)
Theorem restart_continues_from_log (env : io) (timestamp : string) (now : Z)
    (data_dir : string) (w : world) (symbol ty : string) (e : entry)
    (lines : list (list ascii)) (max_age_days : Z) (current_time : float)
    (data_store : gmap string entry) :
  let key := key_of symbol ty in
  Forall (λ item, instrument_key (fst item)) (w_monitors w) →
  key ∈ map fst (w_monitors w) →
  w_store w !! key = Some e →
  is_Some (read_entry (w_store w) key) →
  makedirs_fails env = false →
  open_fails env (unified_csv_of data_dir) = false →
  open_fails env (csv_path_of data_dir key) = false →
  log_before (w_fs w) (csv_path_of data_dir key) lines →
  Forall (λ c, plain (bytes_of (cell_str c))) (CStr timestamp :: values_of e) →
  (length (csv_line (CStr timestamp :: values_of e)) ≤ 4096)%nat →
  float_of_str (float_repr (e_cvd e)) = Some (e_cvd e) →
  0 ≤ max_age_days →
  supported ty = true →
  ∃ st,
    init (w_fs (persistence_cycle env timestamp now data_dir w)) now current_time
         max_age_days data_dir (symbol, ty) data_store = Some st
    ∧ cvd (fst st) = e_cvd e
    ∧ period_volume (fst st) = 0%float
    ∧ last_price (fst st) = None
    ∧ trade_count (fst st) = 0
    ∧ snd st !! key
      = Some {| e_cvd := e_cvd e; e_last_price := None; e_period_volume := 0%float;
                e_trade_count := 0 |}.
Proof.
  intros key Hkeys Hkey He Hread Hmk Hopen Hopen_key Hlog Hplain Hlen Hround Hage Hty.
  destruct (log_after_cycle env timestamp now data_dir w key e lines)
    as (Hline & Hrow & before & Hfile & Hbefore_ne & Hall & _); [done..|].
  assert (Hload : load_last_cvd_from_separate_csv
                    (w_fs (persistence_cycle env timestamp now data_dir w)) now
                    (csv_path_of data_dir key) max_age_days = e_cvd e).
  { rewrite (load_text_log _ now _ max_age_days _ before (row_line timestamp e) Hfile);
      [|done|done|done| |].
    - by rewrite parse_row_line, Hround.
    - rewrite Hline, length_app in Hlen. cbn [length] in Hlen. lia.
    - cbn [f_mtime]. unfold age_days. by rewrite Z.sub_diag. }
  unfold init. fold key. rewrite Hload.
  assert (is_Some (get_websocket_url ty (lower symbol +:+ "@aggTrade"))) as [url ->].
  { unfold get_websocket_url, supported in *.
    destruct (String.eqb ty "spot"); [eauto|].
    destruct (String.eqb ty "usdt-m"); [eauto|].
    destruct (String.eqb ty "coin-m"); [eauto | done]. }
  eexists. split; [done|]. cbn [fst snd cvd period_volume last_price trade_count].
  repeat split. by rewrite lookup_insert_eq.
Qed.

End NextStart.

(** ** save_cvd_data_both_modes: what a cycle leaves alone *)

Section Cycle.
Context `{B : PyBuiltins}.

Lemma extends_refl (fs : gmap string file) : extends fs fs.
Proof. intros path. split; [done|]. exists []. by rewrite app_nil_r. Qed.

Lemma extends_trans (fs1 fs2 fs3 : gmap string file) :
  extends fs1 fs2 → extends fs2 fs3 → extends fs1 fs3.
Proof.
  intros H12 H23 path. destruct (H12 path) as [Hin (more & Hb)].
  destruct (H23 path) as [Hin' (more' & Hb')]. split; [auto|].
  exists (more ++ more'). by rewrite Hb', Hb, app_assoc.
Qed.

Lemma append_file_extends (now : Z) (path : string) (data : list ascii)
    (fs : gmap string file) :
  extends fs (append_file now path data fs).
Proof.
  intros path'. unfold append_file, bytes_at.
  destruct (decide (path = path')) as [->|Hne].
  - rewrite lookup_insert_eq. split; [eauto|]. by exists data.
  - rewrite lookup_insert_ne by done. split; [done|]. exists []. by rewrite app_nil_r.
Qed.

Lemma write_separate_extends (env : io) (now : Z) (separate_files : list (string * list cell))
    (fs : gmap string file) :
  extends fs (fold_left (write_separate env now) separate_files fs).
Proof.
  revert fs. induction separate_files as [|[csv_file row_data] rest IH]; intros fs.
  { apply extends_refl. }
  cbn [fold_left]. eapply extends_trans; [|apply IH].
  unfold write_separate. destruct (open_fails env csv_file); [apply extends_refl|].
  apply append_file_extends.
Qed.

(** X13. A cycle only ever appends: whether it completes or raises, every
    file that was there is still there and holds what it held, followed by
    what the cycle added. *)
Theorem cycle_appends_only (env : io) (timestamp : string) (now : Z) (data_dir : string)
    (w : world) (path : string) :
  let fs' := w_fs (persistence_cycle env timestamp now data_dir w) in
  (is_Some (w_fs w !! path) → is_Some (fs' !! path))
  ∧ ∃ more, bytes_at fs' path = bytes_at (w_fs w) path ++ more.
Proof.
  cbn zeta. revert path.
  change (extends (w_fs w) (w_fs (persistence_cycle env timestamp now data_dir w))).
  unfold persistence_cycle, save_cvd_data_both_modes.
  destruct (makedirs_fails env); [apply extends_refl|].
  destruct (collect _ _ _ _) as [unified_rows separate_files].
  assert (Hsep : ∀ fs, extends (w_fs w) fs →
            extends (w_fs w)
              (w_fs (state_of
                 (match reset_all (w_monitors w) (w_store w) with
                  | Ok (monitors, data_store) =>
                      Ok {| w_fs := fold_left (write_separate env now) separate_files fs;
                            w_store := data_store; w_monitors := monitors |}
                  | Raised (monitors, data_store) =>
                      Raised {| w_fs := fold_left (write_separate env now) separate_files fs;
                                w_store := data_store; w_monitors := monitors |}
                  end)))).
  { intros fs Hfs. eapply extends_trans; [exact Hfs|].
    destruct (reset_all _ _) as [[]|[]]; apply write_separate_extends. }
  destruct unified_rows as [|row rows]; [apply Hsep, extends_refl|].
  destruct (open_fails env (unified_csv_of data_dir)); [apply extends_refl|].
  apply Hsep, append_file_extends.
Qed.

Lemma reset_all_totals (monitors : list (string * SymbolCvdMonitor))
    (data_store : gmap string entry) :
  let after := state_of (reset_all monitors data_store) in
  map (λ item, (fst item, totals_of (snd item))) (fst after)
  = map (λ item, (fst item, totals_of (snd item))) monitors
  ∧ ∀ k, entry_totals <$> snd after !! k = entry_totals <$> data_store !! k.
Proof.
  cbn zeta. revert data_store.
  induction monitors as [|[key monitor] rest IH]; intros data_store; [done|].
  cbn [reset_all]. unfold reset_period_volume.
  cbn [shared_key set_period_volume set_trade].
  destruct (data_store !! shared_key monitor) as [e|] eqn:He; [|done].
  specialize (IH (<[shared_key monitor := clear_volume e]> data_store)).
  destruct (reset_all rest _) as [[rest' data_store']|[rest' data_store']];
    cbn [state_of fst snd map] in *; destruct IH as [IHm IHs];
    (split; [by rewrite IHm|]); intros k; rewrite IHs;
    (destruct (decide (k = shared_key monitor)) as [->|Hk];
     [by rewrite lookup_insert_eq, He | by rewrite lookup_insert_ne]).
Qed.

(** X14. A cycle, whether it completes or raises, changes neither the
    [cvd], nor the last price, nor the trade count of any monitor or of any
    entry of the store, and keeps the monitors under their keys in their
    order. *)
Theorem cycle_keeps_totals (env : io) (timestamp : string) (now : Z) (data_dir : string)
    (w : world) :
  let w' := persistence_cycle env timestamp now data_dir w in
  map (λ item, (fst item, totals_of (snd item))) (w_monitors w')
  = map (λ item, (fst item, totals_of (snd item))) (w_monitors w)
  ∧ ∀ k, entry_totals <$> w_store w' !! k = entry_totals <$> w_store w !! k.
Proof.
  cbn zeta. unfold persistence_cycle, save_cvd_data_both_modes.
  destruct (makedirs_fails env); [done|].
  destruct (collect _ _ _ _) as [unified_rows separate_files].
  pose proof (reset_all_totals (w_monitors w) (w_store w)) as Hreset.
  destruct unified_rows as [|row rows];
    [|destruct (open_fails env (unified_csv_of data_dir)); [done|]];
    by destruct (reset_all _ _) as [[]|[]].
Qed.

Lemma collect_rows_nonempty (timestamp data_dir : string) (data_store : gmap string entry)
    (monitors : list (string * SymbolCvdMonitor)) (key : string) :
  key ∈ map fst monitors →
  is_Some (read_entry data_store key) →
  fst (collect timestamp data_dir data_store monitors) ≠ [].
Proof.
  intros Hkey [values Hread].
  induction monitors as [|item monitors IH] using rev_ind.
  { by apply elem_of_nil in Hkey. }
  rewrite collect_snoc. unfold collect_step.
  destruct (collect timestamp data_dir data_store monitors) as [unified_rows separate_files].
  rewrite map_app in Hkey. apply elem_of_app in Hkey as [Hkey|Hkey].
  - specialize (IH Hkey). cbn [fst] in IH.
    destruct (read_entry data_store (fst item)); [|done].
    cbn [fst]. by destruct unified_rows.
  - apply list_elem_of_singleton in Hkey as <-. rewrite Hread. cbn [fst].
    by destruct unified_rows.
Qed.

(** X15. A cycle that cannot make the directory, or that has a row to write
    and cannot open the combined log, raises and leaves everything as it
    was: no file is written, and no period volume is reset. *)
Theorem failed_cycle_changes_nothing (env : io) (timestamp : string) (now : Z)
    (data_dir : string) (w : world) :
  makedirs_fails env = true
  ∨ (open_fails env (unified_csv_of data_dir) = true
     ∧ ∃ key, key ∈ map fst (w_monitors w) ∧ is_Some (read_entry (w_store w) key)) →
  save_cvd_data_both_modes env timestamp now data_dir w = Raised w.
Proof.
  unfold save_cvd_data_both_modes. intros [Hmk | (Hopen & key & Hkey & Hread)].
  { by rewrite Hmk. }
  destruct (makedirs_fails env); [done|].
  pose proof (collect_rows_nonempty timestamp data_dir (w_store w) _ key Hkey Hread) as Hne.
  destruct (collect _ _ _ _) as [unified_rows separate_files]. cbn [fst] in Hne.
  destruct unified_rows; [done|]. by rewrite Hopen.
Qed.

Lemma collect_all_skipped (timestamp data_dir : string) (data_store : gmap string entry)
    (monitors : list (string * SymbolCvdMonitor)) :
  Forall (λ item, read_entry data_store (fst item) = None) monitors →
  collect timestamp data_dir data_store monitors = ([], []).
Proof.
  intros Hall. induction monitors as [|item monitors IH] using rev_ind; [done|].
  apply Forall_app in Hall as [Hall Hitem]. apply Forall_cons in Hitem as [Hitem _].
  rewrite collect_snoc, (IH Hall). unfold collect_step. by rewrite Hitem.
Qed.

(** X16. When every instrument is skipped, having no entry or neither a
    price nor a [cvd] other than zero, a cycle writes nothing: no file is
    touched and the combined log is not even created. *)
Theorem skipped_instruments_write_nothing (env : io) (timestamp : string) (now : Z)
    (data_dir : string) (w : world) :
  Forall (λ item, read_entry (w_store w) (fst item) = None) (w_monitors w) →
  w_fs (persistence_cycle env timestamp now data_dir w) = w_fs w.
Proof.
  intros Hall. unfold persistence_cycle, save_cvd_data_both_modes.
  destruct (makedirs_fails env); [done|].
  rewrite (collect_all_skipped _ _ _ _ Hall). cbn [fold_left].
  by destruct (reset_all _ _) as [[]|[]].
Qed.

(** The cycle that does not abort. *)
Lemma cycle_aborts_or_writes (env : io) (timestamp : string) (now : Z) (data_dir : string)
    (w : world) :
  persistence_cycle env timestamp now data_dir w = w
  ∨ w_fs (persistence_cycle env timestamp now data_dir w)
    = let rows := collect timestamp data_dir (w_store w) (w_monitors w) in
      fold_left (write_separate env now) (snd rows)
        (match fst rows with
         | [] => w_fs w
         | _ => write_rows now (unified_csv_of data_dir) unified_header (fst rows) (w_fs w)
         end).
Proof.
  unfold persistence_cycle, save_cvd_data_both_modes.
  destruct (makedirs_fails env); [by left|].
  destruct (collect _ _ _ _) as [unified_rows separate_files]. cbn [fst snd].
  destruct unified_rows as [|row rows].
  { right. by destruct (reset_all _ _) as [[]|[]]. }
  destruct (open_fails env (unified_csv_of data_dir)); [by left|].
  right. by destruct (reset_all _ _) as [[]|[]].
Qed.

Lemma unified_rows_lookup (now : Z) (data_dir : string) (rows : list (list cell))
    (fs : gmap string file) (key : string) :
  instrument_key key →
  match rows with
  | [] => fs
  | _ => write_rows now (unified_csv_of data_dir) unified_header rows fs
  end !! csv_path_of data_dir key
  = fs !! csv_path_of data_dir key.
Proof.
  intros Hkey. destruct rows; [done|].
  rewrite write_rows_lookup, decide_False; [done|].
  intros Heq. by destruct (csv_path_not_unified data_dir key Hkey).
Qed.

(** X17. The log of an instrument is left as it is by a cycle in which the
    instrument is skipped, and by a cycle in which its [open] raises,
    whatever is written for the other instruments. *)
Theorem untouched_logs (env : io) (timestamp : string) (now : Z) (data_dir : string)
    (w : world) (key : string) :
  Forall (λ item, instrument_key (fst item)) (w_monitors w) →
  instrument_key key →
  read_entry (w_store w) key = None ∨ open_fails env (csv_path_of data_dir key) = true →
  w_fs (persistence_cycle env timestamp now data_dir w) !! csv_path_of data_dir key
  = w_fs w !! csv_path_of data_dir key.
Proof.
  intros Hkeys Hkey Hwhy.
  destruct (cycle_aborts_or_writes env timestamp now data_dir w) as [-> | ->]; [done|].
  cbn zeta.
  destruct (collect_sound timestamp data_dir (w_store w) (w_monitors w)) as (_ & Hs & Hnd).
  rewrite write_separate_lookup by done.
  destruct (dict_get _ _) as [row|] eqn:Hget; [|by apply unified_rows_lookup].
  destruct Hwhy as [Hskip | Hfail].
  - destruct (Hs _ _ Hget) as (key' & values & Hkey' & Hpath & Hread & _).
    rewrite Forall_forall in Hkeys. apply list_elem_of_In, in_map_iff in Hkey'.
    destruct Hkey' as (item & <- & Hitem%list_elem_of_In).
    apply csv_path_inj in Hpath; [|by destruct Hkey | by destruct (Hkeys _ Hitem)].
    congruence.
  - rewrite Hfail. by apply unified_rows_lookup.
Qed.

(** X18. A log of an instrument that cannot be opened costs neither the
    combined log nor the reset: when the directory and the combined log can
    be opened, the call returns, the combined log has received its header if
    it was new and every row, and the period volume of every monitor is
    0.0, whichever of the other files failed. *)
Theorem separate_failures_are_isolated (env : io) (timestamp : string) (now : Z)
    (data_dir : string) (w : world) :
  wf_world w →
  Forall (λ item, instrument_key (fst item)) (w_monitors w) →
  makedirs_fails env = false →
  open_fails env (unified_csv_of data_dir) = false →
  let rows := fst (collect timestamp data_dir (w_store w) (w_monitors w)) in
  let w' := persistence_cycle env timestamp now data_dir w in
  raised (save_cvd_data_both_modes env timestamp now data_dir w) = false
  ∧ bytes_at (w_fs w') (unified_csv_of data_dir)
    = bytes_at (w_fs w) (unified_csv_of data_dir)
      ++ match rows with
         | [] => []
         | _ => header_if_new (w_fs w) (unified_csv_of data_dir) unified_header
                ++ concat (map csv_line rows)
         end
  ∧ Forall (λ item, period_volume (snd item) = 0%float) (w_monitors w').
Proof.
  intros Hwf Hkeys Hmk Hopen rows w'.
  destruct (cycle_resets_period_volume env timestamp now data_dir w Hwf Hmk Hopen)
    as (Hok & Hmonitors & _).
  split; [done|]. split.
  - unfold w'. rewrite files_after_cycle by done. cbn zeta. fold rows.
    destruct (collect_sound timestamp data_dir (w_store w) (w_monitors w)) as (_ & _ & Hnd).
    unfold bytes_at at 1. rewrite write_separate_lookup by done.
    rewrite separate_not_unified by done.
    destruct rows; [by rewrite app_nil_r|].
    by rewrite write_rows_lookup, decide_True.
  - unfold w'. rewrite Hmonitors. apply Forall_map, Forall_forall. by intros item _.
Qed.

(** X19. Two cycles in a row for an instrument that is not skipped and had
    no log, with no trade between them: the log holds the header once, the
    row of the first cycle, and the row of the second with the same values
    but for a period volume of 0.0. *)
Theorem two_cycles_one_header (env env' : io) (timestamp timestamp' : string)
    (now now' : Z) (data_dir : string) (w : world) (key : string) (e : entry) :
  wf_world w →
  Forall (λ item, instrument_key (fst item)) (w_monitors w) →
  key ∈ map fst (w_monitors w) →
  w_store w !! key = Some e →
  is_Some (read_entry (w_store w) key) →
  w_fs w !! csv_path_of data_dir key = None →
  makedirs_fails env = false →
  open_fails env (unified_csv_of data_dir) = false →
  open_fails env (csv_path_of data_dir key) = false →
  makedirs_fails env' = false →
  open_fails env' (unified_csv_of data_dir) = false →
  open_fails env' (csv_path_of data_dir key) = false →
  bytes_at (w_fs (persistence_cycle env' timestamp' now' data_dir
                    (persistence_cycle env timestamp now data_dir w)))
           (csv_path_of data_dir key)
  = csv_line separate_header
    ++ csv_line (CStr timestamp :: values_of e)
    ++ csv_line (CStr timestamp' :: values_of (clear_volume e)).
Proof.
  intros Hwf Hkeys Hkey He [values Hread] Hnew Hmk Hopen Hopen_key Hmk' Hopen' Hopen_key'.
  destruct (read_entry_values _ _ _ Hread) as (e0 & He0 & ->).
  assert (e0 = e) as -> by congruence. clear He0.
  destruct (cycle_resets_period_volume env timestamp now data_dir w Hwf Hmk Hopen)
    as (_ & Hmonitors & Hstore).
  pose proof (separate_file_after_cycle env timestamp now data_dir w key (values_of e)
                Hkeys Hkey Hread Hmk Hopen Hopen_key) as Hfile.
  set (w1 := persistence_cycle env timestamp now data_dir w) in *.
  assert (Hfst : map fst (w_monitors w1) = map fst (w_monitors w)).
  { rewrite Hmonitors, map_map. done. }
  assert (Hkeys1 : Forall (λ item, instrument_key (fst item)) (w_monitors w1)).
  { rewrite Hmonitors. apply Forall_map. eapply Forall_impl; [exact Hkeys | done]. }
  assert (He1 : w_store w1 !! key = Some (clear_volume e)).
  { rewrite Hstore, decide_True by done. by rewrite He. }
  assert (Hread1 : read_entry (w_store w1) key = Some (values_of (clear_volume e))).
  { revert Hread. unfold read_entry. rewrite He, He1. cbn [clear_volume e_cvd e_last_price].
    by destruct (_ && _). }
  unfold bytes_at at 1.
  rewrite (separate_file_after_cycle env' timestamp' now' data_dir w1 key
             (values_of (clear_volume e))); [|done|by rewrite Hfst|done..].
  cbn [f_bytes]. unfold bytes_at, header_if_new. rewrite Hfile. cbn [f_bytes].
  unfold bytes_at, header_if_new. rewrite Hnew. cbn [app].
  by rewrite <- app_assoc.
Qed.

End Cycle.

(** ** From the configuration to the monitors of main *)

Section Configuration.
Context `{B : PyBuiltins}.

Lemma bytes_of_str_of (l : list ascii) : bytes_of (str_of l) = l.
Proof. apply list_ascii_of_string_of_list_ascii. Qed.

Lemma bytes_of_append (a b : string) : bytes_of (a +:+ b) = bytes_of a ++ bytes_of b.
Proof.
  induction a as [|x a IH]; [done|].
  change (x :: bytes_of (a +:+ b) = x :: bytes_of a ++ bytes_of b). by f_equal.
Qed.

Lemma remove_char_no_slash (s : string) : no_slash (remove_char "/" s).
Proof.
  unfold no_slash, contains, remove_char. rewrite bytes_of_str_of.
  induction (bytes_of s) as [|c l IH]; [done|]. cbn [List.filter].
  destruct (Ascii.eqb_spec c "/") as [->|Hc]; cbn [negb]; [done|].
  cbn [existsb]. rewrite IH, orb_false_r. apply Ascii.eqb_neq. congruence.
Qed.

(** What one of the three loops appends. *)
Lemma parse_symbols_spec (normalize : string → string) (ty : string) (symbols : json_value)
    (config : string * string) :
  config ∈ parse_symbols normalize ty symbols
  ↔ ∃ items s, symbols = JArr items ∧ JStr s ∈ items ∧ contains "/" s = true
               ∧ config = (normalize s, ty).
Proof.
  unfold parse_symbols.
  destruct symbols as [| | | | |items|];
    try (split; [by intros ?%elem_of_nil | by intros (? & ? & ? & _)]).
  rewrite list_elem_of_omap. split.
  - intros (item & Hitem & Hsome). destruct item as [| | | |s| |]; try done.
    destruct (contains "/" s) eqn:Hs; [|done]. injection Hsome as <-.
    by exists items, s.
  - intros (items' & s & [= <-] & Hin & Hs & ->). exists (JStr s). by rewrite Hs.
Qed.

Lemma parsed_config_valid (upper : string → string) (symbols_data : json_value)
    (config : string * string) :
  (∀ s, no_slash s → no_slash (upper s)) →
  config ∈ parse_new_symbol_format upper symbols_data →
  supported (snd config) = true ∧ no_slash (fst config).
Proof.
  intros Hupper. unfold parse_new_symbol_format.
  destruct symbols_data as [| | | | | |fields]; try by intros ?%elem_of_nil.
  intros [H|[H|H]%elem_of_app]%elem_of_app;
    apply parse_symbols_spec in H as (items & s & _ & _ & _ & ->);
    (split; [done | apply Hupper, remove_char_no_slash]).
Qed.

(** X20. Every instrument the configuration yields has one of the three
    market types the monitor knows, and a symbol without a slash, as long as
    [upper] brings none in. *)
Theorem parsed_symbols_are_valid (upper : string → string) (symbols_data : json_value) :
  (∀ s, no_slash s → no_slash (upper s)) →
  Forall (λ config, supported (snd config) = true ∧ no_slash (fst config))
         (parse_new_symbol_format upper symbols_data).
Proof.
  intros Hupper. apply Forall_forall. intros config Hin.
  by apply (parsed_config_valid upper symbols_data).
Qed.

Lemma before_char_append (c : ascii) (s rest : string) :
  contains c s = false → before_char c (s +:+ String c rest) = s.
Proof.
  unfold contains. induction s as [|x s IH].
  - intros _. change (before_char c (String c rest) = ""). cbn [before_char].
    by rewrite Ascii.eqb_refl.
  - cbn [bytes_of list_ascii_of_string existsb]. intros [Hx Hs]%orb_false_elim.
    change (before_char c (String x (s +:+ String c rest)) = String x s).
    cbn [before_char]. rewrite Ascii.eqb_sym in Hx. rewrite Hx.
    f_equal. by apply IH.
Qed.

(** X21. A contract written BASE/QUOTE:SETTLE under [futures] or
    [coin-futures] is monitored under the symbol of the pair BASE/QUOTE:
    what follows the colon is dropped. *)
Theorem futures_symbol_drops_settlement (upper : string → string)
    (fields : list (string * json_value)) (key ty : string) (items : list json_value)
    (s settle : string) :
  (key, ty) ∈ [("futures", "usdt-m"); ("coin-futures", "coin-m")] →
  obj_get key fields = Some (JArr items) →
  JStr (s +:+ ":" +:+ settle) ∈ items →
  contains "/" s = true →
  contains ":" s = false →
  (upper (remove_char "/" s), ty) ∈ parse_new_symbol_format upper (JObj fields).
Proof.
  intros Hkey Hget Hin Hslash Hcolon. unfold parse_new_symbol_format.
  assert (Hrow : (upper (remove_char "/" s), ty)
                 ∈ parse_symbols (λ s, upper (remove_char "/" (before_char ":" s))) ty
                     (JArr items)).
  { apply parse_symbols_spec. exists items, (s +:+ ":" +:+ settle).
    split; [done|]. split; [done|]. split.
    - unfold contains in *. by rewrite bytes_of_append, existsb_app, Hslash.
    - change (s +:+ ":" +:+ settle) with (s +:+ String ":" settle).
      by rewrite (before_char_append ":" s settle Hcolon). }
  apply elem_of_app. right. apply elem_of_app.
  apply elem_of_cons in Hkey as [[= -> ->]|Hkey].
  - left. unfold get_or_empty. by rewrite Hget.
  - apply list_elem_of_singleton in Hkey as [= -> ->].
    right. unfold get_or_empty. by rewrite Hget.
Qed.

Lemma init_is_Some fs now current_time max_age data_dir (config : string * string)
    (data_store : gmap string entry) :
  is_Some (init fs now current_time max_age data_dir config data_store)
  ↔ supported (snd config) = true.
Proof.
  unfold init, get_websocket_url, supported. destruct config as [symbol ty]. cbn [snd].
  destruct (String.eqb ty "spot"); [by split; eauto|].
  destruct (String.eqb ty "usdt-m"); [by split; eauto|].
  destruct (String.eqb ty "coin-m"); [by split; eauto|].
  split; [by intros [? ?] | done].
Qed.

Lemma init_fresh_monitor fs now current_time max_age data_dir config data_store
    (st : mstate) :
  init fs now current_time max_age data_dir config data_store = Some st →
  fresh_monitor (fst st).
Proof.
  unfold init. destruct config as [symbol ty].
  destruct (get_websocket_url _ _); [|done]. intros [= <-]. by repeat split.
Qed.

Lemma create_monitors_snoc fs now current_time max_age data_dir
    (configs : list (string * string)) (config : string * string) :
  create_monitors fs now current_time max_age data_dir (configs ++ [config])
  = let w := create_monitors fs now current_time max_age data_dir configs in
    match init fs now current_time max_age data_dir config (w_store w) with
    | None => w
    | Some (monitor, data_store) =>
        {| w_fs := w_fs w; w_store := data_store;
           w_monitors := dict_set (key_of (fst config) (snd config)) monitor (w_monitors w) |}
    end.
Proof. unfold create_monitors. by rewrite fold_left_app. Qed.

(** The monitors of [main] are those of the instruments whose market type
    is supported. *)
Lemma create_monitors_keys fs now current_time max_age data_dir
    (configs : list (string * string)) (k : string) :
  k ∈ map fst (w_monitors (create_monitors fs now current_time max_age data_dir configs))
  ↔ ∃ config, config ∈ configs ∧ supported (snd config) = true
              ∧ k = key_of (fst config) (snd config).
Proof.
  induction configs as [|config configs IH] using rev_ind.
  { split; [by intros ?%elem_of_nil | by intros (? & ?%elem_of_nil & _)]. }
  rewrite create_monitors_snoc. cbn zeta.
  pose proof (init_is_Some fs now current_time max_age data_dir config
                (w_store (create_monitors fs now current_time max_age data_dir configs)))
    as Hsome.
  destruct (init _ _ _ _ _ config _) as [[monitor data_store]|].
  - cbn [w_monitors]. rewrite dict_set_keys, IH. split.
    + intros [-> | (c & Hc & Hs & ->)].
      * exists config. split; [apply elem_of_app; right; by left|]. split; [|done].
        apply Hsome. eauto.
      * exists c. split; [apply elem_of_app; by left | done].
    + intros (c & [Hc | ->%list_elem_of_singleton]%elem_of_app & Hs & ->);
        [right; by exists c | by left].
  - rewrite IH. split.
    + intros (c & Hc & Hs & ->). exists c. split; [apply elem_of_app; by left | done].
    + intros (c & [Hc | ->%list_elem_of_singleton]%elem_of_app & Hs & ->);
        [by exists c|].
      apply Hsome in Hs as [? ?]. done.
Qed.

Lemma dict_set_elem {V} (k : string) (v : V) (d : list (string * V)) (item : string * V) :
  NoDup (map fst d) → item ∈ dict_set k v d → item = (k, v) ∨ (item ∈ d ∧ fst item ≠ k).
Proof.
  induction d as [|[k' v'] d IH]; cbn [dict_set map fst].
  { intros _ ->%list_elem_of_singleton. by left. }
  intros [Hfresh Hnd]%NoDup_cons.
  destruct (String.eqb_spec k k') as [->|Hne].
  - intros [->|Hin]%elem_of_cons; [by left|]. right. split; [by right|].
    intros Heq. apply Hfresh. rewrite <- Heq.
    apply list_elem_of_In, in_map, list_elem_of_In, Hin.
  - intros [->|Hin]%elem_of_cons.
    + right. split; [by left | cbn; congruence].
    + destruct (IH Hnd Hin) as [->|[? ?]]; [by left|]. right. split; [by right | done].
Qed.

(** X22. The loop of [main] that builds the monitors leaves out the
    instruments whose market type the constructor rejects and no other: the
    keys of [monitors] are those of the instruments with a supported type,
    the store has an entry for these keys and for no other, and every
    monitor is as its constructor left it, with its entry holding the seed
    of its [cvd], no price, a period volume of 0.0 and a count of 0. *)
Theorem monitors_of_supported_configs fs now current_time max_age data_dir
    (configs : list (string * string)) :
  let w := create_monitors fs now current_time max_age data_dir configs in
  (∀ k, k ∈ map fst (w_monitors w)
        ↔ ∃ config, config ∈ configs ∧ supported (snd config) = true
                    ∧ k = key_of (fst config) (snd config))
  ∧ (∀ k, is_Some (w_store w !! k) ↔ k ∈ map fst (w_monitors w))
  ∧ Forall (λ item, fresh_monitor (snd item)
                    ∧ w_store w !! fst item
                      = Some {| e_cvd := cvd (snd item); e_last_price := None;
                                e_period_volume := 0%float; e_trade_count := 0 |})
           (w_monitors w).
Proof.
  cbn zeta. split; [intros k; apply create_monitors_keys|].
  induction configs as [|config configs [IHdom IHall]] using rev_ind.
  { split; [|constructor]. intros k. cbn. rewrite lookup_empty.
    split; [by intros [? ?] | by intros ?%elem_of_nil]. }
  pose proof (create_monitors_wf fs now current_time max_age data_dir configs) as [Hnd _].
  rewrite create_monitors_snoc. cbn zeta.
  set (w := create_monitors fs now current_time max_age data_dir configs) in *.
  destruct (init _ _ _ _ _ config _) as [[monitor data_store]|] eqn:Hinit; [|done].
  destruct (init_fresh _ _ _ _ _ _ _ _ Hinit) as (_ & _ & _ & Hkey & Hstore).
  pose proof (init_fresh_monitor _ _ _ _ _ _ _ _ Hinit) as Hfresh.
  cbn [fst snd] in Hkey, Hstore, Hfresh. cbn [w_monitors w_store].
  rewrite <- Hkey. split.
  - intros k. rewrite dict_set_keys, <- IHdom, Hstore.
    destruct (decide (k = shared_key monitor)) as [->|Hne].
    + rewrite lookup_insert_eq. split; eauto.
    + rewrite lookup_insert_ne by done. split; [by right | by intros [?|?]].
  - apply Forall_forall. intros item Hitem.
    destruct (dict_set_elem _ _ _ _ Hnd Hitem) as [-> | [Hin Hne]].
    + cbn [fst snd]. split; [done|]. by rewrite Hstore, lookup_insert_eq.
    + rewrite Forall_forall in IHall. destruct (IHall item Hin) as [Hf He].
      split; [done|]. by rewrite Hstore, lookup_insert_ne.
Qed.

Lemma key_of_relative (symbol ty : string) :
  no_slash symbol → is_relative (key_of symbol ty) = true.
Proof.
  unfold no_slash, contains, key_of. destruct symbol as [|c symbol]; [done|].
  cbn [bytes_of list_ascii_of_string existsb]. intros [Hc _]%orb_false_elim.
  change (negb (Ascii.eqb c "/") = true). by rewrite Ascii.eqb_sym, Hc.
Qed.

Lemma key_of_not_unified (symbol ty : string) :
  supported ty = true → key_of symbol ty ≠ "cvd_data_all".
Proof.
  intros Hty Heq. apply (f_equal (λ s, rev (bytes_of s))) in Heq.
  unfold key_of in Heq. rewrite !bytes_of_append, !rev_app_distr in Heq.
  unfold supported in Hty.
  apply orb_true_iff in Hty as [Hty|Hty]; [apply orb_true_iff in Hty as [Hty|Hty]|];
    apply String.eqb_eq in Hty; subst ty; vm_compute in Heq; discriminate Heq.
Qed.

(** X23. The world [main] builds from the configuration is one the cycles
    are specified for: every instrument the configuration yields has its
    monitor, each monitor is filed once under its own key with its entry in
    the store, and every key names a file of the data directory other than
    the combined log. *)
Theorem configured_world_is_well_formed (upper : string → string)
    (symbols_data : json_value) fs now current_time max_age data_dir :
  (∀ s, no_slash s → no_slash (upper s)) →
  let configs := parse_new_symbol_format upper symbols_data in
  let w := create_monitors fs now current_time max_age data_dir configs in
  wf_world w
  ∧ Forall (λ item, instrument_key (fst item)) (w_monitors w)
  ∧ ∀ config, config ∈ configs → key_of (fst config) (snd config) ∈ map fst (w_monitors w).
Proof.
  intros Hupper configs w. split; [apply create_monitors_wf|]. split.
  - apply Forall_forall. intros item Hitem.
    assert (Hkey : fst item ∈ map fst (w_monitors w)).
    { apply list_elem_of_In, in_map, list_elem_of_In, Hitem. }
    apply create_monitors_keys in Hkey as (config & Hconfig & Hty & ->).
    destruct (parsed_config_valid upper symbols_data config Hupper Hconfig) as [_ Hsym].
    split; [by apply key_of_relative | by apply key_of_not_unified].
  - intros config Hconfig. apply create_monitors_keys. exists config.
    split; [done|]. split; [|done].
    by destruct (parsed_config_valid upper symbols_data config Hupper Hconfig).
Qed.

End Configuration.

(** * The further properties on the examples *)

Section MoreScenarios.
#[local] Existing Instance sample_builtins.

(** X1 on the two trades with an event without a price between them: the
    event counts for nothing. *)
Lemma replay_counts_three_events :
  cvd (fst (replay three_events btc0)) = 0.5%float
  ∧ period_volume (fst (replay three_events btc0)) = 1.5%float
  ∧ trade_count (fst (replay three_events btc0)) = 2.
Proof.
  destruct (replay_counts_accepted three_events btc0) as (Hc & Hv & Hn).
  - eexists. vm_compute. reflexivity.
  - rewrite Hc, Hv, Hn. repeat split; vm_compute; reflexivity.
Defined.

(** X4 on the envelope of the first trade. *)
Lemma envelope_as_bare_btc :
  process_message 1%float
    (bytes_of (json_text (framed "btcusdt@aggTrade" trade_buy_1))) btc0
  = calculate_cvd 1%float trade_buy_1 btc0.
Proof.
  apply (envelope_as_bare 1%float _ (framed "btcusdt@aggTrade" trade_buy_1) trade_buy_1 btc0).
  - vm_compute. reflexivity.
  - intros H. vm_compute in H. discriminate H.
  - reflexivity.
  - reflexivity.
  - reflexivity.
Defined.

(** X5 on the same envelope, received by the monitor of another stream. *)
Lemma btc_envelope_ignored_by_eth :
  process_message 1%float
    (bytes_of (json_text (framed "btcusdt@aggTrade" trade_buy_1))) eth0
  = eth0.
Proof.
  apply (other_messages_ignored 1%float _ (framed "btcusdt@aggTrade" trade_buy_1) eth0).
  - vm_compute. reflexivity.
  - intros H. vm_compute in H. discriminate H.
  - left. intros H. vm_compute in H. discriminate H.
Defined.

(** X7 on the end of the stream of a task that reads. *)
Lemma end_of_stream_keeps_trade_data :
  trade_data_of (deliver btc_reading (Wake EndOfStream)) = trade_data_of btc_reading.
Proof.
  apply (trade_data_changes_on_messages_only btc_reading (Wake EndOfStream)).
  left. reflexivity.
Defined.

(** X8 on a task that has connected. *)
Lemma connection_held_after_connect :
  let t := connect_and_monitor [Wake Resume; Wake (ConnectOk 1%nat)] btc0 in
  (is_Some (ws (fst (snd t))) ↔ fst t = Reading)
  ∧ 0 ≤ reconnect_attempts (fst (snd t)) ≤ 20
  ∧ ∀ delay, fst t = Sleeping delay → 10 ≤ delay ≤ 60.
Proof.
  exact (connection_held_while_reading ∅ 0 0%float 6 "/data" ("BTCUSDT", "spot") ∅ btc0
           [Wake Resume; Wake (ConnectOk 1%nat)] btc0_constructed).
Defined.

(** X9 on a task that has connected and taken one trade in. *)
Lemma shut_down_while_reading :
  let t := shut_down
             (connect_and_monitor
                [Wake Resume; Wake (ConnectOk 1%nat);
                 Wake (MsgText 1%float (json_text trade_buy_1))] btc0) in
  fst t = Finished ∧ ws (fst (snd t)) = None ∧ cvd (fst (snd t)) = 1%float.
Proof.
  destruct (shut_down_finishes ∅ 0 0%float 6 "/data" ("BTCUSDT", "spot") ∅ btc0
              [Wake Resume; Wake (ConnectOk 1%nat);
               Wake (MsgText 1%float (json_text trade_buy_1))] btc0_constructed)
    as (Hfinished & _ & _ & Hws & _ & Hdata).
  split; [exact Hfinished|]. split; [exact Hws|].
  apply (f_equal (λ d, fst (fst (fst (fst d))))) in Hdata.
  etrans; [exact Hdata|]. vm_compute. reflexivity.
Defined.

(** X10 on a log modified seven days ago, with a limit of six. *)
Lemma week_old_log_loads_zero :
  load_last_cvd_from_separate_csv some_cvd_fs (7 * microseconds_per_day)
    "/data/BTCUSDT_spot.csv" 6
  = 0%float.
Proof.
  destruct (load_last_cvd_age some_cvd_fs (7 * microseconds_per_day)
              "/data/BTCUSDT_spot.csv" 6
              {| f_mtime := 0;
                 f_bytes := crlf_text
                   [bytes_of "timestamp,price,cvd,period_volume,trade_count";
                    bytes_of "2024-01-01 12:00:00,100.0,2.5,1.0,5"] |})
    as [Hold _].
  - vm_compute. reflexivity.
  - apply Hold. cbn [f_mtime]. lia.
Defined.

(** X11 on a log of 6000 bytes: its first 1000 bytes are not read. *)
Lemma long_log_loads_last_row :
  load_last_cvd_from_separate_csv
    (<["/data/BTCUSDT_spot.csv" :=
         {| f_mtime := 0; f_bytes := repeat "x"%char 1000 ++ long_log 5000 |}]> long_log_fs)
    0 "/data/BTCUSDT_spot.csv" 6
  = 2.5%float.
Proof.
  refine (eq_trans
            (load_reads_last_chunk long_log_fs 0 "/data/BTCUSDT_spot.csv" 6
               {| f_mtime := 0; f_bytes := long_log 5000 |} (repeat "x"%char 1000) _ _) _).
  - vm_compute. reflexivity.
  - apply Nat.leb_le. vm_compute. reflexivity.
  - vm_compute. reflexivity.
Defined.

(** X12 on the first cycle of the instrument: the next start continues from
    a [cvd] of 0.5. *)
Lemma btc_restart :
  ∃ st,
    init (w_fs (persistence_cycle io_ok noon 0 "/data" btc_world)) 0 0%float 6 "/data"
         ("BTCUSDT", "spot") ∅ = Some st
    ∧ cvd (fst st) = 0.5%float
    ∧ period_volume (fst st) = 0%float
    ∧ last_price (fst st) = None
    ∧ trade_count (fst st) = 0.
Proof.
  destruct (restart_continues_from_log sample_decode_ascii sample_csv_rows io_ok noon 0
              "/data" btc_world "BTCUSDT" "spot" btc_entry2 [] 6 0%float ∅)
    as (st & Hinit & Hc & Hv & Hp & Hn & _).
  - repeat constructor. discriminate.
  - apply list_elem_of_singleton. reflexivity.
  - vm_compute. reflexivity.
  - exists (values_of btc_entry2). vm_compute. reflexivity.
  - reflexivity.
  - reflexivity.
  - reflexivity.
  - split; [constructor | vm_compute; reflexivity].
  - repeat constructor.
  - vm_compute. lia.
  - vm_compute. reflexivity.
  - lia.
  - reflexivity.
  - exists st. repeat split; assumption.
Defined.

Lemma btc_world_wf : wf_world btc_world.
Proof.
  split; cbn [btc_world w_monitors w_store map fst].
  - apply NoDup_singleton.
  - constructor; [|constructor]. split; [reflexivity|]. eexists. vm_compute. reflexivity.
Qed.

Lemma btc_world_keys : Forall (λ item, instrument_key (fst item)) (w_monitors btc_world).
Proof. repeat constructor. discriminate. Qed.

(** X15 on a cycle in which the combined log cannot be opened. *)
Lemma combined_log_failure_raises :
  save_cvd_data_both_modes io_combined_fails noon 0 "/data" btc_world = Raised btc_world.
Proof.
  apply (failed_cycle_changes_nothing io_combined_fails noon 0 "/data" btc_world).
  right. split; [reflexivity|]. exists btc_key. split.
  - apply list_elem_of_singleton. reflexivity.
  - exists (values_of btc_entry2). vm_compute. reflexivity.
Defined.

(** X16 on a cycle before the first trade. *)
Lemma idle_cycle_writes_nothing :
  w_fs (persistence_cycle io_ok noon 0 "/data" idle_world) = ∅.
Proof.
  apply (skipped_instruments_write_nothing io_ok noon 0 "/data" idle_world).
  constructor; [|constructor]. vm_compute. reflexivity.
Defined.

(** X17 on a cycle in which the log of the instrument cannot be opened. *)
Lemma unopened_log_stays_absent :
  w_fs (persistence_cycle io_separate_fails noon 0 "/data" btc_world)
    !! csv_path_of "/data" btc_key
  = None.
Proof.
  refine (eq_trans
            (untouched_logs io_separate_fails noon 0 "/data" btc_world btc_key
               btc_world_keys _ _) _).
  - split; [reflexivity | discriminate].
  - right. reflexivity.
  - vm_compute. reflexivity.
Defined.

(** X18 on the same cycle: the call returns and the period volume is
    reset. *)
Lemma unopened_log_costs_no_reset :
  raised (save_cvd_data_both_modes io_separate_fails noon 0 "/data" btc_world) = false
  ∧ Forall (λ item, period_volume (snd item) = 0%float)
           (w_monitors (persistence_cycle io_separate_fails noon 0 "/data" btc_world)).
Proof.
  destruct (separate_failures_are_isolated io_separate_fails noon 0 "/data" btc_world
              btc_world_wf btc_world_keys)
    as (Hreturns & _ & Hreset); [reflexivity | reflexivity |].
  split; [exact Hreturns | exact Hreset].
Defined.

(** X19 on two cycles of the instrument, a minute apart. *)
Lemma btc_log_after_two_cycles :
  bytes_at (w_fs (persistence_cycle io_ok one_past_noon 60000000 "/data"
                    (persistence_cycle io_ok noon 0 "/data" btc_world)))
           "/data/BTCUSDT_spot.csv"
  = crlf_text [bytes_of "timestamp,price,cvd,period_volume,trade_count";
               bytes_of "2024-01-01 12:00:00,101.0,0.5,1.5,1";
               bytes_of "2024-01-01 12:01:00,101.0,0.5,0.0,1"].
Proof.
  refine (eq_trans
            (two_cycles_one_header io_ok io_ok noon one_past_noon 0 60000000 "/data"
               btc_world btc_key btc_entry2 btc_world_wf btc_world_keys
               _ _ _ _ _ _ _ _ _ _) _).
  - apply list_elem_of_singleton. reflexivity.
  - vm_compute. reflexivity.
  - exists (values_of btc_entry2). vm_compute. reflexivity.
  - reflexivity.
  - reflexivity.
  - reflexivity.
  - reflexivity.
  - reflexivity.
  - reflexivity.
  - reflexivity.
  - vm_compute. reflexivity.
Defined.

Lemma upper_char_no_slash (c : ascii) :
  Ascii.eqb "/" c = false → Ascii.eqb "/" (upper_char c) = false.
Proof. destruct c as [[] [] [] [] [] [] [] []]; intros H; vm_compute in H |- *; done. Qed.

Lemma upper_ascii_no_slash (s : string) : no_slash s → no_slash (upper_ascii s).
Proof.
  unfold no_slash, contains, upper_ascii, str_of, bytes_of.
  rewrite list_ascii_of_string_of_list_ascii.
  induction (list_ascii_of_string s) as [|c l IH]; [done|].
  cbn [map existsb]. intros [Hc Hl]%orb_false_elim.
  by rewrite (upper_char_no_slash c Hc), IH.
Qed.

(** X20 on a configuration with one pair, one contract and two entries that
    are skipped. *)
Lemma sample_symbols_are_valid :
  parse_new_symbol_format upper_ascii sample_symbols
  = [("BTCUSDT", "spot"); ("ETHUSDT", "usdt-m")]
  ∧ Forall (λ config, supported (snd config) = true ∧ no_slash (fst config))
           (parse_new_symbol_format upper_ascii sample_symbols).
Proof.
  split; [vm_compute; reflexivity|].
  apply (parsed_symbols_are_valid upper_ascii sample_symbols). exact upper_ascii_no_slash.
Defined.

(** X21 on the contract of the configuration. *)
Lemma sample_contract_symbol :
  ("ETHUSDT", "usdt-m") ∈ parse_new_symbol_format upper_ascii sample_symbols.
Proof.
  exact (futures_symbol_drops_settlement upper_ascii
           [("spot", JArr [JStr "btc/usdt"; JStr "ETHUSDT"; JInt 7]);
            ("futures", JArr [JStr "eth/usdt:usdt"])]
           "futures" "usdt-m" [JStr "eth/usdt:usdt"] "eth/usdt" "usdt"
           (list_elem_of_here _ _) eq_refl (list_elem_of_here _ _) eq_refl eq_refl).
Defined.

(** X23 on the world of this configuration. *)
Lemma sample_world_is_well_formed :
  wf_world sample_world
  ∧ Forall (λ item, instrument_key (fst item)) (w_monitors sample_world)
  ∧ map fst (w_monitors sample_world) = ["BTCUSDT_spot"; "ETHUSDT_usdt-m"].
Proof.
  destruct (configured_world_is_well_formed upper_ascii sample_symbols ∅ 0 0%float 6
              "/data" upper_ascii_no_slash)
    as (Hwf & Hkeys & _).
  split; [exact Hwf|]. split; [exact Hkeys|]. vm_compute. reflexivity.
Defined.

End MoreScenarios.
